(** * Flatty: flattening and unflattening of schema objects

    A shallow embedding of [src/flatty/flatty.py] and of the properties its
    specification states about it.

    The module is Python 2 code ([__metaclass__], [types.NoneType]); the
    embedding follows Python 2.7:
    - every mutable Python object (list, dict, class instance, class created
      by a [class] statement or by [type(...)]) lives in a store and is
      referred to by its location; two references to one object alias;
    - the built-in types ([int], [list], [datetime.date], ...) cannot be
      modified from Python and are described by a static table;
    - an exception aborts the computation ([Raise]);
    - [flatit], [unflatit] and the converters call each other through the
      registry; their mutual recursion and the traversal of a list that may
      grow while it is traversed are bounded by fuel.

    Scope of the model: the values are [None], booleans, integers, byte
    strings, naive [date], [datetime] and [time] values, classes, functions and
    methods (opaque), and lists, dicts and instances in the store.  Class
    dictionaries list the attributes whose names do not start with two
    underscores; classes written by a user of the library declare data
    attributes and opaque methods only. *)

From stdpp Require Import base list strings gmap.
From Stdlib Require Import ZArith String Ascii Lia.
From Stdlib Require OrderedTypeEx.

Open Scope string_scope.
Open Scope Z_scope.
Open Scope list_scope.

(** ** Values *)

Abbreviation loc := nat.

Record date := mkdate { d_year : Z; d_month : Z; d_day : Z }.
Record time := mktime { t_hour : Z; t_minute : Z; t_second : Z; t_micro : Z }.
Record datetime := mkdatetime { dt_date : date; dt_time : time }.

(** The built-in types the module meets. *)
Inductive builtin :=
| BObject | BType | BNoneType | BBool | BInt | BStr | BList | BDict
| BDate | BDateTime | BTime | BFunction | BInstanceMethod | BBuiltinFunction.

(** A class is a built-in type or a class object in the store. *)
Inductive cref :=
| CB (b : builtin)
| CL (l : loc).

(** The three methods of a converter and the seven classes that define
    them in the module. *)
Inductive conv_impl :=
| IBase | IDate | IDateTime | ITime | ISchema | ITypedList | ITypedDict.
Inductive conv_meth := MCheck | MFlat | MObj.

Inductive func :=
| FUser (name : string)                      (* a function the model does not run *)
| FConv (i : conv_impl) (m : conv_meth).     (* [i.check_type], [i.to_flat], [i.to_obj] *)

Inductive value :=
| VNone
| VBool (b : bool)
| VInt (z : Z)
| VStr (s : string)
| VDate (d : date)
| VDateTime (dt : datetime)
| VTime (t : time)
| VCls (b : builtin)          (* a built-in type used as a value *)
| VFunc (f : func)            (* a function as stored in a class dictionary *)
| VMethod (f : func)          (* the bound or unbound method [getattr] makes of it *)
| VBuiltinFn (name : string)  (* a method of a built-in type, e.g. [list.append] *)
| VRef (l : loc).             (* a list, dict, instance or class in the store *)

#[global] Instance date_eq_dec : EqDecision date.
Proof. solve_decision. Defined.
#[global] Instance time_eq_dec : EqDecision time.
Proof. solve_decision. Defined.
#[global] Instance datetime_eq_dec : EqDecision datetime.
Proof. solve_decision. Defined.
#[global] Instance builtin_eq_dec : EqDecision builtin.
Proof. solve_decision. Defined.
#[global] Instance cref_eq_dec : EqDecision cref.
Proof. solve_decision. Defined.
#[global] Instance conv_impl_eq_dec : EqDecision conv_impl.
Proof. solve_decision. Defined.
#[global] Instance conv_meth_eq_dec : EqDecision conv_meth.
Proof. solve_decision. Defined.
#[global] Instance func_eq_dec : EqDecision func.
Proof. solve_decision. Defined.
#[global] Instance val_eq_dec : EqDecision value.
Proof. solve_decision. Defined.

(** ** The store *)

(** What an instance holds besides its [__dict__]. *)
Inductive payload :=
| PObject
| PList (items : list value)
| PDict (items : list (value * value)).

Record pyclass := mkclass {
  c_name : string;             (* [__name__] *)
  c_module : string;           (* [__module__] *)
  c_heap : bool;               (* made by a class statement or [type(...)] *)
  c_meta : bool;               (* its metaclass is [MetaBaseFlattyType] *)
  c_mro : list cref;           (* [__mro__] without the class itself *)
  c_dict : gmap string value     (* its own attributes *)
}.

Inductive hobj :=
| HObj (c : cref) (attrs : gmap string value) (p : payload)
| HClass (k : pyclass).

Abbreviation heap := (list hobj).

(** ** Exceptions and the state monad *)

Inductive exn :=
| TypeError                (* the spec's TypeMismatch *)
| ValueError               (* the spec's FormatError *)
| AttributeError
| KeyError
| IndexError
| NotImplementedError
| PlainException           (* [raise Exception(...)]: UnresolvableElementType *)
| Opaque                   (* a call of a function the model does not run *)
| OutOfFuel.               (* the recursion or a loop did not end within the fuel *)

Inductive res (A : Type) :=
| Ok (a : A)
| Raise (e : exn).
Arguments Ok {A} a.
Arguments Raise {A} e.

Definition M (A : Type) : Type := heap -> res (A * heap).

Definition ret {A} (a : A) : M A := fun h => Ok (a, h).
Definition raise {A} (e : exn) : M A := fun _ => Raise e.
Definition bind {A B} (m : M A) (f : A -> M B) : M B :=
  fun h => match m h with
           | Ok (a, h') => f a h'
           | Raise e => Raise e
           end.
Definition lift {A} (r : res A) : M A :=
  fun h => match r with Ok a => Ok (a, h) | Raise e => Raise e end.
(** A read of the store. *)
Definition reads {A} (f : heap -> A) : M A := fun h => Ok (f h, h).
Definition readr {A} (f : heap -> res A) : M A := fun h => lift (f h) h.

Declare Scope m_scope.
Delimit Scope m_scope with M.
Notation "x <- m ;; k" := (bind m (fun x => k))
  (at level 100, m at next level, right associativity) : m_scope.
Notation "m ;;; k" := (bind m (fun _ => k))
  (at level 100, right associativity) : m_scope.
Open Scope m_scope.

Definition alloc (o : hobj) : M loc := fun h => Ok (List.length h, h ++ [o]).
Definition store (l : loc) (o : hobj) : M unit := fun h => Ok (tt, <[l := o]> h).

(** ** Classes *)

Definition dict_of (l : list (string * value)) : gmap string value := list_to_map l.

Definition builtin_methods (names : list string) : gmap string value :=
  dict_of (map (fun n => (n, VBuiltinFn n)) names).

(** The static description of the built-in types: name, module, [__mro__]
    and public methods (those of the scalar types are left out). *)
Definition builtin_info (b : builtin) : pyclass :=
  let mk name module mro d := mkclass name module false false mro d in
  match b with
  | BObject => mk "object" "__builtin__" [] ∅
  | BType => mk "type" "__builtin__" [CB BObject] (builtin_methods ["mro"])
  | BNoneType => mk "NoneType" "__builtin__" [CB BObject] ∅
  | BBool => mk "bool" "__builtin__" [CB BInt; CB BObject] ∅
  | BInt => mk "int" "__builtin__" [CB BObject] ∅
  | BStr => mk "str" "__builtin__" [CB BObject] ∅
  | BList => mk "list" "__builtin__" [CB BObject]
      (builtin_methods ["append"; "count"; "extend"; "index"; "insert"; "pop";
                        "remove"; "reverse"; "sort"])
  | BDict => mk "dict" "__builtin__" [CB BObject]
      (builtin_methods ["clear"; "copy"; "fromkeys"; "get"; "has_key"; "items";
                        "iteritems"; "iterkeys"; "itervalues"; "keys"; "pop";
                        "popitem"; "setdefault"; "update"; "values";
                        "viewitems"; "viewkeys"; "viewvalues"])
  | BDate => mk "date" "datetime" [CB BObject] ∅
  | BDateTime => mk "datetime" "datetime" [CB BDate; CB BObject] ∅
  | BTime => mk "time" "datetime" [CB BObject] ∅
  | BFunction => mk "function" "__builtin__" [CB BObject] ∅
  | BInstanceMethod => mk "instancemethod" "__builtin__" [CB BObject] ∅
  | BBuiltinFunction => mk "builtin_function_or_method" "__builtin__" [CB BObject] ∅
  end.

Definition cinfo (h : heap) (c : cref) : option pyclass :=
  match c with
  | CB b => Some (builtin_info b)
  | CL l => match h !! l with
            | Some (HClass k) => Some k
            | _ => None
            end
  end.

(** [str(cls)], as [type_repr] of CPython 2.7 prints it. *)
Definition class_str (k : pyclass) : string :=
  let kind := if c_heap k then "class" else "type" in
  if String.eqb (c_module k) "__builtin__"
  then ("<" ++ kind ++ " '" ++ c_name k ++ "'>")%string
  else ("<" ++ kind ++ " '" ++ c_module k ++ "." ++ c_name k ++ "'>")%string.

Definition cref_str (h : heap) (c : cref) : option string :=
  class_str <$> cinfo h c.

(** [cls.mro()]: the class followed by its ancestors. *)
Definition mro (h : heap) (c : cref) : list cref :=
  c :: match cinfo h c with Some k => c_mro k | None => [] end.

Definition has_meta (h : heap) (c : cref) : bool :=
  match cinfo h c with Some k => c_meta k | None => false end.

(** A metaclass: [type] or a class derived from it. *)
Definition is_metaclass (h : heap) (c : cref) : bool :=
  bool_decide (CB BType ∈ mro h c).

(** The classes of the module, at the head of every store it runs in. *)
Definition L_MetaBaseFlattyType : loc := 0%nat.
Definition L_BaseFlattyType : loc := 1%nat.
Definition L_TypedList : loc := 2%nat.
Definition L_TypedDict : loc := 3%nat.
Definition L_Schema : loc := 4%nat.
Definition L_Converter : loc := 5%nat.
Definition L_DateConverter : loc := 6%nat.
Definition L_DateTimeConverter : loc := 7%nat.
Definition L_TimeConverter : loc := 8%nat.
Definition L_SchemaConverter : loc := 9%nat.
Definition L_TypedListConverter : loc := 10%nat.
Definition L_TypedDictConverter : loc := 11%nat.

Definition module_name : string := "flatty.flatty".

Definition conv_class (name : string) (i : conv_impl) (ms : list (string * conv_meth)) : hobj :=
  HClass (mkclass name module_name true false
            (if decide (i = IBase) then [CB BObject] else [CL L_Converter; CB BObject])
            (dict_of (map (fun '(n, m) => (n, VFunc (FConv i m))) ms))).

Definition flatty_heap : heap :=
  [ HClass (mkclass "MetaBaseFlattyType" module_name true false [CB BType; CB BObject] ∅);
    HClass (mkclass "BaseFlattyType" module_name true true [CB BObject]
              (dict_of [("ftype", VNone); ("set_type", VFunc (FUser "set_type"))]));
    HClass (mkclass "TypedList" module_name true true
              [CL L_BaseFlattyType; CB BList; CB BObject] ∅);
    HClass (mkclass "TypedDict" module_name true true
              [CL L_BaseFlattyType; CB BDict; CB BObject] ∅);
    HClass (mkclass "Schema" module_name true false [CB BObject]
              (dict_of [("flatit", VFunc (FUser "flatit"));
                        ("unflatit", VFunc (FUser "unflatit"))]));
    conv_class "Converter" IBase
      [("check_type", MCheck); ("to_flat", MFlat); ("to_obj", MObj)];
    conv_class "DateConverter" IDate [("to_flat", MFlat); ("to_obj", MObj)];
    conv_class "DateTimeConverter" IDateTime [("to_flat", MFlat); ("to_obj", MObj)];
    conv_class "TimeConverter" ITime [("to_flat", MFlat); ("to_obj", MObj)];
    conv_class "SchemaConverter" ISchema
      [("check_type", MCheck); ("to_flat", MFlat); ("to_obj", MObj)];
    conv_class "TypedListConverter" ITypedList
      [("check_type", MCheck); ("to_flat", MFlat); ("to_obj", MObj)];
    conv_class "TypedDictConverter" ITypedDict
      [("check_type", MCheck); ("to_flat", MFlat); ("to_obj", MObj)] ].

(** ** Python's object protocol on the model's values *)

(** [type(v)], which is also [v.__class__]. *)
Definition class_of (h : heap) (v : value) : cref :=
  match v with
  | VNone => CB BNoneType
  | VBool _ => CB BBool
  | VInt _ => CB BInt
  | VStr _ => CB BStr
  | VDate _ => CB BDate
  | VDateTime _ => CB BDateTime
  | VTime _ => CB BTime
  | VCls _ => CB BType
  | VFunc _ => CB BFunction
  | VMethod _ => CB BInstanceMethod
  | VBuiltinFn _ => CB BBuiltinFunction
  | VRef l =>
      match h !! l with
      | Some (HObj c _ _) => c
      | Some (HClass k) => if c_meta k then CL L_MetaBaseFlattyType else CB BType
      | None => CB BObject
      end
  end.

(** [inspect.isclass(v)], with the class it denotes. *)
Definition as_class (h : heap) (v : value) : option cref :=
  match v with
  | VCls b => Some (CB b)
  | VRef l => match h !! l with Some (HClass _) => Some (CL l) | _ => None end
  | _ => None
  end.

Definition isclass (h : heap) (v : value) : bool :=
  match as_class h v with Some _ => true | None => false end.

Definition cref_val (c : cref) : value :=
  match c with CB b => VCls b | CL l => VRef l end.

(** [t if inspect.isclass(t) else t.__class__] *)
Definition type_class (h : heap) (t : value) : cref :=
  match as_class h t with Some c => c | None => class_of h t end.

(** [inspect.ismethod(v)] *)
Definition ismethod (v : value) : bool :=
  match v with VMethod _ => true | _ => false end.

(** [MetaBaseFlattyType.__subclasscheck__(cls, sub)]: the printed forms of
    the classes of [sub.mro()] are compared with the printed form of [cls]
    (no class of the module defines [__subclass__]).  [sub.mro()] raises
    TypeError when [sub] is itself a metaclass: the lookup finds the unbound
    descriptor [type.mro]. *)
Definition meta_subclasscheck (h : heap) (cls sub : cref) : res bool :=
  if is_metaclass h sub then Raise TypeError
  else
    let str_candidates := [cref_str h cls] in
    let str_c := map (cref_str h) (mro h sub) in
    Ok (existsb (fun s => bool_decide (s ∈ str_candidates)) str_c).

(** [issubclass(sub, cls)] *)
Definition issubclass (h : heap) (sub cls : cref) : res bool :=
  if has_meta h cls then meta_subclasscheck h cls sub
  else Ok (bool_decide (cls ∈ mro h sub)).

(** [isinstance(v, cls)]: CPython answers at once when [type(v)] is [cls];
    [MetaBaseFlattyType.__instancecheck__] asks [__subclasscheck__] about
    [type(v)] and [v.__class__], which are one class here. *)
Definition isinstance (h : heap) (v : value) (cls : cref) : res bool :=
  if decide (class_of h v = cls) then Ok true
  else if has_meta h cls then
    match meta_subclasscheck h cls (class_of h v) with
    | Ok b1 => match meta_subclasscheck h cls (class_of h v) with
               | Ok b2 => Ok (b1 || b2)
               | Raise e => Raise e
               end
    | Raise e => Raise e
    end
  else Ok (bool_decide (cls ∈ mro h (class_of h v))).

(** [v.__name__], where [v] has one. *)
Definition name_of (h : heap) (v : value) : option string :=
  let fname f := match f with
                 | FUser n => n
                 | FConv _ MCheck => "check_type"
                 | FConv _ MFlat => "to_flat"
                 | FConv _ MObj => "to_obj"
                 end in
  match v with
  | VFunc f | VMethod f => Some (fname f)
  | VBuiltinFn n => Some n
  | _ => c_name <$> (as_class h v ≫= cinfo h)
  end.

(** [MetaBaseFlattyType.__eq__(self, other)] *)
Definition meta_eq (h : heap) (self other : value) : bool :=
  match name_of h self, name_of h other with
  | Some a, Some b => String.eqb a b
  | _, _ => false
  end.

Definition val_has_meta (h : heap) (v : value) : bool :=
  match as_class h v with Some c => has_meta h c | None => false end.

(** [a == b] where [a] is a class: [MetaBaseFlattyType.__eq__] when one of
    the two is a class with that metaclass, identity otherwise. *)
Definition class_eq (h : heap) (a b : value) : bool :=
  if val_has_meta h a || val_has_meta h b then meta_eq h a b
  else bool_decide (a = b).

(** [v == None] *)
Definition is_none (v : value) : bool :=
  match v with VNone => true | _ => false end.

(** Truth value of [v], as [if v:] tests it. *)
Definition truthy (h : heap) (v : value) : bool :=
  match v with
  | VNone => false
  | VBool b => b
  | VInt z => negb (Z.eqb z 0)
  | VStr s => negb (String.eqb s "")
  | VRef l => match h !! l with
              | Some (HObj _ _ (PList items)) => negb (bool_decide (items = []))
              | Some (HObj _ _ (PDict items)) => negb (bool_decide (items = []))
              | _ => true
              end
  | VTime t => negb (bool_decide (t = mktime 0 0 0 0))
  | _ => true
  end.

(** *** Attributes *)

Definition class_lookup (h : heap) (c : cref) (name : string) : option value :=
  (fix go (cs : list cref) : option value :=
     match cs with
     | [] => None
     | c' :: cs' =>
         match cinfo h c' ≫= (fun k => c_dict k !! name) with
         | Some v => Some v
         | None => go cs'
         end
     end) (mro h c).

(** A function found in a class comes back as a method. *)
Definition bind_attr (v : value) : value :=
  match v with VFunc f => VMethod f | _ => v end.

(** [getattr(v, name)]; [None] stands for AttributeError. *)
Definition py_getattr (h : heap) (v : value) (name : string) : option value :=
  match v with
  | VRef l =>
      match h !! l with
      | Some (HObj c attrs _) =>
          match attrs !! name with
          | Some x => Some x
          | None => bind_attr <$> class_lookup h c name
          end
      | Some (HClass _) =>
          match class_lookup h (CL l) name with
          | Some x => Some (bind_attr x)
          | None => bind_attr <$> class_lookup h (class_of h v) name
          end
      | None => None
      end
  | VCls b =>
      match class_lookup h (CB b) name with
      | Some x => Some (bind_attr x)
      | None => bind_attr <$> class_lookup h (CB BType) name
      end
  | _ => bind_attr <$> class_lookup h (class_of h v) name
  end.

Definition py_hasattr (h : heap) (v : value) (name : string) : bool :=
  match py_getattr h v name with Some _ => true | None => false end.

(** [hasattr(v, k)] where [k] is any value: the name must be a string. *)
Definition py_hasattr_val (h : heap) (v k : value) : res bool :=
  match k with
  | VStr name => Ok (py_hasattr h v name)
  | _ => Raise TypeError
  end.

Fixpoint insert_name (s : string) (l : list string) : list string :=
  match l with
  | [] => [s]
  | x :: l' =>
      if String.eqb s x then l
      else if String.ltb s x then s :: l
      else x :: insert_name s l'
  end.

Definition sort_names (l : list string) : list string :=
  foldr insert_name [] l.

Definition dict_names (d : gmap string value) : list string := (map_to_list d).*1.

Definition class_names (h : heap) (c : cref) : list string :=
  List.concat (map (fun c' => match cinfo h c' with
                         | Some k => dict_names (c_dict k)
                         | None => []
                         end) (mro h c)).

(** [dir(v)] without the names that start with two underscores: the names
    of the instance and of its class and ancestors, sorted. *)
Definition py_dir (h : heap) (v : value) : list string :=
  match v with
  | VRef l =>
      match h !! l with
      | Some (HObj c attrs _) => sort_names (dict_names attrs ++ class_names h c)
      | Some (HClass _) => sort_names (class_names h (CL l))
      | None => []
      end
  | VCls b => sort_names (class_names h (CB b))
  | _ => sort_names (class_names h (class_of h v))
  end.

(** [setattr(target, name, x)]: instances of classes in the store have a
    [__dict__], instances of built-in types have none, built-in types
    refuse new attributes. *)
Definition py_setattr (target : value) (name : string) (x : value) : M unit :=
  fun h =>
    match target with
    | VRef l =>
        match h !! l with
        | Some (HObj (CL c) attrs p) => store l (HObj (CL c) (<[name := x]> attrs) p) h
        | Some (HObj (CB _) _ _) => Raise AttributeError
        | Some (HClass k) =>
            if c_heap k
            then store l (HClass (mkclass (c_name k) (c_module k) (c_heap k) (c_meta k)
                                    (c_mro k) (<[name := x]> (c_dict k)))) h
            else Raise TypeError
        | None => Raise AttributeError
        end
    | VCls _ => Raise TypeError
    | _ => Raise AttributeError
    end.

(** [c()]: a call of the class without arguments. *)
Definition instantiate (c : cref) : M value :=
  match c with
  | CB BList => l <- alloc (HObj c ∅ (PList [])) ;; ret (VRef l)
  | CB BDict => l <- alloc (HObj c ∅ (PDict [])) ;; ret (VRef l)
  | CB BObject => l <- alloc (HObj c ∅ PObject) ;; ret (VRef l)
  | CB BInt => ret (VInt 0)
  | CB BBool => ret (VBool false)
  | CB BStr => ret (VStr "")
  | CB BTime => ret (VTime (mktime 0 0 0 0))
  | CB _ => raise TypeError
  | CL _ =>
      ancestors <- reads (fun h => mro h c) ;;
      if bool_decide (CB BType ∈ ancestors) then raise TypeError
      else if bool_decide (CB BList ∈ ancestors)
      then l <- alloc (HObj c ∅ (PList [])) ;; ret (VRef l)
      else if bool_decide (CB BDict ∈ ancestors)
      then l <- alloc (HObj c ∅ (PDict [])) ;; ret (VRef l)
      else l <- alloc (HObj c ∅ PObject) ;; ret (VRef l)
  end.

(** [obj_type() if inspect.isclass(obj_type) else type(obj_type)()] *)
Definition new_instance (obj_type : value) : M value :=
  c <- reads (fun h => type_class h obj_type) ;;
  instantiate c.

(** *** Containers *)

(** Equality of two values as [==] and dict keys see it: by value on
    scalars ([True == 1]), by identity on objects. *)
Definition val_eqb (a b : value) : bool :=
  match a, b with
  | VBool x, VInt z | VInt z, VBool x => Z.eqb z (if x then 1 else 0)
  | _, _ => bool_decide (a = b)
  end.

Fixpoint is_substring (sub s : string) : bool :=
  String.prefix sub s ||
  match s with
  | EmptyString => false
  | String _ s' => is_substring sub s'
  end.

Definition payload_of (h : heap) (v : value) : option payload :=
  match v with
  | VRef l => match h !! l with Some (HObj _ _ p) => Some p | _ => None end
  | _ => None
  end.

Definition assoc (k : value) (items : list (value * value)) : option value :=
  snd <$> find (fun kv => val_eqb k (fst kv)) items.

(** [d[k] = v] on the items of a dict: an existing key keeps its place. *)
Fixpoint assoc_set (k v : value) (items : list (value * value)) : list (value * value) :=
  match items with
  | [] => [(k, v)]
  | (k', v') :: rest =>
      if val_eqb k k' then (k', v) :: rest else (k', v') :: assoc_set k v rest
  end.

Definition hashable (h : heap) (v : value) : bool :=
  match payload_of h v with
  | Some (PList _) | Some (PDict _) => false
  | _ => true
  end.

(** [x in container] *)
Definition py_contains (h : heap) (container x : value) : res bool :=
  match container with
  | VStr s => match x with
              | VStr sub => Ok (is_substring sub s)
              | _ => Raise TypeError
              end
  | _ =>
      match payload_of h container with
      | Some (PDict items) =>
          if hashable h x then Ok (existsb (fun kv => val_eqb x (fst kv)) items)
          else Raise TypeError
      | Some (PList items) => Ok (existsb (val_eqb x) items)
      | _ => Raise TypeError
      end
  end.

(** A value usable as a list index. *)
Definition index_of (key : value) : option Z :=
  match key with
  | VInt z => Some z
  | VBool b => Some (if b then 1 else 0)
  | _ => None
  end.

(** [container[key]] *)
Definition py_getitem (h : heap) (container key : value) : res value :=
  match payload_of h container with
  | Some (PDict items) =>
      if hashable h key then
        match assoc key items with
        | Some v => Ok v
        | None => Raise KeyError
        end
      else Raise TypeError
  | Some (PList items) =>
      match index_of key with
      | Some z =>
          let n := Z.of_nat (List.length items) in
          let i := if Z.ltb z 0 then z + n else z in
          if Z.leb 0 i && Z.ltb i n
          then match items !! Z.to_nat i with
               | Some v => Ok v
               | None => Raise IndexError
               end
          else Raise IndexError
      | None => Raise TypeError
      end
  | _ => Raise TypeError
  end.

(** [container[key] = v] *)
Definition py_setitem (container key v : value) : M unit :=
  fun h =>
    match container with
    | VRef l =>
        match h !! l with
        | Some (HObj c attrs (PDict items)) =>
            if hashable h key
            then store l (HObj c attrs (PDict (assoc_set key v items))) h
            else Raise TypeError
        | Some (HObj c attrs (PList items)) =>
            match index_of key with
            | Some z =>
                let n := Z.of_nat (List.length items) in
                let i := if Z.ltb z 0 then z + n else z in
                if Z.leb 0 i && Z.ltb i n
                then store l (HObj c attrs (PList (<[Z.to_nat i := v]> items))) h
                else Raise IndexError
            | None => Raise TypeError
            end
        | _ => Raise TypeError
        end
    | _ => Raise TypeError
    end.

(** Does the class, or one of its ancestors, derive from built-in [b]? *)
Definition derives_from (h : heap) (v : value) (b : builtin) : bool :=
  match as_class h v with
  | Some c => bool_decide (CB b ∈ mro h c)
  | None => false
  end.

(** [target.append]: a list has the method, a class derived from [list]
    has the unbound [list.append], other values have no such attribute. *)
Definition append_lookup (h : heap) (target : value) : res unit :=
  match payload_of h target with
  | Some (PList _) => Ok tt
  | _ => if derives_from h target BList then Ok tt else Raise AttributeError
  end.

(** The call of what [target.append] gave: a list appends [v], the call of
    the unbound method fails. *)
Definition append_call (target v : value) : M unit :=
  fun h =>
    match target with
    | VRef l =>
        match h !! l with
        | Some (HObj c attrs (PList items)) =>
            store l (HObj c attrs (PList (items ++ [v]))) h
        | _ => Raise TypeError
        end
    | _ => Raise TypeError
    end.

(** [v.items()] of Python 2: a new list of the pairs. *)
Definition py_items (h : heap) (v : value) : res (list (value * value)) :=
  match payload_of h v with
  | Some (PDict items) => Ok items
  | _ => if derives_from h v BDict then Raise TypeError else Raise AttributeError
  end.

(** [len(v)] of a list. *)
Definition list_len (h : heap) (v : value) : nat :=
  match payload_of h v with
  | Some (PList items) => List.length items
  | _ => 0%nat
  end.

Definition char_at (s : string) (i : nat) : option value :=
  (fun a => VStr (String a EmptyString)) <$> String.get i s.

(** The [i]-th step of [for item in v]: the next item, or [None] when the
    traversal is over.  A list is read where it stands, so items appended
    during the traversal are met later on. *)
Definition py_iter_at (h : heap) (v : value) (i : nat) : res (option value) :=
  match v with
  | VStr s => Ok (char_at s i)
  | _ =>
      match payload_of h v with
      | Some (PList items) => Ok (items !! i)
      | Some (PDict items) => Ok (items.*1 !! i)
      | _ => Raise TypeError
      end
  end.

(** [for item in v: body(item)] *)
Fixpoint for_each (fuel : nat) (v : value) (body : value -> M unit) (i : nat) : M unit :=
  match fuel with
  | O => raise OutOfFuel
  | S fuel' =>
      x <- readr (fun h => py_iter_at h v i) ;;
      match x with
      | None => ret tt
      | Some item => body item ;;; for_each fuel' v body (S i)
      end
  end.

(** A loop over a list that was computed before the loop. *)
Fixpoint for_list {A} (l : list A) (body : A -> M unit) : M unit :=
  match l with
  | [] => ret tt
  | x :: l' => body x ;;; for_list l' body
  end.

(** ** Dates and times

    [isoformat], [strftime] and [strptime] of the [datetime] module, on
    naive values, for the three formats the converters use. *)

Definition digit_char (d : Z) : ascii := ascii_of_nat (48 + Z.to_nat d).

(** [n] decimal digits of [z]: the ["%0nd"] of a field that fits. *)
Fixpoint zpad (n : nat) (z : Z) : string :=
  match n with
  | O => ""
  | S n' => (zpad n' (z / 10) ++ String (digit_char (z mod 10)) "")%string
  end.

Definition date_isoformat (d : date) : string :=
  (zpad 4 (d_year d) ++ "-" ++ zpad 2 (d_month d) ++ "-" ++ zpad 2 (d_day d))%string.

Definition time_hms (t : time) : string :=
  (zpad 2 (t_hour t) ++ ":" ++ zpad 2 (t_minute t) ++ ":" ++ zpad 2 (t_second t))%string.

(** [isoformat] leaves the microseconds out when they are zero. *)
Definition time_isoformat (t : time) : string :=
  if Z.eqb (t_micro t) 0 then time_hms t
  else (time_hms t ++ "." ++ zpad 6 (t_micro t))%string.

Definition datetime_isoformat (sep : string) (dt : datetime) : string :=
  (date_isoformat (dt_date dt) ++ sep ++ time_isoformat (dt_time dt))%string.

(** [t.strftime("%H:%M:%S.%f")] *)
Definition time_strftime (t : time) : string :=
  (time_hms t ++ "." ++ zpad 6 (t_micro t))%string.

Definition is_temporal_class (v : value) : bool :=
  match v with
  | VCls BDate | VCls BDateTime | VCls BTime => true
  | _ => false
  end.

(** [obj.isoformat()] *)
Definition py_isoformat (obj : value) : res string :=
  match obj with
  | VDate d => Ok (date_isoformat d)
  | VDateTime dt => Ok (datetime_isoformat "T" dt)
  | VTime t => Ok (time_isoformat t)
  | _ => if is_temporal_class obj then Raise TypeError else Raise AttributeError
  end.

(** [obj.strftime("%H:%M:%S.%f")]; Python 2 refuses years before 1900. *)
Definition py_strftime (obj : value) : res string :=
  match obj with
  | VTime t => Ok (time_strftime t)
  | VDate d =>
      if Z.leb 1900 (d_year d) then Ok (time_strftime (mktime 0 0 0 0))
      else Raise ValueError
  | VDateTime dt =>
      if Z.leb 1900 (d_year (dt_date dt)) then Ok (time_strftime (dt_time dt))
      else Raise ValueError
  | _ => if is_temporal_class obj then Raise TypeError else Raise AttributeError
  end.

(** *** [strptime] *)

Definition is_digit (a : ascii) : bool :=
  let n := nat_of_ascii a in (48 <=? n)%nat && (n <=? 57)%nat.

Definition digit_val (a : ascii) : Z := Z.of_nat (nat_of_ascii a) - 48.

Definition lower (a : ascii) : ascii :=
  let n := nat_of_ascii a in
  if (65 <=? n)%nat && (n <=? 90)%nat then ascii_of_nat (n + 32) else a.

(** One alternative of a directive's regular expression: the value it
    reads and the rest of the text. *)
Definition alt := string -> option (Z * string).

Definition d1 (p : Z -> bool) : alt := fun s =>
  match s with
  | String a rest =>
      if is_digit a && p (digit_val a) then Some (digit_val a, rest) else None
  | _ => None
  end.

Definition d2 (p q : Z -> bool) : alt := fun s =>
  match s with
  | String a (String b rest) =>
      if is_digit a && p (digit_val a) && is_digit b && q (digit_val b)
      then Some (10 * digit_val a + digit_val b, rest) else None
  | _ => None
  end.

Definition sp_d1 (p : Z -> bool) : alt := fun s =>
  match s with
  | String " " rest => d1 p rest
  | _ => None
  end.

(** Exactly [k] digits, read as the leading digits of a [width]-digit number. *)
Fixpoint take_digits (k : nat) (acc : Z) (s : string) : option (Z * string) :=
  match k with
  | O => Some (acc, s)
  | S k' =>
      match s with
      | String a rest =>
          if is_digit a then take_digits k' (10 * acc + digit_val a) rest else None
      | _ => None
      end
  end.

Definition fraction (k : nat) : alt := fun s =>
  match take_digits k 0 s with
  | Some (v, rest) => Some (v * 10 ^ Z.of_nat (6 - k), rest)
  | None => None
  end.

Inductive directive := DY | Dm | Dd | DH | DM | DS | Df.

Definition any (_ : Z) : bool := true.
Definition upto (n : Z) (z : Z) : bool := Z.leb z n.
Definition exactly (n : Z) (z : Z) : bool := Z.eqb z n.
Definition within (a b : Z) (z : Z) : bool := Z.leb a z && Z.leb z b.

(** The alternatives of each directive, in the order [_strptime.TimeRE]
    lists them. *)
Definition alternatives (d : directive) : list alt :=
  match d with
  | DY => [take_digits 4 0]
  | Dm => [d2 (exactly 1) (upto 2); d2 (exactly 0) (within 1 9); d1 (within 1 9)]
  | Dd => [d2 (exactly 3) (upto 1); d2 (within 1 2) any; d2 (exactly 0) (within 1 9);
           d1 (within 1 9); sp_d1 (within 1 9)]
  | DH => [d2 (exactly 2) (upto 3); d2 (upto 1) any; d1 any]
  | DM => [d2 (upto 5) any; d1 any]
  | DS => [d2 (exactly 6) (upto 1); d2 (upto 5) any; d1 any]
  | Df => [fraction 6; fraction 5; fraction 4; fraction 3; fraction 2; fraction 1]
  end.

Record tm := mktm { tm_Y : Z; tm_m : Z; tm_d : Z; tm_H : Z; tm_M : Z; tm_S : Z; tm_f : Z }.

Definition tm_default : tm := mktm 1900 1 1 0 0 0 0.

Definition tm_set (d : directive) (z : Z) (t : tm) : tm :=
  match d with
  | DY => mktm z (tm_m t) (tm_d t) (tm_H t) (tm_M t) (tm_S t) (tm_f t)
  | Dm => mktm (tm_Y t) z (tm_d t) (tm_H t) (tm_M t) (tm_S t) (tm_f t)
  | Dd => mktm (tm_Y t) (tm_m t) z (tm_H t) (tm_M t) (tm_S t) (tm_f t)
  | DH => mktm (tm_Y t) (tm_m t) (tm_d t) z (tm_M t) (tm_S t) (tm_f t)
  | DM => mktm (tm_Y t) (tm_m t) (tm_d t) (tm_H t) z (tm_S t) (tm_f t)
  | DS => mktm (tm_Y t) (tm_m t) (tm_d t) (tm_H t) (tm_M t) z (tm_f t)
  | Df => mktm (tm_Y t) (tm_m t) (tm_d t) (tm_H t) (tm_M t) (tm_S t) z
  end.

Inductive pitem :=
| PDir (d : directive)
| PLit (a : ascii).

(** The alternatives of one directive at the head of the text [s], tried
    in order; [k] matches the rest of the pattern, and an alternative is
    given up when [k] fails on what it leaves. *)
Fixpoint try_alts (k : Z -> string -> option (tm * string)) (s : string)
    (alts : list alt) : option (tm * string) :=
  match alts with
  | [] => None
  | f :: alts' =>
      match f s with
      | Some (z, rest) =>
          match k z rest with
          | Some r => Some r
          | None => try_alts k s alts'
          end
      | None => try_alts k s alts'
      end
  end.

(** The first match of the pattern at the head of the text, as [re.match]
    finds it; letters match without regard to case. *)
Fixpoint rmatch (pat : list pitem) (s : string) (acc : tm) : option (tm * string) :=
  match pat with
  | [] => Some (acc, s)
  | PLit a :: pat' =>
      match s with
      | String c rest =>
          if bool_decide (lower a = lower c) then rmatch pat' rest acc else None
      | _ => None
      end
  | PDir d :: pat' =>
      try_alts (fun z rest => rmatch pat' rest (tm_set d z acc)) s (alternatives d)
  end.

Definition is_leap (y : Z) : bool :=
  Z.eqb (y mod 4) 0 && (negb (Z.eqb (y mod 100) 0) || Z.eqb (y mod 400) 0).

Definition days_in_month (y m : Z) : Z :=
  if Z.eqb m 2 then (if is_leap y then 29 else 28)
  else if Z.eqb m 4 || Z.eqb m 6 || Z.eqb m 9 || Z.eqb m 11 then 30
  else 31.

Definition valid_date (d : date) : bool :=
  within 1 9999 (d_year d) && within 1 12 (d_month d) &&
  within 1 (days_in_month (d_year d) (d_month d)) (d_day d).

Definition valid_time (t : time) : bool :=
  within 0 23 (t_hour t) && within 0 59 (t_minute t) &&
  within 0 59 (t_second t) && within 0 999999 (t_micro t).

(** [datetime.datetime.strptime(text, format)]: the text must match the
    pattern, nothing may remain, and the fields must make a [datetime]. *)
Definition strptime (fmt : list pitem) (text : string) : res datetime :=
  match rmatch fmt text tm_default with
  | Some (t, "") =>
      let dt := mkdatetime (mkdate (tm_Y t) (tm_m t) (tm_d t))
                           (mktime (tm_H t) (tm_M t) (tm_S t) (tm_f t)) in
      if valid_date (dt_date dt) && valid_time (dt_time dt) then Ok dt
      else Raise ValueError
  | _ => Raise ValueError
  end.

(** ["%Y-%m-%d"], ["%Y-%m-%dT%H:%M:%S.%f"] and ["%H:%M:%S.%f"] *)
Definition fmt_date : list pitem :=
  [PDir DY; PLit "-"; PDir Dm; PLit "-"; PDir Dd].
Definition fmt_time : list pitem :=
  [PDir DH; PLit ":"; PDir DM; PLit ":"; PDir DS; PLit "."; PDir Df].
Definition fmt_datetime : list pitem :=
  fmt_date ++ [PLit "T"] ++ fmt_time.

(** [str(value)] for the values whose text can match one of the patterns:
    the text of any other value of the model starts with a letter, a
    bracket or a sign, or has no separator, and is refused by [strptime]. *)
Definition py_text (v : value) : option string :=
  match v with
  | VStr s => Some s
  | VDate d => Some (date_isoformat d)
  | VDateTime dt => Some (datetime_isoformat " " dt)
  | VTime t => Some (time_isoformat t)
  | _ => None
  end.

Definition parse (fmt : list pitem) (v : value) : res datetime :=
  match py_text v with
  | Some s => strptime fmt s
  | None => Raise ValueError
  end.

(** ** The temporal converters *)

Definition rbind {A B} (r : res A) (f : A -> res B) : res B :=
  match r with Ok a => f a | Raise e => Raise e end.

(** The call [obj.replace(...)] that the [to_obj] of converter [i] makes
    with the fields of the parsed value [dt].  [replace] builds a new value
    and leaves [obj] as it is; the converters drop the result, so only
    whether the call raises is of interest:
    - [DateConverter] passes year, month, day: a [time] reads them as hour,
      minute, second;
    - [DateTimeConverter] passes eight arguments, [TimeConverter] five, which
      only a [datetime], resp. a [time], accepts;
    - [str.replace] and the unbound methods of the temporal types refuse the
      arguments; other values have no [replace]. *)
Definition py_replace (i : conv_impl) (obj : value) (dt : datetime) : res unit :=
  match i, obj with
  | IDate, VDate _ | IDate, VDateTime _ => Ok tt
  | IDate, VTime _ =>
      if within 0 23 (d_year (dt_date dt)) then Ok tt else Raise ValueError
  | IDateTime, VDateTime _ => Ok tt
  | ITime, VTime _ => Ok tt
  | _, VDate _ | _, VDateTime _ | _, VTime _ | _, VStr _ | _, VCls BStr => Raise TypeError
  | _, _ => if is_temporal_class obj then Raise TypeError else Raise AttributeError
  end.

Definition DateConverter_to_flat (obj : value) : res value :=
  if is_none obj then Ok VNone
  else rbind (py_isoformat obj) (fun s => Ok (VStr s)).

Definition DateConverter_to_obj (val obj : value) : res value :=
  if is_none val then Ok VNone
  else if is_none obj then
    rbind (parse fmt_date val) (fun dt => Ok (VDate (dt_date dt)))
  else
    rbind (parse fmt_date val) (fun dt =>
    rbind (py_replace IDate obj dt) (fun _ =>
    Ok obj)).

Definition DateTimeConverter_to_flat (obj : value) : res value :=
  if is_none obj then Ok VNone
  else rbind (py_isoformat obj) (fun s => Ok (VStr s)).

Definition DateTimeConverter_to_obj (val obj : value) : res value :=
  if is_none val then Ok VNone
  else if is_none obj then
    rbind (parse fmt_datetime val) (fun dt => Ok (VDateTime dt))
  else
    rbind (parse fmt_datetime val) (fun dt =>
    rbind (py_replace IDateTime obj dt) (fun _ =>
    Ok obj)).

Definition TimeConverter_to_flat (obj : value) : res value :=
  if is_none obj then Ok VNone
  else rbind (py_strftime obj) (fun s => Ok (VStr s)).

Definition TimeConverter_to_obj (val obj : value) : res value :=
  if is_none val then Ok VNone
  else if is_none obj then
    rbind (parse fmt_time val) (fun dt => Ok (VTime (dt_time dt)))
  else
    rbind (parse fmt_time val) (fun dt =>
    rbind (py_replace ITime obj dt) (fun _ =>
    Ok obj)).

(** ** The converter registry: [ConvertManager._convert_dict] *)

Record entry := mkentry {
  e_key : value;      (* the type the converter is registered for *)
  e_conv : value;     (* ['conv'] *)
  e_exact : bool      (* ['exact'] *)
}.

(** The dict is traversed in an order that Python 2 does not specify but
    keeps from one traversal to the next: the order of the list. *)
Abbreviation registry := (list entry).

Definition default_registry : registry :=
  [ mkentry (VCls BDate) (VRef L_DateConverter) true;
    mkentry (VCls BDateTime) (VRef L_DateTimeConverter) true;
    mkentry (VCls BTime) (VRef L_TimeConverter) true;
    mkentry (VRef L_Schema) (VRef L_SchemaConverter) false;
    mkentry (VRef L_TypedDict) (VRef L_TypedDictConverter) true;
    mkentry (VCls BDict) (VRef L_TypedDictConverter) true;
    mkentry (VRef L_TypedList) (VRef L_TypedListConverter) true;
    mkentry (VCls BList) (VRef L_TypedListConverter) true ].

(** [str(type)] of a registry key, where it can be the printed form of a
    class: the key is a class, or a string. *)
Definition key_str (h : heap) (k : value) : option string :=
  match k with
  | VStr s => Some s
  | _ => as_class h k ≫= cref_str h
  end.

(** [str(obj_type_class) == str(type)] *)
Definition exact_match (h : heap) (c : cref) (e : entry) : bool :=
  match cref_str h c, key_str h (e_key e) with
  | Some a, Some b => String.eqb a b
  | _, _ => false
  end.

(** The second loop: the first entry with [exact == False] whose key
    [issubclass] accepts; [issubclass] raises when the key is no class. *)
Fixpoint subtype_scan (h : heap) (c : cref) (reg : registry) : res (option entry) :=
  match reg with
  | [] => Ok None
  | e :: reg' =>
      if e_exact e then subtype_scan h c reg'
      else match as_class h (e_key e) with
           | None => Raise TypeError
           | Some k =>
               match issubclass h c k with
               | Raise x => Raise x
               | Ok true => Ok (Some e)
               | Ok false => subtype_scan h c reg'
               end
           end
  end.

(** The two loops shared by [to_flat], [to_obj] and [check_type] of
    [ConvertManager]: the entry whose converter is called, if any. *)
Definition resolve (h : heap) (reg : registry) (c : cref) : res (option entry) :=
  match find (exact_match h c) reg with
  | Some e => Ok (Some e)
  | None => subtype_scan h c reg
  end.

(** [conv.name]: the function of the module that the attribute [name] of
    the converter is, looked up through the converter's ancestors. *)
Definition conv_method (h : heap) (conv : value) (name : string) (m : conv_meth)
  : res conv_impl :=
  match py_getattr h conv name with
  | None => Raise AttributeError
  | Some (VMethod (FConv i m')) => if decide (m' = m) then Ok i else Raise Opaque
  | Some (VMethod (FUser _)) | Some (VFunc _) => Raise Opaque
  | Some _ => Raise TypeError
  end.

(** ** Type checks *)

(** [_check_type(val, type)] *)
Definition _check_type (h : heap) (val type : value) : res unit :=
  if is_none type || is_none val || class_eq h type (VCls BNoneType) then Ok tt
  else
    let type := type_class h type in
    rbind (isinstance h val type) (fun b =>
    if negb b then Raise TypeError else Ok tt).

(** [SchemaConverter.check_type] *)
Definition SchemaConverter_check_type (h : heap) (attr_type attr_value : value) : res unit :=
  let attr_type := type_class h attr_type in
  rbind (issubclass h (class_of h attr_value) attr_type) (fun b =>
  if negb b then Raise TypeError else Ok tt).

(** [TypedListConverter.check_type] and [TypedDictConverter.check_type],
    which differ in the built-in type [b] they accept: [list], resp. [dict]. *)
Definition container_check_type (b : builtin) (h : heap) (attr_type attr_value : value)
  : res unit :=
  let attr_type := type_class h attr_type in
  rbind (issubclass h (class_of h attr_value) attr_type) (fun b1 =>
  rbind (if b1 then Ok true else issubclass h (class_of h attr_value) (CB b)) (fun b2 =>
  let b3 := b2 || class_eq h (cref_val (class_of h attr_value)) (VCls BNoneType) in
  if negb b3 then Raise TypeError else Ok tt)).

Definition TypedListConverter_check_type := container_check_type BList.
Definition TypedDictConverter_check_type := container_check_type BDict.

(** [conv.check_type(attr_type, attr_value, cm)] for the converter classes
    of the module: [Converter.check_type] is [pass], and the three temporal
    converters inherit it. *)
Definition check_type_impl (i : conv_impl) (h : heap) (attr_type attr_value : value)
  : res unit :=
  match i with
  | IBase | IDate | IDateTime | ITime => Ok tt
  | ISchema => SchemaConverter_check_type h attr_type attr_value
  | ITypedList => TypedListConverter_check_type h attr_type attr_value
  | ITypedDict => TypedDictConverter_check_type h attr_type attr_value
  end.

(** [ConvertManager.check_type(attr_type, attr_value)] *)
Definition cm_check_type (h : heap) (reg : registry) (attr_type attr_value : value)
  : res unit :=
  if truthy h attr_type then
    let attr_type_class := type_class h attr_type in
    rbind (resolve h reg attr_type_class) (fun r =>
    match r with
    | Some e =>
        rbind (conv_method h (e_conv e) "check_type" MCheck) (fun i =>
        check_type_impl i h attr_type attr_value)
    | None => _check_type h attr_value (cref_val attr_type_class)
    end)
  else _check_type h attr_value attr_type.

(** The module-level [check_type(attr_type, attr_value, cm)] *)
Definition check_type (reg : registry) (attr_type attr_value : value) : M unit :=
  readr (fun h => cm_check_type h reg attr_type attr_value).

(** ** The converters of records and of typed containers *)

Definition getattr (obj : value) (name : string) : M value :=
  readr (fun h => match py_getattr h obj name with
                  | Some v => Ok v
                  | None => Raise AttributeError
                  end).

(** [val] if it is given, a new empty container of built-in type [b] if not. *)
Definition flat_target (b : builtin) (val : value) : M value :=
  if is_none val then instantiate (CB b) else ret val.

(** [obj] if it is given, a new instance of [obj_type] if not. *)
Definition obj_target (obj_type obj : value) : M value :=
  if is_none obj then new_instance obj_type else ret obj.

(** [isinstance(obj_type, list)], [isinstance(obj_type, dict)] *)
Definition is_builtin_instance (h : heap) (v : value) (b : builtin) : bool :=
  bool_decide (CB b ∈ mro h (class_of h v)).

(** The element type that [get_sub_type(idx)] of [TypedListConverter] finds,
    if it finds one. *)
Definition list_sub_type (h : heap) (obj_type : value) (idx : nat) : option value :=
  match py_getattr h obj_type "ftype" with
  | Some ftype => Some ftype
  | None =>
      if is_builtin_instance h obj_type BList && (idx <? list_len h obj_type)%nat
      then match py_getitem h obj_type (VInt (Z.of_nat idx)) with
           | Ok t => Some t
           | Raise _ => None
           end
      else None
  end.

(** The element type that [get_sub_type(elem)] of [TypedDictConverter]
    finds, if it finds one; [elem in obj_type] raises for a key that cannot
    be hashed. *)
Definition dict_sub_type (h : heap) (obj_type elem : value) : res (option value) :=
  match py_getattr h obj_type "ftype" with
  | Some ftype => Ok (Some ftype)
  | None =>
      if is_builtin_instance h obj_type BDict then
        rbind (py_contains h obj_type elem) (fun c =>
        if c then rbind (py_getitem h obj_type elem) (fun t => Ok (Some t))
        else Ok None)
      else Ok None
  end.

(** During flattening an element type that is not found is [None]. *)
Definition flat_sub_type (r : res (option value)) : res value :=
  rbind r (fun o => Ok (match o with Some t => t | None => VNone end)).

(** During unflattening it is an error:
    [raise Exception('Can\'t guess type associated with: "' + v + '"')],
    where the concatenation itself raises TypeError unless [v] is a string. *)
Definition obj_sub_type (r : res (option value)) (v : value) : res value :=
  rbind r (fun o =>
  match o with
  | Some t => Ok t
  | None => match v with
            | VStr _ => Raise PlainException
            | _ => Raise TypeError
            end
  end).

Section Converters.

Variable reg : registry.
(** The fuel of the list traversals. *)
Variable fuel : nat.
(** [flatit(obj, obj_type, val, cm)] and [unflatit(val, obj_type, obj, cm)],
    through which alone the converters reach each other. *)
Variable flatit : value -> value -> value -> M value.
Variable unflatit : value -> value -> value -> M value.

(** [SchemaConverter.to_flat] *)
Definition SchemaConverter_to_flat (obj_type obj val : value) : M value :=
  if is_none obj then ret VNone
  else
    flat_dict <- flat_target BDict val ;;
    names <- reads (fun h => py_dir h obj_type) ;;
    for_list names (fun attr_name =>
      has <- reads (fun h => py_hasattr h obj attr_name) ;;
      if has : bool then
        attr_value <- getattr obj attr_name ;;
        attr_type <- getattr obj_type attr_name ;;
        if negb (String.prefix "__" attr_name) && negb (ismethod attr_value) then
          (* set None if types are still present in the object *)
          attr_value <- reads (fun h =>
            if class_eq h attr_value attr_type && isclass h attr_value
            then VNone else attr_value) ;;
          check_type reg attr_type attr_value ;;;
          present <- readr (fun h => py_contains h flat_dict (VStr attr_name)) ;;
          sub_val <- (if present : bool
                      then readr (fun h => py_getitem h flat_dict (VStr attr_name))
                      else ret VNone) ;;
          attr_value <- flatit attr_value attr_type sub_val ;;
          py_setitem flat_dict (VStr attr_name) attr_value
        else ret tt
      else ret tt) ;;;
    ret flat_dict.

(** The body of the loop of [SchemaConverter.to_obj], for one name of
    [dir(obj_type)]. *)
Definition SchemaConverter_to_obj_attr (obj_type val cls_obj : value)
    (attr_name : string) : M unit :=
  attr_type <- getattr obj_type attr_name ;;
  if negb (String.prefix "__" attr_name) && negb (ismethod attr_type) then
    (* set attr the value of the flat_dict if exists *)
    present <- readr (fun h => py_contains h val (VStr attr_name)) ;;
    if present : bool then
      flat_val <- readr (fun h => py_getitem h val (VStr attr_name)) ;;
      sub_obj <- reads (fun h => match py_getattr h cls_obj attr_name with
                                 | Some v => v
                                 | None => VNone
                                 end) ;;
      conv_attr_value <- unflatit flat_val attr_type sub_obj ;;
      check_type reg attr_type conv_attr_value ;;;
      py_setattr cls_obj attr_name conv_attr_value
    else ret tt
  else ret tt.

(** [SchemaConverter.to_obj] *)
Definition SchemaConverter_to_obj (obj_type val obj : value) : M value :=
  if is_none val then ret VNone
  else
    cls_obj <- obj_target obj_type obj ;;
    names <- reads (fun h => py_dir h obj_type) ;;
    (* iterate all attributes *)
    for_list names (SchemaConverter_to_obj_attr obj_type val cls_obj) ;;;
    ret cls_obj.

(** [TypedListConverter.to_flat]: every item is looked up at index 0. *)
Definition TypedListConverter_to_flat (obj_type obj val : value) : M value :=
  if is_none obj then ret VNone
  else
    flat_list <- flat_target BList val ;;
    let get_sub_type idx :=
      readr (fun h => flat_sub_type (Ok (list_sub_type h obj_type idx))) in
    check_type reg obj_type obj ;;;
    for_each fuel obj (fun item =>
      sub_type <- get_sub_type 0%nat ;;
      check_type reg sub_type item ;;;
      readr (fun h => append_lookup h flat_list) ;;;
      sub_type <- get_sub_type 0%nat ;;
      flat_item <- flatit item sub_type VNone ;;
      append_call flat_list flat_item) 0 ;;;
    ret flat_list.

(** [TypedListConverter.to_obj] *)
Definition TypedListConverter_to_obj (obj_type val obj : value) : M value :=
  if is_none val then ret VNone
  else
    cls_obj <- obj_target obj_type obj ;;
    let get_sub_type idx v :=
      readr (fun h => obj_sub_type (Ok (list_sub_type h obj_type idx)) v) in
    for_each fuel val (fun item =>
      sub_type <- get_sub_type 0%nat item ;;
      ret_item <- unflatit item sub_type VNone ;;
      sub_type <- get_sub_type 0%nat item ;;
      check_type reg sub_type ret_item ;;;
      readr (fun h => append_lookup h cls_obj) ;;;
      append_call cls_obj ret_item) 0 ;;;
    ret cls_obj.

(** [TypedDictConverter.to_flat] *)
Definition TypedDictConverter_to_flat (obj_type obj val : value) : M value :=
  if is_none obj then ret VNone
  else
    flat_dict <- flat_target BDict val ;;
    let get_sub_type elem :=
      readr (fun h => flat_sub_type (dict_sub_type h obj_type elem)) in
    check_type reg obj_type obj ;;;
    items <- readr (fun h => py_items h obj) ;;
    for_list items (fun '(k, v) =>
      sub_type <- get_sub_type k ;;
      check_type reg sub_type v ;;;
      present <- readr (fun h => py_contains h flat_dict k) ;;
      sub_val <- (if present : bool
                  then readr (fun h => py_getitem h flat_dict k)
                  else ret VNone) ;;
      sub_type <- get_sub_type k ;;
      flat_v <- flatit v sub_type sub_val ;;
      py_setitem flat_dict k flat_v) ;;;
    ret flat_dict.

(** [TypedDictConverter.to_obj] *)
Definition TypedDictConverter_to_obj (obj_type val obj : value) : M value :=
  if is_none val then ret VNone
  else
    cls_obj <- obj_target obj_type obj ;;
    let get_sub_type elem v :=
      readr (fun h => obj_sub_type (dict_sub_type h obj_type elem) v) in
    items <- readr (fun h => py_items h val) ;;
    for_list items (fun '(k, v) =>
      has <- readr (fun h => py_hasattr_val h cls_obj k) ;;
      sub_obj <- (if has : bool
                  then match k with
                       | VStr name => getattr cls_obj name
                       | _ => raise TypeError
                       end
                  else ret VNone) ;;
      sub_type <- get_sub_type k v ;;
      ret_v <- unflatit v sub_type sub_obj ;;
      sub_type <- get_sub_type k v ;;
      check_type reg sub_type ret_v ;;;
      py_setitem cls_obj k ret_v) ;;;
    ret cls_obj.

(** [conv.to_flat(obj_type, obj, val, cm)] *)
Definition to_flat_impl (i : conv_impl) (obj_type obj val : value) : M value :=
  match i with
  | IBase => raise NotImplementedError
  | IDate => lift (DateConverter_to_flat obj)
  | IDateTime => lift (DateTimeConverter_to_flat obj)
  | ITime => lift (TimeConverter_to_flat obj)
  | ISchema => SchemaConverter_to_flat obj_type obj val
  | ITypedList => TypedListConverter_to_flat obj_type obj val
  | ITypedDict => TypedDictConverter_to_flat obj_type obj val
  end.

(** [conv.to_obj(obj_type, val, obj, cm)] *)
Definition to_obj_impl (i : conv_impl) (obj_type val obj : value) : M value :=
  match i with
  | IBase => raise NotImplementedError
  | IDate => lift (DateConverter_to_obj val obj)
  | IDateTime => lift (DateTimeConverter_to_obj val obj)
  | ITime => lift (TimeConverter_to_obj val obj)
  | ISchema => SchemaConverter_to_obj obj_type val obj
  | ITypedList => TypedListConverter_to_obj obj_type val obj
  | ITypedDict => TypedDictConverter_to_obj obj_type val obj
  end.

(** [ConvertManager.to_flat(obj_type, obj, val)] *)
Definition cm_to_flat (obj_type obj val : value) : M value :=
  r <- readr (fun h => resolve h reg (type_class h obj_type)) ;;
  match r with
  | Some e =>
      i <- readr (fun h => conv_method h (e_conv e) "to_flat" MFlat) ;;
      to_flat_impl i obj_type obj val
  | None => ret obj
  end.

(** [ConvertManager.to_obj(obj_type, val, obj)] *)
Definition cm_to_obj (obj_type val obj : value) : M value :=
  r <- readr (fun h => resolve h reg (type_class h obj_type)) ;;
  match r with
  | Some e =>
      i <- readr (fun h => conv_method h (e_conv e) "to_obj" MObj) ;;
      to_obj_impl i obj_type val obj
  | None => ret val
  end.

End Converters.

(** ** The entry points

    Each call of [flatit] or [unflatit] uses one unit of fuel, so the fuel
    bounds the depth of the walk; a traversal of a list may take as many
    steps as there is fuel left. *)

Fixpoint flatit (n : nat) (reg : registry) (obj obj_type val : value) : M value :=
  match n with
  | O => raise OutOfFuel
  | S n' =>
      obj_type <- reads (fun h => if is_none obj_type
                                  then cref_val (class_of h obj) else obj_type) ;;
      cm_to_flat reg n (flatit n' reg) obj_type obj val
  end.

Fixpoint unflatit (n : nat) (reg : registry) (val obj_type obj : value) : M value :=
  match n with
  | O => raise OutOfFuel
  | S n' => cm_to_obj reg n (unflatit n' reg) obj_type val obj
  end.

(** ** Typed container types: [BaseFlattyType.set_type] *)

(** [cls.set_type(ftype)]: a new class with the name, the bases (hence the
    ancestors and the metaclass they impose) and the module of [cls], whose
    dictionary holds [ftype] and the method [set_type] of [cls].  The two
    [setattr] on [sys.modules] rebind module globals, which are not part of
    the store. *)
Definition set_type (cls : loc) (ftype : value) : M value :=
  fun h =>
    match h !! cls with
    | Some (HClass k) =>
        let new_cls :=
          mkclass (c_name k) (c_module k) true
                  (existsb (has_meta h) (c_mro k)) (c_mro k)
                  (dict_of [("ftype", ftype); ("set_type", VMethod (FUser "set_type"))]) in
        (l <- alloc (HClass new_cls) ;; ret (VRef l)) h
    | _ => Raise AttributeError
    end.

(** ** Registration: [ConvertManager.set_converter] and [del_converter] *)

(** [d[k] = ...] on the registry: an entry whose key is [k] (same hash and
    equal, that is the same class or an equal scalar) is replaced, else an
    entry is added. *)
Fixpoint reg_set (e : entry) (reg : registry) : registry :=
  match reg with
  | [] => [e]
  | e' :: reg' =>
      if val_eqb (e_key e) (e_key e')
      then mkentry (e_key e') (e_conv e) (e_exact e) :: reg'
      else e' :: reg_set e reg'
  end.

(** [d[k]], if [k in d]. *)
Definition reg_get (k : value) (reg : registry) : option entry :=
  find (fun e => val_eqb k (e_key e)) reg.

(** The outcome of the call and the registry after it. *)
Definition set_converter (h : heap) (reg : registry)
    (conv_type converter : value) (exact : bool) : res unit * registry :=
  if isclass h converter &&
     match as_class h converter with
     | Some c => bool_decide (CL L_Converter ∈ mro h c)
     | None => false
     end
  then
    if hashable h conv_type
    then (Ok tt, reg_set (mkentry conv_type converter exact) reg)
    else (Raise TypeError, reg)
  else (Raise TypeError, reg).

Definition del_converter (h : heap) (reg : registry) (conv_type : value)
  : res unit * registry :=
  if hashable h conv_type
  then (Ok tt, filter (fun e => val_eqb conv_type (e_key e) = false) reg)
  else (Raise TypeError, reg).

(** ** The class [Schema] *)

(** [Schema.__init__(self, **kwargs)]; [kwargs] lists the items of the
    keyword dictionary in the order [kwargs.items()] gives them. *)
Definition Schema_init (self : value) (kwargs : list (string * value)) : M unit :=
  for_list kwargs (fun '(name, value) =>
    has <- reads (fun h => py_hasattr h self name) ;;
    if has : bool then py_setattr self name value else raise AttributeError).

(** [Schema.flatit(self, cm)]: [flatit(self, cm = cm)] *)
Definition Schema_flatit (n : nat) (reg : registry) (self : value) : M value :=
  flatit n reg self VNone VNone.

(** [Schema.unflatit(cls, flat_dict, cm)]: [unflatit(cls, flat_dict, cm = cm)],
    a call of the function [unflatit(val, obj_type, obj, cm)] of the module. *)
Definition Schema_unflatit (n : nat) (reg : registry) (cls flat_dict : value) : M value :=
  unflatit n reg cls flat_dict VNone.

(** * Vocabulary of the properties *)

(** [k] is a class and [issubclass(c, k)] answers [b]. *)
Definition supertype_test (h : heap) (c : cref) (k : value) (b : bool) : Prop :=
  exists kc, as_class h k = Some kc /\ issubclass h c kc = Ok b.

(** [str(c) == str(k)]: the class [c] and the registry key [k] have one
    printed form, [<class 'module.name'>] or [<type 'name'>]. *)
Definition prints_like (h : heap) (c : cref) (k : value) : Prop :=
  exists s, cref_str h c = Some s /\ key_str h k = Some s.

(** An entry that the second loop passes over. *)
Definition skipped (h : heap) (c : cref) (e : entry) : Prop :=
  e_exact e = true \/ supertype_test h c (e_key e) false.

(** What [ConvertManager.to_flat] and [to_obj] do once entry [e] is chosen. *)
Definition call_to_flat (reg : registry) (n : nat) (rec : value -> value -> value -> M value)
    (e : entry) (obj_type obj val : value) : M value :=
  i <- readr (fun h => conv_method h (e_conv e) "to_flat" MFlat) ;;
  to_flat_impl reg n rec i obj_type obj val.

Definition call_to_obj (reg : registry) (n : nat) (rec : value -> value -> value -> M value)
    (e : entry) (obj_type val obj : value) : M value :=
  i <- readr (fun h => conv_method h (e_conv e) "to_obj" MObj) ;;
  to_obj_impl reg n rec i obj_type val obj.

(** The test of [set_converter]: the converter is a class and [Converter]
    is the class itself or one of its ancestors. *)
Definition is_converter_class (h : heap) (converter : value) : bool :=
  isclass h converter &&
  match as_class h converter with
  | Some c => bool_decide (CL L_Converter ∈ mro h c)
  | None => false
  end.

(** The exception of [get_sub_type(..., v)] when no element type is found. *)
Definition unresolvable (v : value) : exn :=
  match v with VStr _ => PlainException | _ => TypeError end.

(** ** The region a merge may write *)

Section Footprint.

(** [U] marks the locations of a region of the store. *)
Variable U : loc -> bool.

Definition val_in (v : value) : Prop :=
  match v with VRef l => U l = true | _ => True end.

Definition cref_in (c : cref) : Prop :=
  match c with CL l => U l = true | CB _ => True end.

Definition dict_in (d : gmap string value) : Prop :=
  forall name v, d !! name = Some v -> val_in v.

Definition payload_in (p : payload) : Prop :=
  match p with
  | PObject => True
  | PList items => Forall val_in items
  | PDict items => Forall (fun kv => val_in (fst kv) /\ val_in (snd kv)) items
  end.

(** Every reference the object holds leads into the region. *)
Definition obj_in (o : hobj) : Prop :=
  match o with
  | HObj c attrs p => cref_in c /\ dict_in attrs /\ payload_in p
  | HClass k => Forall cref_in (c_mro k) /\ dict_in (c_dict k)
  end.

(** The region is closed: its objects refer to the region only.  It holds
    the metaclass of the module and every location not yet in use. *)
Definition good (h : heap) : Prop :=
  U L_MetaBaseFlattyType = true /\
  (forall l o, h !! l = Some o -> U l = true -> obj_in o) /\
  (forall l, (List.length h <= l)%nat -> U l = true).

(** From [h] to [h'] the store grew and changed inside the region only. *)
Definition ext (h h' : heap) : Prop :=
  (List.length h <= List.length h')%nat /\
  forall l, U l = false -> h' !! l = h !! l.

(** A computation that keeps the region closed, writes inside it only and
    returns a result that satisfies [Q]. *)
Definition safe {A} (Q : A -> Prop) (m : M A) : Prop :=
  forall h a h', good h -> m h = Ok (a, h') -> good h' /\ ext h h' /\ Q a.

End Footprint.

(** [name] is a key of the items of the partial tree. *)
Definition is_key (items : list (value * value)) (name : string) : bool :=
  existsb (fun kv => val_eqb (VStr name) (fst kv)) items.

(** A check of closedness that computes. *)

Definition val_inb (U : loc -> bool) (v : value) : bool :=
  match v with VRef l => U l | _ => true end.

Definition cref_inb (U : loc -> bool) (c : cref) : bool :=
  match c with CL l => U l | CB _ => true end.

Definition dict_inb (U : loc -> bool) (d : gmap string value) : bool :=
  forallb (fun kv => val_inb U (snd kv)) (map_to_list d).

Definition payload_inb (U : loc -> bool) (p : payload) : bool :=
  match p with
  | PObject => true
  | PList items => forallb (val_inb U) items
  | PDict items => forallb (fun kv => val_inb U (fst kv) && val_inb U (snd kv)) items
  end.

Definition obj_inb (U : loc -> bool) (o : hobj) : bool :=
  match o with
  | HObj c attrs p => cref_inb U c && dict_inb U attrs && payload_inb U p
  | HClass k => forallb (cref_inb U) (c_mro k) && dict_inb U (c_dict k)
  end.

Definition closedb (U : loc -> bool) (h : heap) : bool :=
  forallb (fun lo => implb (U (fst lo)) (obj_inb U (snd lo)))
          (zip (seq 0 (List.length h)) h).

(** ** Merging into an existing instance *)

(** The state of the loop of [SchemaConverter.to_obj] that merges the tree
    at [lp] into the instance [e] of class [c]: the region is closed, [e]
    and the tree are in place, and the values [e] holds for the keys of the
    tree lie inside the region. *)
Definition merge_inv (U : loc -> bool) (e lp : loc) (c : cref) (pl : payload)
    (cp : cref) (ap : gmap string value) (items : list (value * value))
    (h : heap) (attrs : gmap string value) : Prop :=
  good U h /\
  h !! e = Some (HObj c attrs pl) /\
  h !! lp = Some (HObj cp ap (PDict items)) /\
  (forall name v, is_key items name = true -> attrs !! name = Some v -> val_in U v).

(** What the pass of the loop of [SchemaConverter.to_obj] for [name] did,
    on the store [h1] it started from: when the attribute [name] of the
    type is no method, it stored on the instance what [unflatit] made of
    the sub-value, with the value the instance held as the object to merge
    into. *)
Definition merge_of (reg : registry) (n : nat) (e : loc) (items : list (value * value))
    (T : value) (h1 : heap) (name : string) (attrs' : gmap string value) : Prop :=
  exists t,
    py_getattr h1 T name = Some t /\
    (ismethod t = false ->
     exists flat h2 v,
       assoc (VStr name) items = Some flat /\
       unflatit n reg flat t (default VNone (py_getattr h1 (VRef e) name)) h1 = Ok (v, h2) /\
       attrs' !! name = Some v).

(** The pass for [name] in the loop over [names] that starts on the store
    [h]: [h1] is the store the loop has reached when it comes to [name]. *)
Definition merged (reg : registry) (n : nat) (e lp : loc) (items : list (value * value))
    (T : value) (names : list string) (h : heap) (name : string)
    (attrs' : gmap string value) : Prop :=
  exists before after h1,
    names = before ++ name :: after /\
    for_list before
      (SchemaConverter_to_obj_attr reg (unflatit n reg) T (VRef lp) (VRef e)) h
      = Ok (tt, h1) /\
    merge_of reg n e items T h1 name attrs'.

(** ** Fuel *)

(** Where [m1] ends without running out of fuel, [m2] does the same. *)
Definition fuel_le {A} (m1 m2 : M A) : Prop :=
  forall h, m1 h <> Raise OutOfFuel -> m2 h = m1 h.

(** ** Example stores *)

(** The classes of the docstrings: [Bar] with [a_num = int], [a_str = str],
    [a_thing = None], and [Foo] with [my_typed_list = TypedList.set_type(Bar)]. *)
Definition L_Bar : loc := 12%nat.
Definition L_TypedList_Bar : loc := 13%nat.
Definition L_Foo : loc := 14%nat.

Definition class_Bar : hobj :=
  HClass (mkclass "Bar" "__main__" true false [CL L_Schema; CB BObject]
            (dict_of [("a_num", VCls BInt); ("a_str", VCls BStr); ("a_thing", VNone)])).

Definition class_Foo : hobj :=
  HClass (mkclass "Foo" "__main__" true false [CL L_Schema; CB BObject]
            (dict_of [("my_typed_list", VRef L_TypedList_Bar)])).

(** What [TypedList.set_type(ftype)] returns. *)
Definition typed_list_of (ftype : value) : hobj :=
  HClass (mkclass "TypedList" module_name true true
            [CL L_BaseFlattyType; CB BList; CB BObject]
            (dict_of [("ftype", ftype); ("set_type", VMethod (FUser "set_type"))])).

(** [my_bar = Bar(a_num=42, a_str='hello world', a_thing='whatever type here')]
    at 15, the list [[my_bar]] at 16, [foo = Foo(my_typed_list=[my_bar])] at 17. *)
Definition store_foo : heap :=
  flatty_heap ++
  [ class_Bar; typed_list_of (VRef L_Bar); class_Foo;
    HObj (CL L_Bar) (dict_of [("a_num", VInt 42); ("a_str", VStr "hello world");
                              ("a_thing", VStr "whatever type here")]) PObject;
    HObj (CB BList) ∅ (PList [VRef 15%nat]);
    HObj (CL L_Foo) (dict_of [("my_typed_list", VRef 16%nat)]) PObject ].

(** The flat form of [foo]: three new objects, at 18, 19 and 20. *)
Definition flat_foo : heap :=
  [ HObj (CB BDict) ∅ (PDict [(VStr "my_typed_list", VRef 19%nat)]);
    HObj (CB BList) ∅ (PList [VRef 20%nat]);
    HObj (CB BDict) ∅ (PDict [(VStr "a_num", VInt 42); (VStr "a_str", VStr "hello world");
                              (VStr "a_thing", VStr "whatever type here")]) ].

(** [class Event(Schema): when = datetime.date] at 12 and
    [Event(when=date(2024, 3, 5))] at 13. *)
Definition store_event : heap :=
  flatty_heap ++
  [ HClass (mkclass "Event" "__main__" true false [CL L_Schema; CB BObject]
              (dict_of [("when", VCls BDate)]));
    HObj (CL 12%nat) (dict_of [("when", VDate (mkdate 2024 3 5))]) PObject ].

(** [class Point(Schema): x = int; y = int] at 12 and [Point(x=3, y=4)] at 13. *)
Definition store_point : heap :=
  flatty_heap ++
  [ HClass (mkclass "Point" "__main__" true false [CL L_Schema; CB BObject]
              (dict_of [("x", VCls BInt); ("y", VCls BInt)]));
    HObj (CL 12%nat) (dict_of [("x", VInt 3); ("y", VInt 4)]) PObject ].

(** A typed list type at 12 and a plain list of [items] at 13. *)
Definition store_typed_list (ftype : value) (items : list value) : heap :=
  flatty_heap ++ [ typed_list_of ftype; HObj (CB BList) ∅ (PList items) ].

(** The template [[int, str]] at 12 and a plain list of [items] at 13. *)
Definition store_template (items : list value) : heap :=
  flatty_heap ++
  [ HObj (CB BList) ∅ (PList [VCls BInt; VCls BStr]);
    HObj (CB BList) ∅ (PList items) ].

(** A plain list of [items] at 12. *)
Definition store_list (items : list value) : heap :=
  flatty_heap ++ [ HObj (CB BList) ∅ (PList items) ].

(** [class U(Schema): a = None; b = int] at 12, [class T(U): a = U] at 13,
    an instance [e] of [T] with [e.b = 1] at 14, whose [e.a] is another
    instance of [T], at 17, that nothing else refers to, and the partial
    tree [{'a': {'b': 5}}] at 15 and 16. *)
Definition store_merge : heap :=
  flatty_heap ++
  [ HClass (mkclass "U" "__main__" true false [CL L_Schema; CB BObject]
              (dict_of [("a", VNone); ("b", VCls BInt)]));
    HClass (mkclass "T" "__main__" true false [CL 12%nat; CL L_Schema; CB BObject]
              (dict_of [("a", VRef 12%nat)]));
    HObj (CL 13%nat) (dict_of [("a", VRef 17%nat); ("b", VInt 1)]) PObject;
    HObj (CB BDict) ∅ (PDict [(VStr "a", VRef 16%nat)]);
    HObj (CB BDict) ∅ (PDict [(VStr "b", VInt 5)]);
    HObj (CL 13%nat) (dict_of [("b", VInt 2)]) PObject ].

(** [class TypedList(flatty.TypedList): pass] of a module [app], at 12 in
    the store of the module. *)
Definition store_app : heap :=
  flatty_heap ++
  [ HClass (mkclass "TypedList" "app" true true
              [CL L_TypedList; CL L_BaseFlattyType; CB BList; CB BObject] ∅) ].

(** [Point(x=3, y=4)] of [store_point] and the tree [{'x': 'bad'}] at 14. *)
Definition store_mismatch : heap :=
  store_point ++ [ HObj (CB BDict) ∅ (PDict [(VStr "x", VStr "bad")]) ].

(** [class Event(Schema): when = datetime.date] at 12, [Event()], which has
    no attribute of its own, at 13, and the tree [{'when': '2024-03-05'}]
    at 14. *)
Definition store_unset : heap :=
  flatty_heap ++
  [ HClass (mkclass "Event" "__main__" true false [CL L_Schema; CB BObject]
              (dict_of [("when", VCls BDate)]));
    HObj (CL 12%nat) ∅ PObject;
    HObj (CB BDict) ∅ (PDict [(VStr "when", VStr "2024-03-05")]) ].

(** Everything but the instance at 14 and the tree at 15. *)
Definition region_merge (l : loc) : bool :=
  negb (Nat.eqb l 14) && negb (Nat.eqb l 15).


(** ** What flattening leaves alone *)

(** Strictly increasing lists of names. *)
Fixpoint increasing (l : list string) : Prop :=
  match l with
  | [] => True
  | x :: l' => Forall (fun y => String.ltb x y = true) l' /\ increasing l'
  end.

(** No two elements of [xs] have keys that [==] takes for equal. *)
Fixpoint distinct_by {A} (key : A -> value) (xs : list A) : bool :=
  match xs with
  | [] => true
  | x :: xs' => negb (existsb (fun y => val_eqb (key x) (key y)) xs') && distinct_by key xs'
  end.

(** Every dict of the store has pairwise different keys, as the dicts of
    Python have. *)
Definition wf_obj (o : hobj) : bool :=
  match o with
  | HObj _ _ (PDict items) => distinct_by fst items
  | _ => true
  end.

Definition dicts_wf (h : heap) : Prop :=
  forall l o, h !! l = Some o -> wf_obj o = true.

(** From [h] to [h'] objects were added and none was changed. *)
Definition adds (h h' : heap) : Prop := exists new, h' = h ++ new.

(** From [h] to [h'] no object but the one at [w] was changed. *)
Definition same_but (w : loc) (h h' : heap) : Prop :=
  (List.length h <= List.length h')%nat /\
  forall l, (l < List.length h)%nat -> l <> w -> h' !! l = h !! l.

(** The dict at [w] has no key equal to [k]. *)
Definition absent (w : loc) (k : value) (h : heap) : Prop :=
  exists c a items,
    h !! w = Some (HObj c a (PDict items)) /\
    existsb (fun kv => val_eqb k (fst kv)) items = false.

(** A computation that only adds objects to a store whose dicts are well
    formed, and keeps them so. *)
Definition tidy {A} (m : M A) : Prop :=
  forall h a h', dicts_wf h -> m h = Ok (a, h') -> adds h h' /\ dicts_wf h'.

(** ** Records of plain attributes *)

(** A value that refers to no place beyond the store. *)
Definition val_ok (h : heap) (v : value) : Prop :=
  match v with VRef l => (l < List.length h)%nat | _ => True end.

(** What [SchemaConverter.to_flat] stores for the attribute [name] of
    [obj]: its value, or None where [obj] still holds the declared type. *)
Definition flat_value (h : heap) (obj T : value) (name : string) : value :=
  let v := default VNone (py_getattr h obj name) in
  let t := default VNone (py_getattr h T name) in
  if class_eq h v t && isclass h v then VNone else v.

(** The names of [dir(T)] that [to_flat] flattens on [obj]: attributes of
    [obj] that are no methods. *)
Definition is_data (h : heap) (obj : value) (name : string) : bool :=
  py_hasattr h obj name && negb (String.prefix "__" name) &&
  negb (ismethod (default VNone (py_getattr h obj name))).

Definition data_names (h : heap) (obj T : value) : list string :=
  List.filter (is_data h obj) (py_dir h T).

Definition flat_items (h : heap) (obj T : value) : list (value * value) :=
  map (fun name => (VStr name, flat_value h obj T name)) (data_names h obj T).

(** An attribute that the converters pass through: its value [v] refers
    into the store; its declared type [t] is a class without converter and
    [v] passes the check against it, or no type is declared (None) and the
    class of [v] has no converter. *)
Definition plain (h : heap) (reg : registry) (t v : value) : Prop :=
  val_ok h v /\
  if is_none t
  then as_class h (cref_val (class_of h v)) = Some (class_of h v) /\
       resolve h reg (class_of h v) = Ok None /\
       resolve h reg (CB BNoneType) = Ok None
  else exists c, as_class h t = Some c /\ resolve h reg c = Ok None /\
                 _check_type h v t = Ok tt.

(** The payload of a new instance of a class with the ancestors [cs]. *)
Definition new_payload (cs : list cref) : payload :=
  if bool_decide (CB BList ∈ cs) then PList []
  else if bool_decide (CB BDict ∈ cs) then PDict []
  else PObject.

(** An object that is no class. *)
Definition is_instance (o : hobj) : Prop :=
  match o with HObj _ _ _ => True | HClass _ => False end.

(** What [TypedDict.set_type(ftype)] returns. *)
Definition typed_dict_of (ftype : value) : hobj :=
  HClass (mkclass "TypedDict" module_name true true
            [CL L_BaseFlattyType; CB BDict; CB BObject]
            (dict_of [("ftype", ftype); ("set_type", VMethod (FUser "set_type"))])).

(** A typed dict type at 12 and a plain dict of [items] at 13. *)
Definition store_typed_dict (ftype : value) (items : list (value * value)) : heap :=
  flatty_heap ++ [ typed_dict_of ftype; HObj (CB BDict) ∅ (PDict items) ].

(** Every class of the store is a heap type, made by a class statement or
    by [type(...)]: it prints as [<class '...'>]. *)
Definition heap_types (h : heap) : bool :=
  forallb (fun o => match o with HClass k => c_heap k | HObj _ _ _ => true end) h.

(** ** Containers without element type *)

(** The declared type [T] is a class, hence no template of types, and it
    names no element type: it has no attribute [ftype], or the attribute
    is None. *)
Definition untagged (h : heap) (T : value) : Prop :=
  (exists c, as_class h T = Some c) /\
  is_builtin_instance h T BList = false /\
  is_builtin_instance h T BDict = false /\
  (py_getattr h T "ftype" = None \/ py_getattr h T "ftype" = Some VNone).

(** Flattening of the list [obj] under the declared type [T] when no
    element has a declared type: a new list is made, [obj] is checked
    against [T], and every item in turn is flattened with the declared type
    None and appended. *)
Definition flat_untyped_list (reg : registry) (m : nat) (T obj : value) : M value :=
  flat_list <- instantiate (CB BList) ;;
  check_type reg T obj ;;;
  for_each (S m) obj (fun item =>
    flat_item <- flatit m reg item VNone VNone ;;
    append_call flat_list flat_item) 0 ;;;
  ret flat_list.

(** The same for the dict [obj]: every value is flattened with the declared
    type None, and with what the new dict holds for its key as the value to
    merge into. *)
Definition flat_untyped_dict (reg : registry) (m : nat) (T obj : value) : M value :=
  flat_dict <- instantiate (CB BDict) ;;
  check_type reg T obj ;;;
  items <- readr (fun h => py_items h obj) ;;
  for_list items (fun '(k, v) =>
    present <- readr (fun h => py_contains h flat_dict k) ;;
    sub_val <- (if present : bool
                then readr (fun h => py_getitem h flat_dict k)
                else ret VNone) ;;
    flat_v <- flatit m reg v VNone sub_val ;;
    py_setitem flat_dict k flat_v) ;;;
  ret flat_dict.

(** The object at [l] is a list. *)
Definition is_list (h : heap) (l : loc) : bool :=
  match h !! l with Some (HObj _ _ (PList _)) => true | _ => false end.

(** From [h] to [h'] no class was made or changed, and every list is still
    a list. *)
Definition same_shape (h h' : heap) : Prop :=
  (forall c, cinfo h' c = cinfo h c) /\
  (forall l, is_list h l = true -> is_list h' l = true).

(** A computation that makes and changes no class and leaves every list a
    list. *)
Definition keeps {A} (m : M A) : Prop :=
  forall h a h', m h = Ok (a, h') -> same_shape h h'.

(** A plain dict of [items] at 12. *)
Definition store_dict (items : list (value * value)) : heap :=
  flatty_heap ++ [ HObj (CB BDict) ∅ (PDict items) ].

(** * Properties *)

(** ** Dispatch through the registry *)

Lemma subtype_scan_skip h c pre reg :
  Forall (skipped h c) pre ->
  subtype_scan h c (pre ++ reg) = subtype_scan h c reg.
Proof.
  induction 1 as [|e pre He _ IH]; [reflexivity|].
  simpl. destruct He as [He|(kc & Hk & Hs)].
  - now rewrite He.
  - destruct (e_exact e); [exact IH|]. now rewrite Hk, Hs.
Qed.

Lemma subtype_scan_first h c pre e post :
  Forall (skipped h c) pre ->
  e_exact e = false ->
  supertype_test h c (e_key e) true ->
  subtype_scan h c (pre ++ e :: post) = Ok (Some e).
Proof.
  intros Hpre He (kc & Hk & Hs).
  rewrite subtype_scan_skip by assumption.
  simpl. now rewrite He, Hk, Hs.
Qed.

Lemma subtype_scan_none h c reg :
  Forall (skipped h c) reg -> subtype_scan h c reg = Ok None.
Proof.
  intros H. rewrite <- (app_nil_r reg). now rewrite subtype_scan_skip.
Qed.

Lemma resolve_exact h reg c e :
  find (exact_match h c) reg = Some e -> resolve h reg c = Ok (Some e).
Proof. unfold resolve. now intros ->. Qed.

Lemma cm_to_flat_resolved reg n rec t obj val h r :
  resolve h reg (type_class h t) = Ok r ->
  cm_to_flat reg n rec t obj val h =
  match r with
  | Some e => call_to_flat reg n rec e t obj val h
  | None => Ok (obj, h)
  end.
Proof.
  intros Hr. unfold cm_to_flat, bind, readr, lift. rewrite Hr.
  destruct r; reflexivity.
Qed.

Lemma cm_to_obj_resolved reg n rec t val obj h r :
  resolve h reg (type_class h t) = Ok r ->
  cm_to_obj reg n rec t val obj h =
  match r with
  | Some e => call_to_obj reg n rec e t val obj h
  | None => Ok (val, h)
  end.
Proof.
  intros Hr. unfold cm_to_obj, bind, readr, lift. rewrite Hr.
  destruct r; reflexivity.
Qed.

(** A class without the metaclass is a supertype of [c] exactly when it is
    [c] or occurs, at whatever depth, among the ancestors of [c]. *)
Lemma issubclass_plain h c kc :
  has_meta h kc = false ->
  issubclass h c kc = Ok (bool_decide (kc = c \/ kc ∈ match cinfo h c with
                                                     | Some k => c_mro k
                                                     | None => []
                                                     end)).
Proof.
  intros Hm. unfold issubclass. rewrite Hm. f_equal.
  apply bool_decide_ext. unfold mro. rewrite elem_of_cons. tauto.
Qed.

Lemma exact_match_spec h c e :
  exact_match h c e = true <-> prints_like h c (e_key e).
Proof.
  unfold exact_match, prints_like. split.
  - destruct (cref_str h c) as [a|]; [|discriminate].
    destruct (key_str h (e_key e)) as [b|]; [|discriminate].
    intros E. apply String.eqb_eq in E. subst b. now exists a.
  - intros (s & -> & ->). apply String.eqb_refl.
Qed.

Lemma exact_match_none h c e :
  exact_match h c e = false <-> ~ prints_like h c (e_key e).
Proof.
  rewrite <- exact_match_spec. destruct (exact_match h c e); split; intros H; congruence.
Qed.

Lemma find_exact_first h c pre e post :
  Forall (fun e' => ~ prints_like h c (e_key e')) pre ->
  prints_like h c (e_key e) ->
  find (exact_match h c) (pre ++ e :: post) = Some e.
Proof.
  intros Hpre He. induction Hpre as [|e' pre He' _ IH]; cbn [app find].
  - now rewrite (proj2 (exact_match_spec h c e) He).
  - now rewrite (proj2 (exact_match_none h c e') He').
Qed.

Lemma find_exact_none h c reg :
  Forall (fun e' => ~ prints_like h c (e_key e')) reg ->
  find (exact_match h c) reg = None.
Proof.
  induction 1 as [|e' reg He' _ IH]; cbn [find]; [reflexivity|].
  now rewrite (proj2 (exact_match_none h c e') He').
Qed.


(** ** Equality of typed container types *)

Lemma name_of_class h a ca ka :
  as_class h a = Some ca -> cinfo h ca = Some ka -> name_of h a = Some (c_name ka).
Proof.
  intros Ha Hk. unfold name_of.
  assert (Hn : c_name <$> (as_class h a ≫= cinfo h) = Some (c_name ka))
    by (rewrite Ha; simpl; now rewrite Hk).
  destruct a; try discriminate Ha; exact Hn.
Qed.

Lemma val_has_meta_class h a ca ka :
  as_class h a = Some ca -> cinfo h ca = Some ka -> val_has_meta h a = c_meta ka.
Proof.
  intros Ha Hk. unfold val_has_meta, has_meta. now rewrite Ha, Hk.
Qed.

Lemma String_eqb_iff (a b : string) : String.eqb a b = true <-> a = b.
Proof. apply String.eqb_eq. Qed.

Lemma has_meta_app h h' c : has_meta h c = true -> has_meta (h ++ h') c = true.
Proof.
  destruct c as [b|l]; [trivial|].
  unfold has_meta, cinfo. destruct (h !! l) as [o|] eqn:Hl; [|discriminate].
  rewrite lookup_app_l; [now rewrite Hl|]. eapply lookup_lt_Some; eassumption.
Qed.

Lemma set_type_spec h cls k f v h' :
  h !! cls = Some (HClass k) ->
  set_type cls f h = Ok (v, h') ->
  exists d,
    v = VRef (List.length h) /\
    h' = h ++ [HClass (mkclass (c_name k) (c_module k) true
                               (existsb (has_meta h) (c_mro k)) (c_mro k) d)].
Proof.
  intros Hk H. unfold set_type in H. rewrite Hk in H.
  unfold bind, alloc, ret in H. injection H as <- <-.
  eexists. split; reflexivity.
Qed.

(** The store after two calls of [set_type] on one class. *)
Lemma set_type_twice h cls k f1 f2 v1 h1 v2 h2 :
  h !! cls = Some (HClass k) ->
  set_type cls f1 h = Ok (v1, h1) ->
  set_type cls f2 h1 = Ok (v2, h2) ->
  exists d1 d2 m2,
    v1 = VRef (List.length h) /\ v2 = VRef (S (List.length h)) /\
    h2 = h ++ [HClass (mkclass (c_name k) (c_module k) true
                               (existsb (has_meta h) (c_mro k)) (c_mro k) d1);
               HClass (mkclass (c_name k) (c_module k) true m2 (c_mro k) d2)] /\
    (existsb (has_meta h) (c_mro k) = true -> m2 = true).
Proof.
  intros Hk H1 H2.
  destruct (set_type_spec _ _ _ _ _ _ Hk H1) as (d1 & -> & ->).
  assert (Hk1 : (h ++ [HClass (mkclass (c_name k) (c_module k) true
                   (existsb (has_meta h) (c_mro k)) (c_mro k) d1)])
                !! cls = Some (HClass k)).
  { rewrite lookup_app_l; [assumption|]. eapply lookup_lt_Some; eassumption. }
  destruct (set_type_spec _ _ _ _ _ _ Hk1 H2) as (d2 & -> & ->).
  eexists _, _, _. split; [reflexivity|]. split.
  { rewrite length_app. simpl. f_equal. lia. }
  split.
  { rewrite <- app_assoc. reflexivity. }
  intros Hm. apply existsb_exists in Hm as (c & Hin & Hc).
  apply existsb_exists. exists c. split; [assumption|].
  now apply has_meta_app.
Qed.

Section TwoInstantiations.

Variables (h : heap) (k : pyclass) (d1 d2 : gmap string value).
Let n := List.length h.
Let k1 := mkclass (c_name k) (c_module k) true true (c_mro k) d1.
Let k2 := mkclass (c_name k) (c_module k) true true (c_mro k) d2.
Let h2 := h ++ [HClass k1; HClass k2].
Hypothesis not_metaclass : CB BType ∉ c_mro k.

Lemma cinfo_first : cinfo h2 (CL n) = Some k1.
Proof.
  unfold cinfo, h2, n. rewrite lookup_app_r by lia.
  now replace (List.length h - List.length h)%nat with 0%nat by lia.
Qed.

Lemma cinfo_second : cinfo h2 (CL (S n)) = Some k2.
Proof.
  unfold cinfo, h2, n. rewrite lookup_app_r by lia.
  now replace (S (List.length h) - List.length h)%nat with 1%nat by lia.
Qed.

Lemma str_same : cref_str h2 (CL n) = cref_str h2 (CL (S n)).
Proof. unfold cref_str. now rewrite cinfo_first, cinfo_second. Qed.

Lemma mro_first : mro h2 (CL n) = CL n :: c_mro k.
Proof. unfold mro. now rewrite cinfo_first. Qed.

Lemma mro_second : mro h2 (CL (S n)) = CL (S n) :: c_mro k.
Proof. unfold mro. now rewrite cinfo_second. Qed.

Lemma is_metaclass_first : is_metaclass h2 (CL n) = false.
Proof.
  unfold is_metaclass. rewrite mro_first. apply bool_decide_eq_false.
  rewrite elem_of_cons. intros [?|?]; [discriminate|contradiction].
Qed.

Lemma is_metaclass_second : is_metaclass h2 (CL (S n)) = false.
Proof.
  unfold is_metaclass. rewrite mro_second. apply bool_decide_eq_false.
  rewrite elem_of_cons. intros [?|?]; [discriminate|contradiction].
Qed.

Lemma has_meta_first : has_meta h2 (CL n) = true.
Proof. unfold has_meta. now rewrite cinfo_first. Qed.

Lemma has_meta_second : has_meta h2 (CL (S n)) = true.
Proof. unfold has_meta. now rewrite cinfo_second. Qed.

Lemma issubclass_same kc :
  issubclass h2 (CL n) kc = issubclass h2 (CL (S n)) kc.
Proof.
  unfold issubclass. destruct (has_meta h2 kc) eqn:Hm.
  - unfold meta_subclasscheck.
    rewrite is_metaclass_first, is_metaclass_second, mro_first, mro_second.
    simpl. now rewrite str_same.
  - f_equal. apply bool_decide_ext. rewrite mro_first, mro_second.
    rewrite !elem_of_cons. split; intros [->|?]; auto.
    + now rewrite has_meta_first in Hm.
    + now rewrite has_meta_second in Hm.
Qed.

Lemma find_exact_same reg :
  find (exact_match h2 (CL n)) reg = find (exact_match h2 (CL (S n))) reg.
Proof.
  induction reg as [|e reg IH]; [reflexivity|]. simpl.
  unfold exact_match at 1 3. now rewrite str_same, IH.
Qed.

Lemma subtype_scan_same reg :
  subtype_scan h2 (CL n) reg = subtype_scan h2 (CL (S n)) reg.
Proof.
  induction reg as [|e reg IH]; [reflexivity|]. simpl. rewrite IH.
  destruct (e_exact e); [reflexivity|].
  destruct (as_class h2 (e_key e)); [|reflexivity].
  now rewrite issubclass_same.
Qed.

Lemma resolve_same reg : resolve h2 reg (CL n) = resolve h2 reg (CL (S n)).
Proof. unfold resolve. now rewrite find_exact_same, subtype_scan_same. Qed.

Lemma isinstance_across o :
  class_of h2 o = CL n -> isinstance h2 o (CL (S n)) = Ok true.
Proof.
  intros Ho. unfold isinstance. rewrite Ho.
  destruct (decide (CL n = CL (S n))) as [E|_]; [injection E; lia|].
  rewrite has_meta_second. unfold meta_subclasscheck.
  rewrite is_metaclass_first, mro_first. simpl.
  rewrite str_same, bool_decide_eq_true_2; [reflexivity|].
  apply list_elem_of_here.
Qed.

End TwoInstantiations.

(** A class made by [set_type] prints like the class it was made from. *)
Lemma class_str_set_type k m mro' d :
  c_heap k = true ->
  class_str (mkclass (c_name k) (c_module k) true m mro' d) = class_str k.
Proof. intros Hk. unfold class_str. cbn [c_heap c_module c_name]. now rewrite Hk. Qed.



(** ** Registration *)

Lemma val_eqb_refl k : val_eqb k k = true.
Proof.
  destruct k; cbn [val_eqb]; now apply bool_decide_eq_true_2.
Qed.

Lemma val_eqb_sym a b : val_eqb a b = val_eqb b a.
Proof.
  destruct a, b; cbn [val_eqb]; try reflexivity;
    apply bool_decide_ext; split; congruence.
Qed.

Lemma val_eqb_trans a b c :
  val_eqb a b = true -> val_eqb b c = true -> val_eqb a c = true.
Proof.
  destruct a, b; cbn [val_eqb]; intros H1;
    try (apply bool_decide_eq_true in H1; try discriminate H1);
    destruct c; cbn [val_eqb]; intros H2;
    try (apply bool_decide_eq_true in H2; try discriminate H2);
    try (apply bool_decide_eq_true); try congruence;
    repeat match goal with
           | H : Z.eqb _ _ = true |- _ => apply Z.eqb_eq in H
           | |- Z.eqb _ _ = true => apply Z.eqb_eq
           | b : bool |- _ => destruct b
           end; try congruence; try lia.
Qed.

Lemma reg_get_set k conv exact reg :
  exists k', val_eqb k k' = true /\
             reg_get k (reg_set (mkentry k conv exact) reg) = Some (mkentry k' conv exact).
Proof.
  unfold reg_get. induction reg as [|e reg (k' & Hk & IH)]; cbn [reg_set find e_key].
  - exists k. now rewrite val_eqb_refl.
  - destruct (val_eqb k (e_key e)) eqn:He; cbn [find e_key].
    + exists (e_key e). now rewrite He.
    + rewrite He. exists k'. now split.
Qed.

Lemma reg_get_set_other k k0 conv exact reg :
  val_eqb k k0 = false ->
  reg_get k0 (reg_set (mkentry k conv exact) reg) = reg_get k0 reg.
Proof.
  intros Hne. unfold reg_get. induction reg as [|e reg IH]; cbn [reg_set find e_key].
  - rewrite val_eqb_sym. now rewrite Hne.
  - destruct (val_eqb k (e_key e)) eqn:He; cbn [find e_key].
    + destruct (val_eqb k0 (e_key e)) eqn:H0; [|reflexivity].
      rewrite val_eqb_sym in H0.
      now rewrite (val_eqb_trans _ _ _ He H0) in Hne.
    + now rewrite IH.
Qed.

(** C10.  [set_converter] raises TypeError and leaves the registry as it
    was when the converter is not a class or not a subclass of [Converter],
    and every call that does not succeed does the same; when the call
    succeeds, looking up [conv_type] afterwards gives the
    converter and the flag of the call, whatever entry the key had before,
    and the entries of the other keys are as before. *)
Theorem set_converter_registers (h : heap) (reg : registry)
    (conv_type converter : value) (exact : bool) :
  (is_converter_class h converter = false ->
     set_converter h reg conv_type converter exact = (Raise TypeError, reg)) /\
  (fst (set_converter h reg conv_type converter exact) <> Ok tt ->
     set_converter h reg conv_type converter exact = (Raise TypeError, reg)) /\
  (fst (set_converter h reg conv_type converter exact) = Ok tt ->
     let reg' := snd (set_converter h reg conv_type converter exact) in
     (exists e, reg_get conv_type reg' = Some e /\
                e_conv e = converter /\ e_exact e = exact) /\
     (forall k, val_eqb conv_type k = false -> reg_get k reg' = reg_get k reg)).
Proof.
  unfold set_converter, is_converter_class. split; [|split].
  - now intros ->.
  - destruct (isclass h converter && _); [|reflexivity].
    destruct (hashable h conv_type); [|reflexivity]. now intros [].
  - destruct (isclass h converter && _); [|discriminate].
    destruct (hashable h conv_type); [|discriminate]. intros _. simpl. split.
    + destruct (reg_get_set conv_type converter exact reg) as (k' & _ & Hk).
      eexists. split; [exact Hk|]. now split.
    + intros k Hk. now apply reg_get_set_other.
Qed.

(** ** The temporal converters *)

(** Whenever [to_obj] of a temporal converter is given a text and an
    existing value and returns, it returns the existing value: the value
    that [replace] builds from the parsed fields is dropped. *)
Lemma temporal_to_obj_returns_obj (val obj r : value) :
  is_none val = false -> is_none obj = false ->
  (DateConverter_to_obj val obj = Ok r -> r = obj) /\
  (DateTimeConverter_to_obj val obj = Ok r -> r = obj) /\
  (TimeConverter_to_obj val obj = Ok r -> r = obj).
Proof.
  intros Hv Ho.
  unfold DateConverter_to_obj, DateTimeConverter_to_obj, TimeConverter_to_obj, rbind.
  rewrite Hv, Ho. repeat split; intros H.
  - destruct (parse fmt_date val) as [dt|]; [|discriminate].
    destruct (py_replace IDate obj dt); [|discriminate]. congruence.
  - destruct (parse fmt_datetime val) as [dt|]; [|discriminate].
    destruct (py_replace IDateTime obj dt); [|discriminate]. congruence.
  - destruct (parse fmt_time val) as [dt|]; [|discriminate].
    destruct (py_replace ITime obj dt); [|discriminate]. congruence.
Qed.

(** C6, at an input where the claim fails.  Each of the three [to_obj],
    given a text that parses and an existing value, returns the existing
    value with its old fields, not the parsed ones. *)
Theorem temporal_merge_keeps_old_fields :
  parse fmt_date (VStr "2024-03-05")
    = Ok (mkdatetime (mkdate 2024 3 5) (mktime 0 0 0 0)) /\
  DateConverter_to_obj (VStr "2024-03-05") (VDate (mkdate 2000 1 1))
    = Ok (VDate (mkdate 2000 1 1)) /\
  parse fmt_datetime (VStr "2024-03-05T10:20:30.000123")
    = Ok (mkdatetime (mkdate 2024 3 5) (mktime 10 20 30 123)) /\
  DateTimeConverter_to_obj (VStr "2024-03-05T10:20:30.000123")
      (VDateTime (mkdatetime (mkdate 2000 1 1) (mktime 1 2 3 4)))
    = Ok (VDateTime (mkdatetime (mkdate 2000 1 1) (mktime 1 2 3 4))) /\
  parse fmt_time (VStr "10:20:30.000123")
    = Ok (mkdatetime (mkdate 1900 1 1) (mktime 10 20 30 123)) /\
  TimeConverter_to_obj (VStr "10:20:30.000123") (VTime (mktime 1 2 3 4))
    = Ok (VTime (mktime 1 2 3 4)).
Proof. repeat split; vm_compute; reflexivity. Qed.

(** ** Renderings that [to_obj] reads back *)

Lemma append_cons c (s t : string) : (String c s ++ t = String c (s ++ t))%string.
Proof. reflexivity. Qed.

Lemma append_empty (s : string) : (s ++ "")%string = s.
Proof. induction s as [|c s IH]; [reflexivity|]. now rewrite !append_cons, IH. Qed.

Lemma append_assoc (s1 s2 s3 : string) :
  ((s1 ++ s2) ++ s3 = s1 ++ (s2 ++ s3))%string.
Proof. induction s1 as [|c s1 IH]; [reflexivity|]. now rewrite !append_cons, IH. Qed.

Lemma digit_char_spec d :
  0 <= d <= 9 -> is_digit (digit_char d) = true /\ digit_val (digit_char d) = d.
Proof.
  intros H.
  assert (E : d = 0 \/ d = 1 \/ d = 2 \/ d = 3 \/ d = 4 \/ d = 5 \/ d = 6 \/
              d = 7 \/ d = 8 \/ d = 9) by lia.
  repeat destruct E as [->|E]; try subst d; split; reflexivity.
Qed.

Lemma take_digits_S k acc a rest :
  take_digits (S k) acc (String a rest)
  = if is_digit a then take_digits k (10 * acc + digit_val a) rest else None.
Proof. reflexivity. Qed.

Lemma take_digits_snoc k : forall acc s,
  take_digits (S k) acc s =
  match take_digits k acc s with
  | Some (v, String a rest) =>
      if is_digit a then Some (10 * v + digit_val a, rest) else None
  | _ => None
  end.
Proof.
  induction k as [|k IH]; intros acc s.
  - destruct s; reflexivity.
  - destruct s as [|a rest]; [reflexivity|].
    rewrite (take_digits_S (S k)), (take_digits_S k).
    destruct (is_digit a); [apply IH|reflexivity].
Qed.

Lemma take_digits_zpad k : forall z acc rest,
  0 <= z < 10 ^ Z.of_nat k ->
  take_digits k acc (zpad k z ++ rest) = Some (acc * 10 ^ Z.of_nat k + z, rest).
Proof.
  induction k as [|k IH]; intros z acc rest Hz.
  - simpl in *. do 2 f_equal. lia.
  - rewrite Nat2Z.inj_succ, Z.pow_succ_r in * by lia.
    rewrite take_digits_snoc. cbn [zpad]. rewrite append_assoc.
    rewrite IH by (split; [apply Z.div_pos; lia|apply Z.div_lt_upper_bound; lia]).
    rewrite append_cons.
    destruct (digit_char_spec (z mod 10)) as [Hd Hv]; [pose proof (Z.mod_pos_bound z 10); lia|].
    rewrite Hd, Hv. do 2 f_equal.
    pose proof (Z.div_mod z 10). lia.
Qed.

Lemma lower_digit a : is_digit a = true -> lower a = a.
Proof.
  unfold is_digit, lower. cbv zeta. intros H.
  apply andb_true_iff in H as [H1 H2]. apply Nat.leb_le in H1, H2.
  destruct (65 <=? nat_of_ascii a)%nat eqn:E; [|reflexivity].
  apply Nat.leb_le in E. lia.
Qed.

Lemma rmatch_lit c pat rest acc :
  rmatch (PLit c :: pat) (String c rest) acc = rmatch pat rest acc.
Proof. cbn [rmatch]. now rewrite bool_decide_eq_true_2. Qed.

(** A literal that is no digit refuses a digit, and the end of the text. *)
Lemma rmatch_lit_digit c pat a rest acc :
  is_digit (lower c) = false -> is_digit a = true ->
  rmatch (PLit c :: pat) (String a rest) acc = None.
Proof.
  intros Hc Ha. cbn [rmatch]. rewrite (lower_digit a Ha).
  rewrite bool_decide_eq_false_2; [reflexivity|].
  intros E. rewrite E in Hc. congruence.
Qed.

Lemma rmatch_dir d pat s acc :
  rmatch (PDir d :: pat) s acc
  = try_alts (fun z rest => rmatch pat rest (tm_set d z acc)) s (alternatives d).
Proof. reflexivity. Qed.

(** *** One field at the head of the text

    [k] stands for the match of the rest of the pattern.  The year has one
    alternative.  A field of two digits is first read whole; when the rest
    of the pattern then fails, the alternatives left read one digit, and
    fail where the rest of the pattern refuses a digit. *)

Lemma year_alts y k rest :
  0 <= y <= 9999 ->
  try_alts k (zpad 4 y ++ rest) (alternatives DY) = k y rest.
Proof.
  intros Hy. cbn [alternatives try_alts].
  rewrite take_digits_zpad by (change (10 ^ Z.of_nat 4) with 10000; lia).
  replace (0 * 10 ^ Z.of_nat 4 + y) with y by lia.
  now destruct (k y rest).
Qed.

Ltac small_cases v :=
  let p := fresh "p" in
  destruct v as [|p|p]; [| do 6 (try destruct p as [p|p|]) |]; try lia.

Ltac two_digits :=
  intros k v rest Hv Hk; small_cases v;
  (vm_compute; destruct (k _ rest) eqn:E;
   [reflexivity|rewrite ?Hk by reflexivity; reflexivity]).

Lemma month_alts k v rest :
  1 <= v <= 12 ->
  (k v rest = None -> forall z a r, is_digit a = true -> k z (String a r) = None) ->
  try_alts k (zpad 2 v ++ rest) (alternatives Dm) = k v rest.
Proof. revert k v rest. two_digits. Qed.

Lemma day_alts k v rest :
  1 <= v <= 31 ->
  (k v rest = None -> forall z a r, is_digit a = true -> k z (String a r) = None) ->
  try_alts k (zpad 2 v ++ rest) (alternatives Dd) = k v rest.
Proof. revert k v rest. two_digits. Qed.

Lemma hour_alts k v rest :
  0 <= v <= 23 ->
  (k v rest = None -> forall z a r, is_digit a = true -> k z (String a r) = None) ->
  try_alts k (zpad 2 v ++ rest) (alternatives DH) = k v rest.
Proof. revert k v rest. two_digits. Qed.

Lemma minute_alts k v rest :
  0 <= v <= 59 ->
  (k v rest = None -> forall z a r, is_digit a = true -> k z (String a r) = None) ->
  try_alts k (zpad 2 v ++ rest) (alternatives DM) = k v rest.
Proof. revert k v rest. two_digits. Qed.

Lemma second_alts k v rest :
  0 <= v <= 59 ->
  (k v rest = None -> forall z a r, is_digit a = true -> k z (String a r) = None) ->
  try_alts k (zpad 2 v ++ rest) (alternatives DS) = k v rest.
Proof. revert k v rest. two_digits. Qed.

Lemma micro_alts us k rest r :
  0 <= us <= 999999 -> k us rest = Some r ->
  try_alts k (zpad 6 us ++ rest) (alternatives Df) = Some r.
Proof.
  intros Hu Hk. cbn [alternatives try_alts]. unfold fraction at 1.
  rewrite take_digits_zpad by (change (10 ^ Z.of_nat 6) with 1000000; lia).
  replace ((0 * 10 ^ Z.of_nat 6 + us) * 10 ^ Z.of_nat (6 - 6)) with us
    by (change (10 ^ Z.of_nat (6 - 6)) with 1; lia).
  now rewrite Hk.
Qed.

Lemma append_lit c (s : string) : (String c "" ++ s)%string = String c s.
Proof. reflexivity. Qed.

Lemma days_in_month_le y m : days_in_month y m <= 31.
Proof.
  unfold days_in_month.
  repeat match goal with |- context [if ?b then _ else _] => destruct b end; lia.
Qed.

Lemma valid_date_range d :
  valid_date d = true ->
  1 <= d_year d <= 9999 /\ 1 <= d_month d <= 12 /\ 1 <= d_day d <= 31.
Proof.
  unfold valid_date, within. rewrite !andb_true_iff, !Z.leb_le.
  pose proof (days_in_month_le (d_year d) (d_month d)). lia.
Qed.

Lemma valid_time_range t :
  valid_time t = true ->
  0 <= t_hour t <= 23 /\ 0 <= t_minute t <= 59 /\ 0 <= t_second t <= 59 /\
  0 <= t_micro t <= 999999.
Proof. unfold valid_time, within. rewrite !andb_true_iff, !Z.leb_le. lia. Qed.

(** *** The patterns on the renderings *)

(* The rest of the pattern starts with a literal that is no digit. *)
Ltac refuses_digit :=
  intros _ ? ? ? ?; cbv beta; apply rmatch_lit_digit; [reflexivity|assumption].

Lemma rmatch_date d pat rest acc :
  valid_date d = true ->
  (pat = [] \/ forall acc' a r, is_digit a = true -> rmatch pat (String a r) acc' = None) ->
  rmatch (fmt_date ++ pat) (date_isoformat d ++ rest) acc
  = rmatch pat rest (tm_set Dd (d_day d) (tm_set Dm (d_month d) (tm_set DY (d_year d) acc))).
Proof.
  intros Hd Hpat. destruct (valid_date_range d Hd) as (Hy & Hm & Hdd).
  unfold fmt_date, date_isoformat. cbn [app].
  rewrite !append_assoc, !append_lit.
  rewrite rmatch_dir, year_alts by lia. cbv beta.
  rewrite rmatch_lit, rmatch_dir, month_alts; [|lia|refuses_digit]. cbv beta.
  rewrite rmatch_lit, rmatch_dir, day_alts; [reflexivity|lia|].
  destruct Hpat as [->|Hpat]; [discriminate|].
  intros _ z a r Ha. now apply Hpat.
Qed.

Lemma rmatch_hms t pat rest acc :
  valid_time t = true ->
  (forall acc' a r, is_digit a = true -> rmatch pat (String a r) acc' = None) ->
  rmatch ([PDir DH; PLit ":"; PDir DM; PLit ":"; PDir DS] ++ pat) (time_hms t ++ rest) acc
  = rmatch pat rest
      (tm_set DS (t_second t) (tm_set DM (t_minute t) (tm_set DH (t_hour t) acc))).
Proof.
  intros Ht Hpat. destruct (valid_time_range t Ht) as (Hh & Hm & Hs & _).
  unfold time_hms. cbn [app].
  rewrite !append_assoc, !append_lit.
  rewrite rmatch_dir, hour_alts; [|lia|refuses_digit]. cbv beta.
  rewrite rmatch_lit, rmatch_dir, minute_alts; [|lia|refuses_digit]. cbv beta.
  rewrite rmatch_lit, rmatch_dir, second_alts; [reflexivity|lia|].
  intros _ z a r Ha. now apply Hpat.
Qed.

(** The time pattern reads the rendering with the fraction, and refuses
    the one without. *)
Lemma rmatch_time t acc :
  valid_time t = true ->
  rmatch fmt_time (time_strftime t) acc
  = Some (tm_set Df (t_micro t)
            (tm_set DS (t_second t) (tm_set DM (t_minute t) (tm_set DH (t_hour t) acc))),
          "") /\
  rmatch fmt_time (time_hms t) acc = None.
Proof.
  intros Ht. pose proof (valid_time_range t Ht) as (_ & _ & _ & Hu).
  change fmt_time with ([PDir DH; PLit ":"; PDir DM; PLit ":"; PDir DS] ++ [PLit "."; PDir Df]).
  split.
  - unfold time_strftime. rewrite rmatch_hms; trivial.
    + rewrite append_lit, rmatch_lit, rmatch_dir.
      rewrite <- (append_empty (zpad 6 (t_micro t))).
      now apply micro_alts.
    + intros acc' a r Ha. now apply rmatch_lit_digit.
  - rewrite <- (append_empty (time_hms t)). rewrite rmatch_hms; trivial.
    intros acc' a r Ha. now apply rmatch_lit_digit.
Qed.

Lemma strptime_date d :
  valid_date d = true ->
  strptime fmt_date (date_isoformat d) = Ok (mkdatetime d (mktime 0 0 0 0)).
Proof.
  intros Hd. unfold strptime.
  rewrite <- (app_nil_r fmt_date), <- (append_empty (date_isoformat d)).
  rewrite rmatch_date by (trivial; now left).
  destruct d as [y m dd]. cbn [rmatch tm_set tm_default tm_Y tm_m tm_d tm_H tm_M tm_S tm_f
                               d_year d_month d_day dt_date dt_time].
  now rewrite Hd.
Qed.

Lemma strptime_time t :
  valid_time t = true ->
  strptime fmt_time (time_strftime t) = Ok (mkdatetime (mkdate 1900 1 1) t).
Proof.
  intros Ht. unfold strptime. rewrite (proj1 (rmatch_time t tm_default Ht)).
  destruct t as [hh mi ss us]. cbn [tm_set tm_default tm_Y tm_m tm_d tm_H tm_M tm_S tm_f
                                    t_hour t_minute t_second t_micro dt_date dt_time].
  now rewrite Ht.
Qed.

Lemma strptime_datetime d t :
  valid_date d = true -> valid_time t = true ->
  strptime fmt_datetime (date_isoformat d ++ "T" ++ time_strftime t) = Ok (mkdatetime d t) /\
  strptime fmt_datetime (date_isoformat d ++ "T" ++ time_hms t) = Raise ValueError.
Proof.
  intros Hd Ht. unfold strptime, fmt_datetime.
  assert (Hpat : forall acc' a r, is_digit a = true ->
                   rmatch ([PLit "T"] ++ fmt_time) (String a r) acc' = None).
  { intros acc' a r Ha. now apply rmatch_lit_digit. }
  rewrite !rmatch_date by (trivial; now right).
  cbn [app]. rewrite !append_lit, !rmatch_lit.
  destruct (rmatch_time t (tm_set Dd (d_day d) (tm_set Dm (d_month d)
                             (tm_set DY (d_year d) tm_default))) Ht) as [-> ->].
  split; [|reflexivity].
  destruct d as [y m dd], t as [hh mi ss us].
  cbn [tm_set tm_default tm_Y tm_m tm_d tm_H tm_M tm_S tm_f
       d_year d_month d_day t_hour t_minute t_second t_micro dt_date dt_time].
  now rewrite Hd, Ht.
Qed.

(** C7.  Null renders null.  For every date and every time, [to_flat]
    gives the canonical text, [YYYY-MM-DD] resp. [HH:MM:SS.ffffff], and
    [to_obj] of the same converter reads it back.  For a datetime this holds
    when the microsecond is not zero.  When it is zero, [to_flat] gives
    [YYYY-MM-DDTHH:MM:SS], without the fraction, and [to_obj] of the same
    converter refuses that text: there the claim fails. *)
Theorem temporal_rendering (d : date) (t : time) :
  valid_date d = true -> valid_time t = true ->
  (DateConverter_to_flat VNone = Ok VNone /\
   DateTimeConverter_to_flat VNone = Ok VNone /\
   TimeConverter_to_flat VNone = Ok VNone) /\
  (DateConverter_to_flat (VDate d) = Ok (VStr (date_isoformat d)) /\
   DateConverter_to_obj (VStr (date_isoformat d)) VNone = Ok (VDate d)) /\
  (TimeConverter_to_flat (VTime t) = Ok (VStr (time_strftime t)) /\
   TimeConverter_to_obj (VStr (time_strftime t)) VNone = Ok (VTime t)) /\
  (t_micro t <> 0 ->
   DateTimeConverter_to_flat (VDateTime (mkdatetime d t))
     = Ok (VStr (date_isoformat d ++ "T" ++ time_strftime t)) /\
   DateTimeConverter_to_obj (VStr (date_isoformat d ++ "T" ++ time_strftime t)) VNone
     = Ok (VDateTime (mkdatetime d t))) /\
  (t_micro t = 0 ->
   DateTimeConverter_to_flat (VDateTime (mkdatetime d t))
     = Ok (VStr (date_isoformat d ++ "T" ++ time_hms t)) /\
   DateTimeConverter_to_obj (VStr (date_isoformat d ++ "T" ++ time_hms t)) VNone
     = Raise ValueError).
Proof.
  intros Hd Ht. destruct (strptime_datetime d t Hd Ht) as [Hfull Hshort].
  split; [now repeat split|]. split; [|split; [|split]].
  - split; [reflexivity|].
    unfold DateConverter_to_obj, parse, rbind. cbn [is_none py_text].
    now rewrite strptime_date.
  - split; [reflexivity|].
    unfold TimeConverter_to_obj, parse, rbind. cbn [is_none py_text].
    now rewrite strptime_time.
  - intros Hu. apply Z.eqb_neq in Hu.
    unfold DateTimeConverter_to_flat, DateTimeConverter_to_obj, parse, rbind.
    cbn [is_none py_text py_isoformat]. unfold datetime_isoformat, time_isoformat.
    cbn [dt_date dt_time]. rewrite Hu.
    split; [reflexivity|]. now rewrite Hfull.
  - intros Hu. apply Z.eqb_eq in Hu.
    unfold DateTimeConverter_to_flat, DateTimeConverter_to_obj, parse, rbind.
    cbn [is_none py_text py_isoformat]. unfold datetime_isoformat, time_isoformat.
    cbn [dt_date dt_time]. rewrite Hu.
    split; [reflexivity|]. now rewrite Hshort.
Qed.

(** At [datetime(2024, 3, 5, 10, 20, 30)]: the text has no fraction and is
    refused. *)
Lemma temporal_rendering_witness :
  valid_date (mkdate 2024 3 5) = true /\ valid_time (mktime 10 20 30 0) = true /\
  DateTimeConverter_to_flat
    (VDateTime (mkdatetime (mkdate 2024 3 5) (mktime 10 20 30 0)))
    = Ok (VStr "2024-03-05T10:20:30") /\
  DateTimeConverter_to_obj (VStr "2024-03-05T10:20:30") VNone = Raise ValueError.
Proof.
  split; [reflexivity|]. split; [reflexivity|].
  exact (proj2 (proj2 (proj2 (proj2
    (temporal_rendering (mkdate 2024 3 5) (mktime 10 20 30 0) eq_refl eq_refl))))
    eq_refl).
Defined.

(** ** More fuel changes nothing once the fuel suffices *)

Lemma for_list_cons {A} (x : A) l (body : A -> M unit) :
  for_list (x :: l) body = (body x ;;; for_list l body).
Proof. reflexivity. Qed.

Lemma fuel_le_refl {A} (m : M A) : fuel_le m m.
Proof. intros h _. reflexivity. Qed.

Lemma fuel_le_bind {A B} (m1 m2 : M A) (f1 f2 : A -> M B) :
  fuel_le m1 m2 -> (forall a, fuel_le (f1 a) (f2 a)) ->
  fuel_le (bind m1 f1) (bind m2 f2).
Proof.
  intros Hm Hf h H. unfold bind in *.
  destruct (m1 h) as [[a h1]|e] eqn:E1.
  - rewrite Hm, E1 by (rewrite E1; discriminate). now apply Hf.
  - rewrite Hm, E1 by (rewrite E1; intros [= ->]; now apply H). reflexivity.
Qed.

Lemma fuel_le_for_list {A} (l : list A) (b1 b2 : A -> M unit) :
  (forall x, fuel_le (b1 x) (b2 x)) -> fuel_le (for_list l b1) (for_list l b2).
Proof.
  intros Hb. induction l as [|x l IH]; [apply fuel_le_refl|].
  rewrite !for_list_cons. apply fuel_le_bind; [apply Hb|]. intros _. exact IH.
Qed.

Lemma fuel_le_for_each n1 n2 v (b1 b2 : value -> M unit) i :
  (n1 <= n2)%nat -> (forall x, fuel_le (b1 x) (b2 x)) ->
  fuel_le (for_each n1 v b1 i) (for_each n2 v b2 i).
Proof.
  intros Hn Hb. revert n2 i Hn. induction n1 as [|n1 IH]; intros n2 i Hn.
  - intros h H. now destruct H.
  - destruct n2 as [|n2]; [lia|]. cbn [for_each].
    apply fuel_le_bind; [apply fuel_le_refl|]. intros [x|]; [|apply fuel_le_refl].
    apply fuel_le_bind; [apply Hb|]. intros _. apply IH. lia.
Qed.

Ltac fuel_le_step :=
  match goal with
  | |- fuel_le (if ?b then _ else _) (if ?b then _ else _) => destruct b
  | |- fuel_le (match ?x with _ => _ end) (match ?x with _ => _ end) => destruct x
  | |- fuel_le (bind _ _) (bind _ _) => apply fuel_le_bind; [|intros ?]
  | |- fuel_le (for_list _ _) (for_list _ _) => apply fuel_le_for_list; intros ?
  | |- fuel_le ?m ?m => apply fuel_le_refl
  end.

Section FuelStep.

Variable reg : registry.
Variables n1 n2 : nat.
Variables rec1 rec2 : value -> value -> value -> M value.
Hypothesis fuel_more : (n1 <= n2)%nat.
Hypothesis rec_more : forall a b c, fuel_le (rec1 a b c) (rec2 a b c).

Lemma fuel_le_to_flat_impl i obj_type obj val :
  fuel_le (to_flat_impl reg n1 rec1 i obj_type obj val)
          (to_flat_impl reg n2 rec2 i obj_type obj val).
Proof.
  destruct i; cbn [to_flat_impl]; try apply fuel_le_refl.
  - unfold SchemaConverter_to_flat. repeat fuel_le_step; apply rec_more.
  - unfold TypedListConverter_to_flat. repeat fuel_le_step.
    apply fuel_le_for_each; [assumption|]. intros item.
    repeat fuel_le_step; apply rec_more.
  - unfold TypedDictConverter_to_flat. repeat fuel_le_step; apply rec_more.
Qed.

Lemma fuel_le_to_obj_impl i obj_type val obj :
  fuel_le (to_obj_impl reg n1 rec1 i obj_type val obj)
          (to_obj_impl reg n2 rec2 i obj_type val obj).
Proof.
  destruct i; cbn [to_obj_impl]; try apply fuel_le_refl.
  - unfold SchemaConverter_to_obj. repeat fuel_le_step.
    unfold SchemaConverter_to_obj_attr. repeat fuel_le_step; apply rec_more.
  - unfold TypedListConverter_to_obj. repeat fuel_le_step.
    apply fuel_le_for_each; [assumption|]. intros item.
    repeat fuel_le_step; apply rec_more.
  - unfold TypedDictConverter_to_obj. repeat fuel_le_step; apply rec_more.
Qed.

End FuelStep.

Lemma flatit_fuel n1 : forall n2 reg obj obj_type val,
  (n1 <= n2)%nat ->
  fuel_le (flatit n1 reg obj obj_type val) (flatit n2 reg obj obj_type val).
Proof.
  induction n1 as [|n1 IH]; intros n2 reg obj obj_type val Hn.
  - intros h H. now destruct H.
  - destruct n2 as [|n2]; [lia|]. cbn [flatit].
    apply fuel_le_bind; [apply fuel_le_refl|]. intros t.
    unfold cm_to_flat. repeat fuel_le_step.
    apply fuel_le_to_flat_impl; [lia|]. intros ? ? ?. apply IH. lia.
Qed.

Lemma unflatit_fuel n1 : forall n2 reg val obj_type obj,
  (n1 <= n2)%nat ->
  fuel_le (unflatit n1 reg val obj_type obj) (unflatit n2 reg val obj_type obj).
Proof.
  induction n1 as [|n1 IH]; intros n2 reg val obj_type obj Hn.
  - intros h H. now destruct H.
  - destruct n2 as [|n2]; [lia|]. cbn [unflatit].
    unfold cm_to_obj. repeat fuel_le_step.
    apply fuel_le_to_obj_impl; [lia|]. intros ? ? ?. apply IH. lia.
Qed.

(** A run that ends within the fuel [n] ends the same way with any more. *)
Lemma flatit_enough n k reg obj obj_type val h r :
  flatit n reg obj obj_type val h = r -> r <> Raise OutOfFuel ->
  flatit (n + k) reg obj obj_type val h = r.
Proof.
  intros <- Hr. apply flatit_fuel; [lia|assumption].
Qed.

Lemma unflatit_enough n k reg val obj_type obj h r :
  unflatit n reg val obj_type obj h = r -> r <> Raise OutOfFuel ->
  unflatit (n + k) reg val obj_type obj h = r.
Proof.
  intros <- Hr. apply unflatit_fuel; [lia|assumption].
Qed.

(** ** Runs on the example stores

    Each run is stated for every amount of fuel from 10 on. *)

Ltac run_with_fuel :=
  first [ apply flatit_enough; [vm_compute; reflexivity|discriminate]
        | apply unflatit_enough; [vm_compute; reflexivity|discriminate]
        | vm_compute; reflexivity ].

(** [typed_list_of] is what [set_type] builds from [TypedList]. *)
Example set_type_builds_typed_list :
  set_type L_TypedList (VRef L_Bar) (flatty_heap ++ [class_Bar])
  = Ok (VRef L_TypedList_Bar, flatty_heap ++ [class_Bar; typed_list_of (VRef L_Bar)]).
Proof. vm_compute. reflexivity. Qed.

(** C1, at inputs where the claim fails.  The instance [foo] of the
    docstring of [TypedList] flattens to the tree the docstring prints, and
    unflattening that tree with type [Foo] raises TypeError: the new
    instance has no value of its own for [my_typed_list], so [getattr] hands
    the declared type itself to [unflatit] as the object to merge into, and
    [TypedListConverter.to_obj] calls [append] on a class.  A record with a
    [date] attribute fails in the same way, in [obj.replace]. *)
Theorem docstring_roundtrip_raises (k : nat) :
  flatit (10 + k) default_registry (VRef 17%nat) VNone VNone store_foo
    = Ok (VRef 18%nat, store_foo ++ flat_foo) /\
  unflatit (10 + k) default_registry (VRef 18%nat) (VRef L_Foo) VNone (store_foo ++ flat_foo)
    = Raise TypeError /\
  flatit (10 + k) default_registry (VRef 13%nat) (VRef 12%nat) VNone store_event
    = Ok (VRef 14%nat,
          store_event ++ [HObj (CB BDict) ∅ (PDict [(VStr "when", VStr "2024-03-05")])]) /\
  unflatit (10 + k) default_registry (VRef 14%nat) (VRef 12%nat) VNone
    (store_event ++ [HObj (CB BDict) ∅ (PDict [(VStr "when", VStr "2024-03-05")])])
    = Raise TypeError.
Proof. repeat split; run_with_fuel. Qed.

(** Scenario 1 of the specification: a record whose attributes are
    integers makes the round trip. *)
Example point_roundtrip (k : nat) :
  flatit (10 + k) default_registry (VRef 13%nat) (VRef 12%nat) VNone store_point
    = Ok (VRef 14%nat,
          store_point ++ [HObj (CB BDict) ∅ (PDict [(VStr "x", VInt 3); (VStr "y", VInt 4)])]) /\
  unflatit (10 + k) default_registry (VRef 14%nat) (VRef 12%nat) VNone
    (store_point ++ [HObj (CB BDict) ∅ (PDict [(VStr "x", VInt 3); (VStr "y", VInt 4)])])
    = Ok (VRef 15%nat,
          store_point ++ [HObj (CB BDict) ∅ (PDict [(VStr "x", VInt 3); (VStr "y", VInt 4)]);
                          HObj (CL 12%nat) (dict_of [("x", VInt 3); ("y", VInt 4)]) PObject]).
Proof. repeat split; run_with_fuel. Qed.

(** C4, at inputs where the claim fails.  A [date] is no instance of
    [datetime] nor of [time], yet a typed sequence of [datetime], resp. of
    [time], that holds one is flattened without an error: the temporal
    converters inherit [Converter.check_type], which checks nothing.  With
    element type [time] the whole pipeline goes through and unflattening
    gives midnight. *)
Theorem temporal_element_is_not_checked (k : nat) :
  let d := VDate (mkdate 2024 3 5) in
  isinstance (store_typed_list (VCls BDateTime) [d]) d (CB BDateTime) = Ok false /\
  flatit (10 + k) default_registry (VRef 13%nat) (VRef 12%nat) VNone
         (store_typed_list (VCls BDateTime) [d])
    = Ok (VRef 14%nat, store_typed_list (VCls BDateTime) [d]
                       ++ [HObj (CB BList) ∅ (PList [VStr "2024-03-05"])]) /\
  isinstance (store_typed_list (VCls BTime) [d]) d (CB BTime) = Ok false /\
  flatit (10 + k) default_registry (VRef 13%nat) (VRef 12%nat) VNone
         (store_typed_list (VCls BTime) [d])
    = Ok (VRef 14%nat, store_typed_list (VCls BTime) [d]
                       ++ [HObj (CB BList) ∅ (PList [VStr "00:00:00.000000"])]) /\
  unflatit (10 + k) default_registry (VRef 14%nat) (VRef 12%nat) VNone
         (store_typed_list (VCls BTime) [d]
          ++ [HObj (CB BList) ∅ (PList [VStr "00:00:00.000000"])])
    = Ok (VRef 15%nat, store_typed_list (VCls BTime) [d]
                       ++ [HObj (CB BList) ∅ (PList [VStr "00:00:00.000000"]);
                           HObj (CL 12%nat) ∅ (PList [VTime (mktime 0 0 0 0)])]).
Proof. repeat split; run_with_fuel. Qed.

(** Where the element type has no converter of its own the check is made:
    a string in a typed sequence of [int] raises TypeError. *)
Example int_element_is_checked (k : nat) :
  let h := store_typed_list (VCls BInt) [VInt 1; VStr "a"] in
  isinstance h (VStr "a") (CB BInt) = Ok false /\
  flatit (10 + k) default_registry (VRef 13%nat) (VRef 12%nat) VNone h = Raise TypeError.
Proof. repeat split; run_with_fuel. Qed.

(** C8, at an input where the claim fails.  With the template
    [[int, str]] the entry at position 1 is [str], which the item ['a'] at
    position 1 satisfies; the converter checks it against the entry at
    position 0 and both directions raise TypeError. *)
Theorem template_entry_zero_for_every_item (k : nat) :
  let h := store_template [VInt 1; VStr "a"] in
  list_sub_type h (VRef 12%nat) 1 = Some (VCls BStr) /\
  cm_check_type h default_registry (VCls BStr) (VStr "a") = Ok tt /\
  cm_check_type h default_registry (VCls BInt) (VStr "a") = Raise TypeError /\
  flatit (10 + k) default_registry (VRef 13%nat) (VRef 12%nat) VNone h = Raise TypeError /\
  unflatit (10 + k) default_registry (VRef 13%nat) (VRef 12%nat) VNone h = Raise TypeError.
Proof. repeat split; run_with_fuel. Qed.

(** ** Computations that write inside a closed region *)

Section FootprintFacts.

Variable U : loc -> bool.

Lemma ext_refl h : ext U h h.
Proof. split; [lia|trivial]. Qed.

Lemma ext_trans h1 h2 h3 : ext U h1 h2 -> ext U h2 h3 -> ext U h1 h3.
Proof.
  intros [L1 E1] [L2 E2]. split; [lia|].
  intros l Hl. now rewrite E2, E1.
Qed.

Lemma bind_ok {A B} (m : M A) (f : A -> M B) h b h' :
  bind m f h = Ok (b, h') ->
  exists a h1, m h = Ok (a, h1) /\ f a h1 = Ok (b, h').
Proof.
  unfold bind. destruct (m h) as [[a h1]|]; [|discriminate]. eauto.
Qed.

Lemma safe_ret {A} (Q : A -> Prop) a : Q a -> safe U Q (ret a).
Proof.
  intros HQ h a' h' Hg H. injection H as <- <-. auto using ext_refl.
Qed.

Lemma safe_raise {A} (Q : A -> Prop) e : safe U Q (raise e).
Proof. intros h a h' _ H. discriminate. Qed.

Lemma safe_bind {A B} (Q1 : A -> Prop) (Q2 : B -> Prop) m f :
  safe U Q1 m -> (forall a, Q1 a -> safe U Q2 (f a)) -> safe U Q2 (bind m f).
Proof.
  intros Hm Hf h b h' Hg H.
  apply bind_ok in H as (a & h1 & H1 & H2).
  destruct (Hm _ _ _ Hg H1) as (Hg1 & He1 & HQ1).
  destruct (Hf _ HQ1 _ _ _ Hg1 H2) as (Hg2 & He2 & HQ2).
  eauto using ext_trans.
Qed.

Lemma safe_weaken {A} (Q1 Q2 : A -> Prop) m :
  safe U Q1 m -> (forall a, Q1 a -> Q2 a) -> safe U Q2 m.
Proof.
  intros Hm HQ h a h' Hg H. destruct (Hm _ _ _ Hg H) as (? & ? & ?). auto.
Qed.

Lemma safe_reads {A} (Q : A -> Prop) (f : heap -> A) :
  (forall h, good U h -> Q (f h)) -> safe U Q (reads f).
Proof.
  intros HQ h a h' Hg H. injection H as <- <-. auto using ext_refl.
Qed.

Lemma safe_readr {A} (Q : A -> Prop) (f : heap -> res A) :
  (forall h a, good U h -> f h = Ok a -> Q a) -> safe U Q (readr f).
Proof.
  intros HQ h a h' Hg H. unfold readr, lift in H.
  destruct (f h) as [x|] eqn:Hf; [|discriminate]. injection H as <- <-.
  eauto using ext_refl.
Qed.

Lemma safe_lift {A} (Q : A -> Prop) (r : res A) :
  (forall a, r = Ok a -> Q a) -> safe U Q (lift r).
Proof.
  intros HQ h a h' Hg H. unfold lift in H.
  destruct r as [x|]; [|discriminate]. injection H as <- <-.
  auto using ext_refl.
Qed.

(** *** Reads stay inside the region *)

Lemma builtin_methods_in names : dict_in U (builtin_methods names).
Proof.
  unfold builtin_methods, dict_of. induction names as [|n names IH]; intros name v.
  - simpl. rewrite lookup_empty. discriminate.
  - simpl. destruct (decide (n = name)) as [->|Hne].
    + rewrite lookup_insert_eq. intros [= <-]. exact I.
    + rewrite lookup_insert_ne by assumption. apply IH.
Qed.

Lemma empty_in : dict_in U ∅.
Proof. intros name v. rewrite lookup_empty. discriminate. Qed.

Lemma builtin_in b :
  Forall (cref_in U) (c_mro (builtin_info b)) /\ dict_in U (c_dict (builtin_info b)).
Proof.
  destruct b; simpl; split;
    try apply empty_in; try apply builtin_methods_in;
    repeat constructor.
Qed.

Lemma cinfo_in h c k :
  good U h -> cref_in U c -> cinfo h c = Some k ->
  Forall (cref_in U) (c_mro k) /\ dict_in U (c_dict k).
Proof.
  intros (_ & Hg & _) Hc H. destruct c as [b|l]; simpl in H.
  - injection H as <-. apply builtin_in.
  - destruct (h !! l) as [[|k']|] eqn:Hl; try discriminate.
    injection H as <-. exact (Hg _ _ Hl Hc).
Qed.

Lemma mro_in h c : good U h -> cref_in U c -> Forall (cref_in U) (mro h c).
Proof.
  intros Hg Hc. unfold mro. constructor; [assumption|].
  destruct (cinfo h c) as [k|] eqn:Hk; [|constructor].
  now destruct (cinfo_in _ _ _ Hg Hc Hk).
Qed.

Lemma class_lookup_in h c name v :
  good U h -> cref_in U c -> class_lookup h c name = Some v -> val_in U v.
Proof.
  intros Hg Hc. unfold class_lookup. pose proof (mro_in _ _ Hg Hc) as Hm.
  induction Hm as [|c' cs Hc' _ IH]; [discriminate|].
  destruct (cinfo h c') as [k|] eqn:Hk; simpl.
  - destruct (c_dict k !! name) as [x|] eqn:Hx.
    + intros [= <-]. destruct (cinfo_in _ _ _ Hg Hc' Hk) as [_ Hd]. eapply Hd; eassumption.
    + exact IH.
  - exact IH.
Qed.

Lemma bind_attr_in v : val_in U v -> val_in U (bind_attr v).
Proof. destruct v; trivial. Qed.

Lemma class_of_in h v : good U h -> val_in U v -> cref_in U (class_of h v).
Proof.
  intros (Hm & Hg & _) Hv. destruct v; simpl; trivial.
  destruct (h !! l) as [[c a p|k]|] eqn:Hl; simpl; trivial.
  - now destruct (Hg _ _ Hl Hv).
  - destruct (c_meta k); simpl; trivial.
Qed.

Lemma as_class_in h v c : val_in U v -> as_class h v = Some c -> cref_in U c.
Proof.
  destruct v; simpl; try discriminate.
  - now intros _ [= <-].
  - intros Hv. destruct (h !! l) as [[]|]; try discriminate. now intros [= <-].
Qed.

Lemma type_class_in h v : good U h -> val_in U v -> cref_in U (type_class h v).
Proof.
  intros Hg Hv. unfold type_class.
  destruct (as_class h v) as [c|] eqn:Hc.
  - eapply as_class_in; eassumption.
  - now apply class_of_in.
Qed.

Lemma py_getattr_in h v name r :
  good U h -> val_in U v -> py_getattr h v name = Some r -> val_in U r.
Proof.
  intros Hg Hv. pose proof Hg as (Hm & Hg' & _).
  assert (Hcl : forall c x, cref_in U c -> bind_attr <$> class_lookup h c name = Some x ->
                            val_in U x).
  { intros c x Hc Hx. destruct (class_lookup h c name) as [y|] eqn:Hy; [|discriminate].
    injection Hx as <-. apply bind_attr_in. eapply class_lookup_in; eassumption. }
  destruct v; simpl; try (apply Hcl; exact I).
  - destruct (class_lookup h (CB b) name) as [y|] eqn:Hy.
    + intros [= <-]. apply bind_attr_in. eapply class_lookup_in; try eassumption. exact I.
    + apply Hcl. exact I.
  - destruct (h !! l) as [[c a p|k]|] eqn:Hl; try discriminate.
    + destruct (Hg' _ _ Hl Hv) as (Hc & Ha & _).
      destruct (a !! name) as [x|] eqn:Hx.
      * intros [= <-]. eapply Ha; eassumption.
      * now apply Hcl.
    + destruct (class_lookup h (CL l) name) as [y|] eqn:Hy.
      * intros [= <-]. apply bind_attr_in. eapply class_lookup_in; try eassumption. exact Hv.
      * apply Hcl. destruct (c_meta k); simpl; trivial.
Qed.

Lemma payload_of_in h v p :
  good U h -> val_in U v -> payload_of h v = Some p -> payload_in U p.
Proof.
  intros (_ & Hg & _) Hv. destruct v; try discriminate. simpl.
  destruct (h !! l) as [[c a p'|k]|] eqn:Hl; try discriminate.
  intros [= <-]. now destruct (Hg _ _ Hl Hv) as (_ & _ & ?).
Qed.

Lemma assoc_in k items v :
  Forall (fun kv => val_in U (fst kv) /\ val_in U (snd kv)) items ->
  assoc k items = Some v -> val_in U v.
Proof.
  unfold assoc. induction 1 as [|[k' v'] items [_ Hv] _ IH]; simpl; [discriminate|].
  destruct (val_eqb k k'); [now intros [= <-]|exact IH].
Qed.

Lemma py_getitem_in h c k v :
  good U h -> val_in U c -> py_getitem h c k = Ok v -> val_in U v.
Proof.
  intros Hg Hc. unfold py_getitem.
  destruct (payload_of h c) as [p|] eqn:Hp; [|discriminate].
  pose proof (payload_of_in _ _ _ Hg Hc Hp) as Hin.
  destruct p as [|items|items]; try discriminate.
  - destruct (index_of k) as [z|]; [|discriminate].
    destruct (_ && _); [|discriminate].
    destruct (items !! _) as [x|] eqn:Hx; [|discriminate]. intros [= <-].
    simpl in Hin. rewrite Forall_forall in Hin. apply Hin.
    eapply list_elem_of_lookup_2. eassumption.
  - destruct (hashable h k); [|discriminate].
    destruct (assoc k items) as [x|] eqn:Hx; [|discriminate]. intros [= <-].
    eapply assoc_in; eassumption.
Qed.

Lemma py_iter_at_in h v i x :
  good U h -> val_in U v -> py_iter_at h v i = Ok (Some x) -> val_in U x.
Proof.
  intros Hg Hv. unfold py_iter_at.
  assert (Hp : match payload_of h v with
               | Some (PList items) => Ok (items !! i)
               | Some (PDict items) => Ok (items.*1 !! i)
               | _ => Raise TypeError
               end = Ok (Some x) -> val_in U x).
  { destruct (payload_of h v) as [p|] eqn:Hp; [|discriminate].
    pose proof (payload_of_in _ _ _ Hg Hv Hp) as Hin.
    destruct p as [|items|items]; try discriminate; intros [= Hx]; simpl in Hin.
    - rewrite Forall_forall in Hin. apply Hin.
      eapply list_elem_of_lookup_2. eassumption.
    - rewrite list_lookup_fmap in Hx.
      destruct (items !! i) as [[k' v']|] eqn:Hi; [|discriminate]. injection Hx as <-.
      rewrite Forall_forall in Hin.
      apply (Hin (k', v')). eapply list_elem_of_lookup_2. eassumption. }
  destruct v; try exact Hp.
  unfold char_at. destruct (String.get i s); [|discriminate]. now intros [= <-].
Qed.

Lemma py_items_in h v items :
  good U h -> val_in U v -> py_items h v = Ok items ->
  Forall (fun kv => val_in U (fst kv) /\ val_in U (snd kv)) items.
Proof.
  intros Hg Hv. unfold py_items.
  destruct (payload_of h v) as [p|] eqn:Hp.
  - pose proof (payload_of_in _ _ _ Hg Hv Hp) as Hin.
    destruct p; try (destruct (derives_from h v BDict); discriminate).
    now intros [= <-].
  - destruct (derives_from h v BDict); discriminate.
Qed.

End FootprintFacts.

Section FootprintWrites.

Variable U : loc -> bool.

Lemma safe_alloc o : obj_in U o -> safe U (fun l => U l = true) (alloc o).
Proof.
  intros Ho h l h' (Hm & Hg & Hf) H. unfold alloc in H. injection H as <- <-.
  split; [|split].
  - split; [assumption|]. split.
    + intros l o' Hl Hu. destruct (decide (l < List.length h)%nat) as [Hlt|Hge].
      * rewrite lookup_app_l in Hl by assumption. eauto.
      * rewrite lookup_app_r in Hl by lia.
        destruct (l - List.length h)%nat; simpl in Hl; [|discriminate].
        now injection Hl as <-.
    + intros l. rewrite length_app. simpl. intros Hl. apply Hf. lia.
  - split; [rewrite length_app; lia|].
    intros l Hl. destruct (decide (l < List.length h)%nat) as [Hlt|Hge].
    + now apply lookup_app_l.
    + rewrite Hf in Hl by lia. discriminate.
  - apply Hf. lia.
Qed.

Lemma safe_store l o :
  U l = true -> obj_in U o -> safe U (fun _ => True) (store l o).
Proof.
  intros Hl Ho h a h' (Hm & Hg & Hf) H. unfold store in H. injection H as <- <-.
  split; [|split; [|exact I]].
  - split; [assumption|]. split.
    + intros l' o' Hl' Hu. destruct (decide (l = l')) as [<-|Hne].
      * destruct (decide (l < List.length h)%nat) as [Hlt|Hge].
        -- rewrite list_lookup_insert_eq in Hl' by assumption. now injection Hl' as <-.
        -- rewrite list_insert_ge in Hl' by lia. eauto.
      * rewrite list_lookup_insert_ne in Hl' by assumption. eauto.
    + intros l'. rewrite length_insert. apply Hf.
  - split; [rewrite length_insert; lia|].
    intros l' Hl'. apply list_lookup_insert_ne. intros ->. congruence.
Qed.

Lemma dict_in_insert d name x :
  dict_in U d -> val_in U x -> dict_in U (<[name := x]> d).
Proof.
  intros Hd Hx n v. destruct (decide (name = n)) as [->|Hne].
  - rewrite lookup_insert_eq. now intros [= <-].
  - rewrite lookup_insert_ne by assumption. apply Hd.
Qed.

Lemma safe_setattr target name x :
  val_in U target -> val_in U x -> safe U (fun _ => True) (py_setattr target name x).
Proof.
  intros Ht Hx h a h' Hg H. pose proof Hg as (_ & Hg' & _).
  unfold py_setattr in H. destruct target; try discriminate.
  destruct (h !! l) as [[c attrs p|k]|] eqn:Hl; try discriminate.
  - destruct c as [b|c]; [discriminate|].
    destruct (Hg' _ _ Hl Ht) as (Hc & Ha & Hp).
    refine (safe_store l _ Ht _ h a h' Hg H).
    split; [assumption|]. split; [|assumption]. now apply dict_in_insert.
  - destruct (c_heap k); [|discriminate].
    destruct (Hg' _ _ Hl Ht) as (Hc & Ha).
    refine (safe_store l _ Ht _ h a h' Hg H).
    split; [assumption|]. now apply dict_in_insert.
Qed.

Lemma safe_append_call target v :
  val_in U target -> val_in U v -> safe U (fun _ => True) (append_call target v).
Proof.
  intros Ht Hv h a h' Hg H. pose proof Hg as (_ & Hg' & _).
  unfold append_call in H. destruct target; try discriminate.
  destruct (h !! l) as [[c attrs [|items|items]|k]|] eqn:Hl; try discriminate.
  destruct (Hg' _ _ Hl Ht) as (Hc & Ha & Hp).
  refine (safe_store l _ Ht _ h a h' Hg H).
  split; [assumption|]. split; [assumption|]. simpl in *.
  apply Forall_app. split; [assumption|]. now constructor.
Qed.

Lemma assoc_set_in k v items :
  val_in U k -> val_in U v ->
  Forall (fun kv => val_in U (fst kv) /\ val_in U (snd kv)) items ->
  Forall (fun kv => val_in U (fst kv) /\ val_in U (snd kv)) (assoc_set k v items).
Proof.
  intros Hk Hv. induction 1 as [|[k' v'] items [Hk' Hv'] Hi IH]; cbn [assoc_set].
  - constructor; [split; assumption|constructor].
  - destruct (val_eqb k k'); constructor; try assumption; split; assumption.
Qed.

Lemma safe_setitem target k v :
  val_in U target -> val_in U k -> val_in U v ->
  safe U (fun _ => True) (py_setitem target k v).
Proof.
  intros Ht Hk Hv h a h' Hg H. pose proof Hg as (_ & Hg' & _).
  unfold py_setitem in H. destruct target; try discriminate.
  destruct (h !! l) as [[c attrs [|items|items]|cl]|] eqn:Hl; try discriminate.
  - destruct (index_of k) as [z|]; [|discriminate].
    destruct (_ && _); [|discriminate].
    destruct (Hg' _ _ Hl Ht) as (Hc & Ha & Hp).
    refine (safe_store l _ Ht _ h a h' Hg H).
    split; [assumption|]. split; [assumption|]. simpl in *.
    now apply Forall_insert.
  - destruct (hashable h k); [|discriminate].
    destruct (Hg' _ _ Hl Ht) as (Hc & Ha & Hp).
    refine (safe_store l _ Ht _ h a h' Hg H).
    split; [assumption|]. split; [assumption|]. simpl in *.
    now apply assoc_set_in.
Qed.

Lemma safe_new (c : cref) (p : payload) :
  cref_in U c -> payload_in U p ->
  safe U (val_in U) (l <- alloc (HObj c ∅ p) ;; ret (VRef l)).
Proof.
  intros Hc Hp. eapply safe_bind.
  - apply safe_alloc. split; [assumption|]. split; [apply empty_in|assumption].
  - intros l Hl. now apply safe_ret.
Qed.

Lemma safe_instantiate c : cref_in U c -> safe U (val_in U) (instantiate c).
Proof.
  intros Hc. destruct c as [b|l].
  - destruct b; simpl; try apply safe_raise; try (now apply safe_ret);
      apply safe_new; simpl; trivial; constructor.
  - simpl. eapply safe_bind; [apply (safe_reads U (fun _ => True)); trivial|].
    intros ancestors _.
    destruct (bool_decide (CB BType ∈ ancestors)); [apply safe_raise|].
    destruct (bool_decide (CB BList ∈ ancestors));
      [apply safe_new; simpl; trivial; constructor|].
    destruct (bool_decide (CB BDict ∈ ancestors));
      apply safe_new; simpl; trivial; constructor.
Qed.

Lemma safe_new_instance obj_type :
  val_in U obj_type -> safe U (val_in U) (new_instance obj_type).
Proof.
  intros Ht. unfold new_instance.
  eapply safe_bind; [apply (safe_reads U (cref_in U))|].
  - intros h Hg. now apply type_class_in.
  - intros c Hc. now apply safe_instantiate.
Qed.

Lemma safe_obj_target obj_type obj :
  val_in U obj_type -> val_in U obj -> safe U (val_in U) (obj_target obj_type obj).
Proof.
  intros Ht Ho. unfold obj_target.
  destruct (is_none obj); [now apply safe_new_instance|now apply safe_ret].
Qed.

Lemma safe_check_type reg t v : safe U (fun _ => True) (check_type reg t v).
Proof. apply safe_readr. trivial. Qed.

Lemma safe_getattr obj name : val_in U obj -> safe U (val_in U) (getattr obj name).
Proof.
  intros Ho. apply safe_readr. intros h a Hg.
  destruct (py_getattr h obj name) as [x|] eqn:Hx; [|discriminate].
  intros [= <-]. eapply py_getattr_in; eassumption.
Qed.

Lemma safe_for_list {A} (P : A -> Prop) l (body : A -> M unit) :
  Forall P l ->
  (forall x, P x -> safe U (fun _ => True) (body x)) ->
  safe U (fun _ => True) (for_list l body).
Proof.
  intros Hl Hb. induction Hl as [|x l Hx _ IH]; simpl.
  - now apply safe_ret.
  - eapply safe_bind; [apply Hb; exact Hx|]. intros _ _. exact IH.
Qed.

Lemma safe_for_each fuel v (body : value -> M unit) i :
  val_in U v ->
  (forall item, val_in U item -> safe U (fun _ => True) (body item)) ->
  safe U (fun _ => True) (for_each fuel v body i).
Proof.
  intros Hv Hb. revert i. induction fuel as [|fuel IH]; intros i; simpl.
  - apply safe_raise.
  - eapply safe_bind.
    + apply (safe_readr U (fun x => forall item, x = Some item -> val_in U item)).
      intros h a Hg Ha item ->. eapply py_iter_at_in; eassumption.
    + intros [item|] Hx; [|now apply safe_ret].
      eapply safe_bind; [apply Hb; now apply Hx|]. intros _ _. apply IH.
Qed.

End FootprintWrites.

Section FootprintConverters.

Variable U : loc -> bool.
Variable reg : registry.

Lemma list_sub_type_in h obj_type idx t :
  good U h -> val_in U obj_type ->
  list_sub_type h obj_type idx = Some t -> val_in U t.
Proof.
  intros Hg Ht. unfold list_sub_type.
  destruct (py_getattr h obj_type "ftype") as [f|] eqn:Hf.
  - intros [= <-]. eapply py_getattr_in; eassumption.
  - destruct (_ && _); [|discriminate].
    destruct (py_getitem h obj_type _) as [x|] eqn:Hx; [|discriminate].
    intros [= <-]. eapply py_getitem_in; eassumption.
Qed.

Lemma dict_sub_type_in h obj_type k t :
  good U h -> val_in U obj_type ->
  dict_sub_type h obj_type k = Ok (Some t) -> val_in U t.
Proof.
  intros Hg Ht. unfold dict_sub_type.
  destruct (py_getattr h obj_type "ftype") as [f|] eqn:Hf.
  - intros [= <-]. eapply py_getattr_in; eassumption.
  - destruct (is_builtin_instance h obj_type BDict); [|discriminate].
    unfold rbind. destruct (py_contains h obj_type k) as [[|]|]; try discriminate.
    destruct (py_getitem h obj_type k) as [x|] eqn:Hx; [|discriminate].
    intros [= <-]. eapply py_getitem_in; eassumption.
Qed.

Lemma obj_sub_type_ok r v t : obj_sub_type r v = Ok t -> r = Ok (Some t).
Proof.
  unfold obj_sub_type, rbind. destruct r as [[x|]|]; try discriminate.
  - now intros [= <-].
  - destruct v; discriminate.
Qed.

Lemma temporal_to_obj_in val obj r :
  val_in U obj ->
  DateConverter_to_obj val obj = Ok r \/
  DateTimeConverter_to_obj val obj = Ok r \/
  TimeConverter_to_obj val obj = Ok r ->
  val_in U r.
Proof.
  intros Ho H.
  destruct (is_none val) eqn:Hv.
  - unfold DateConverter_to_obj, DateTimeConverter_to_obj, TimeConverter_to_obj in H.
    rewrite Hv in H. destruct H as [H|[H|H]]; now injection H as <-.
  - destruct (is_none obj) eqn:Hn.
    + unfold DateConverter_to_obj, DateTimeConverter_to_obj, TimeConverter_to_obj, rbind in H.
      rewrite Hv, Hn in H.
      destruct H as [H|[H|H]].
      * destruct (parse fmt_date val); [now injection H as <-|discriminate].
      * destruct (parse fmt_datetime val); [now injection H as <-|discriminate].
      * destruct (parse fmt_time val); [now injection H as <-|discriminate].
    + destruct (temporal_to_obj_returns_obj val obj r Hv Hn) as (H1 & H2 & H3).
      destruct H as [H|[H|H]]; [rewrite (H1 H)|rewrite (H2 H)|rewrite (H3 H)]; exact Ho.
Qed.

Section Step.

(** The recursive calls are assumed to respect the region. *)
Variable fuel : nat.
Variable rec : value -> value -> value -> M value.
Hypothesis rec_safe : forall a b c,
  val_in U a -> val_in U b -> val_in U c -> safe U (val_in U) (rec a b c).

Lemma safe_schema_to_obj obj_type val obj :
  val_in U obj_type -> val_in U val -> val_in U obj ->
  safe U (val_in U) (SchemaConverter_to_obj reg rec obj_type val obj).
Proof.
  intros Ht Hv Ho. unfold SchemaConverter_to_obj.
  destruct (is_none val); [now apply safe_ret|].
  eapply safe_bind; [now apply safe_obj_target|]. intros cls_obj Hc.
  eapply safe_bind; [apply (safe_reads U (fun _ => True)); trivial|]. intros names _.
  eapply safe_bind; [|intros _ _; now apply safe_ret].
  apply (safe_for_list U (fun _ => True)); [apply Forall_true; trivial|].
  intros attr_name _. unfold SchemaConverter_to_obj_attr.
  eapply safe_bind; [now apply safe_getattr|]. intros attr_type Hat.
  destruct (_ && _); [|now apply safe_ret].
  eapply safe_bind; [apply (safe_readr U (fun _ => True)); trivial|]. intros present _.
  destruct present; [|now apply safe_ret].
  eapply safe_bind.
  { apply (safe_readr U (val_in U)). intros h a Hg Ha. exact (py_getitem_in U _ _ _ _ Hg Hv Ha). }
  intros flat_val Hf.
  eapply safe_bind.
  { apply (safe_reads U (val_in U)). intros h Hg.
    destruct (py_getattr h cls_obj attr_name) as [x|] eqn:Hx; [|exact I].
    exact (py_getattr_in U _ _ _ _ Hg Hc Hx). }
  intros sub_obj Hs.
  eapply safe_bind; [now apply rec_safe|]. intros conv Hcv.
  eapply safe_bind; [apply safe_check_type|]. intros _ _.
  now apply safe_setattr.
Qed.

Lemma safe_list_to_obj obj_type val obj :
  val_in U obj_type -> val_in U val -> val_in U obj ->
  safe U (val_in U) (TypedListConverter_to_obj reg fuel rec obj_type val obj).
Proof.
  intros Ht Hv Ho. unfold TypedListConverter_to_obj.
  destruct (is_none val); [now apply safe_ret|].
  eapply safe_bind; [now apply safe_obj_target|]. intros cls_obj Hc.
  eapply safe_bind; [|intros _ _; now apply safe_ret].
  apply safe_for_each; [assumption|]. intros item Hi.
  assert (Hsub : safe U (val_in U)
            (readr (fun h => obj_sub_type (Ok (list_sub_type h obj_type 0)) item))).
  { apply safe_readr. intros h a Hg Ha. apply obj_sub_type_ok in Ha.
    injection Ha as Ha. exact (list_sub_type_in _ _ _ _ Hg Ht Ha). }
  eapply safe_bind; [exact Hsub|]. intros sub_type Hst.
  eapply safe_bind; [now apply rec_safe|]. intros ret_item Hr.
  eapply safe_bind; [exact Hsub|]. intros sub_type' Hst'.
  eapply safe_bind; [apply safe_check_type|]. intros _ _.
  eapply safe_bind; [apply (safe_readr U (fun _ => True)); trivial|]. intros _ _.
  now apply safe_append_call.
Qed.

Lemma safe_dict_to_obj obj_type val obj :
  val_in U obj_type -> val_in U val -> val_in U obj ->
  safe U (val_in U) (TypedDictConverter_to_obj reg rec obj_type val obj).
Proof.
  intros Ht Hv Ho. unfold TypedDictConverter_to_obj.
  destruct (is_none val); [now apply safe_ret|].
  eapply safe_bind; [now apply safe_obj_target|]. intros cls_obj Hc.
  eapply safe_bind.
  { apply (safe_readr U (Forall (fun kv => val_in U (fst kv) /\ val_in U (snd kv)))).
    intros h a Hg Ha. exact (py_items_in U _ _ _ Hg Hv Ha). }
  intros items Hitems.
  eapply safe_bind; [|intros _ _; now apply safe_ret].
  apply (safe_for_list U (fun kv => val_in U (fst kv) /\ val_in U (snd kv))); [assumption|].
  intros [k v] [Hk Hvv]. simpl in Hk, Hvv.
  assert (Hsub : safe U (val_in U)
            (readr (fun h => obj_sub_type (dict_sub_type h obj_type k) v))).
  { apply safe_readr. intros h a Hg Ha. apply obj_sub_type_ok in Ha.
    exact (dict_sub_type_in _ _ _ _ Hg Ht Ha). }
  eapply safe_bind; [apply (safe_readr U (fun _ => True)); trivial|]. intros has _.
  eapply safe_bind.
  { instantiate (1 := val_in U). destruct has; [|now apply safe_ret].
    destruct k; try apply safe_raise. now apply safe_getattr. }
  intros sub_obj Hs.
  eapply safe_bind; [exact Hsub|]. intros sub_type Hst.
  eapply safe_bind; [now apply rec_safe|]. intros ret_v Hr.
  eapply safe_bind; [exact Hsub|]. intros sub_type' Hst'.
  eapply safe_bind; [apply safe_check_type|]. intros _ _.
  now apply safe_setitem.
Qed.

Lemma safe_to_obj_impl i obj_type val obj :
  val_in U obj_type -> val_in U val -> val_in U obj ->
  safe U (val_in U) (to_obj_impl reg fuel rec i obj_type val obj).
Proof.
  intros Ht Hv Ho. destruct i; simpl.
  - apply safe_raise.
  - apply safe_lift. intros a Ha. eapply temporal_to_obj_in; eauto.
  - apply safe_lift. intros a Ha. eapply temporal_to_obj_in; eauto.
  - apply safe_lift. intros a Ha. eapply temporal_to_obj_in; eauto.
  - now apply safe_schema_to_obj.
  - now apply safe_list_to_obj.
  - now apply safe_dict_to_obj.
Qed.

Lemma safe_cm_to_obj obj_type val obj :
  val_in U obj_type -> val_in U val -> val_in U obj ->
  safe U (val_in U) (cm_to_obj reg fuel rec obj_type val obj).
Proof.
  intros Ht Hv Ho. unfold cm_to_obj.
  eapply safe_bind; [apply (safe_readr U (fun _ => True)); trivial|]. intros [e|] _.
  - eapply safe_bind; [apply (safe_readr U (fun _ => True)); trivial|]. intros i _.
    now apply safe_to_obj_impl.
  - now apply safe_ret.
Qed.

End Step.

(** [unflatit] writes inside a closed region that holds its arguments. *)
Lemma safe_unflatit n val obj_type obj :
  val_in U val -> val_in U obj_type -> val_in U obj ->
  safe U (val_in U) (unflatit n reg val obj_type obj).
Proof.
  revert val obj_type obj. induction n as [|n IH]; intros val obj_type obj Hv Ht Ho; simpl.
  - apply safe_raise.
  - apply safe_cm_to_obj; auto.
Qed.

End FootprintConverters.

(** ** Merging a partial tree into an existing instance *)

Lemma assoc_snd_in (U : loc -> bool) k items v :
  Forall (fun kv => val_in U (snd kv)) items ->
  assoc k items = Some v -> val_in U v.
Proof.
  unfold assoc. induction 1 as [|[k' v'] its Hv _ IH]; [discriminate|].
  cbn [find]. simpl fst. destruct (val_eqb k k'); [now intros [= <-]|exact IH].
Qed.

Lemma setattr_instance h e c attrs pl name v h' :
  h !! e = Some (HObj c attrs pl) ->
  py_setattr (VRef e) name v h = Ok (tt, h') ->
  h' = <[e := HObj c (<[name := v]> attrs) pl]> h.
Proof.
  intros He H. unfold py_setattr in H. rewrite He in H.
  destruct c; [discriminate|]. unfold store in H. now injection H as <-.
Qed.

Section Merge.

Variable U : loc -> bool.
Variable reg : registry.
Variable n : nat.

(** The existing instance [e], of class [c], and the partial tree at [lp]
    lie outside the region; what they hand to the recursive calls lies
    inside. *)
Variables (e lp : loc) (c : cref) (pl : payload).
Variables (cp : cref) (ap : gmap string value) (items : list (value * value)).
Variable T : value.

Hypothesis e_outside : U e = false.
Hypothesis lp_outside : U lp = false.
Hypothesis lp_not_e : lp <> e.
Hypothesis class_inside : cref_in U c.
Hypothesis type_inside : val_in U T.
Hypothesis items_inside : Forall (fun kv => val_in U (snd kv)) items.

Local Abbreviation merge_inv := (merge_inv U e lp c pl cp ap items).
Local Abbreviation merge_of := (merge_of reg n e items T).
Local Abbreviation merged := (merged reg n e lp items T).
Local Abbreviation step :=
  (SchemaConverter_to_obj_attr reg (unflatit n reg) T (VRef lp) (VRef e)).

Lemma good_insert_outside h l o :
  good U h -> U l = false -> good U (<[l := o]> h).
Proof.
  intros (Hm & Hg & Hf) Hl. split; [assumption|]. split.
  - intros l' o' Hl' Hu. rewrite list_lookup_insert_ne in Hl' by congruence. eauto.
  - intros l'. rewrite length_insert. apply Hf.
Qed.

Lemma contains_key h name :
  h !! lp = Some (HObj cp ap (PDict items)) ->
  py_contains h (VRef lp) (VStr name) = Ok (is_key items name).
Proof. intros Hl. unfold py_contains, payload_of. now rewrite Hl. Qed.

Lemma getitem_key h name flat :
  h !! lp = Some (HObj cp ap (PDict items)) ->
  py_getitem h (VRef lp) (VStr name) = Ok flat ->
  assoc (VStr name) items = Some flat /\ val_in U flat.
Proof.
  intros Hl. unfold py_getitem, payload_of. rewrite Hl. simpl hashable.
  destruct (assoc (VStr name) items) as [x|] eqn:Hx; [|discriminate].
  intros [= <-]. split; [reflexivity|]. eapply assoc_snd_in; eassumption.
Qed.

Lemma sub_obj_inside h attrs name :
  merge_inv h attrs -> is_key items name = true ->
  val_in U (default VNone (py_getattr h (VRef e) name)).
Proof.
  intros (Hg & He & _ & Hin) Hk. simpl. rewrite He.
  destruct (attrs !! name) as [x|] eqn:Hx; [now apply (Hin name)|].
  destruct (class_lookup h c name) as [y|] eqn:Hy; [|exact I].
  apply bind_attr_in. exact (class_lookup_in U _ _ _ _ Hg class_inside Hy).
Qed.

Lemma merge_step h attrs name h' :
  merge_inv h attrs ->
  SchemaConverter_to_obj_attr reg (unflatit n reg) T (VRef lp) (VRef e) name h = Ok (tt, h') ->
  exists attrs',
    merge_inv h' attrs' /\
    (forall name', name' <> name -> attrs' !! name' = attrs !! name') /\
    (is_key items name = false \/ String.prefix "__" name = true -> attrs' = attrs) /\
    (String.prefix "__" name = false -> is_key items name = true -> merge_of h name attrs').
Proof.
  intros Hinv H. pose proof Hinv as (Hg & He & Hp & Hin).
  unfold SchemaConverter_to_obj_attr in H.
  apply bind_ok in H as (t & h1 & Ht & H).
  unfold getattr, readr, lift in Ht.
  destruct (py_getattr h T name) as [t'|] eqn:HT; [|discriminate].
  injection Ht as <- <-.
  destruct (negb (String.prefix "__" name) && negb (ismethod t')) eqn:Hcond.
  2:{ injection H as <-. exists attrs.
      split; [assumption|]. split; [trivial|]. split; [trivial|].
      intros Hpre _. exists t'. split; [assumption|]. intros Hm.
      rewrite Hpre, Hm in Hcond. discriminate. }
  apply bind_ok in H as (present & h1 & Hc & H).
  unfold readr, lift in Hc. rewrite (contains_key _ _ Hp) in Hc. injection Hc as <- <-.
  destruct (is_key items name) eqn:Hk.
  2:{ injection H as <-. exists attrs.
      split; [assumption|]. split; [trivial|]. split; [trivial|]. discriminate. }
  apply bind_ok in H as (flat & h1 & Hf & H).
  unfold readr, lift in Hf.
  destruct (py_getitem h (VRef lp) (VStr name)) as [flat'|] eqn:Hgi; [|discriminate].
  injection Hf as <- <-.
  destruct (getitem_key _ _ _ Hp Hgi) as [Hassoc Hflat].
  apply bind_ok in H as (sub & h1 & Hs & H).
  unfold reads in Hs. injection Hs as <- <-.
  apply bind_ok in H as (v & h2 & Hrec & H).
  assert (Htin : val_in U t') by exact (py_getattr_in U _ _ _ _ Hg type_inside HT).
  pose proof (sub_obj_inside _ _ _ Hinv Hk) as Hsub.
  destruct (safe_unflatit U reg n _ _ _ Hflat Htin Hsub _ _ _ Hg Hrec)
    as (Hg2 & [Hlen Hext] & Hv).
  apply bind_ok in H as ([] & h3 & Hck & H).
  unfold check_type, readr, lift in Hck.
  destruct (cm_check_type h2 reg t' v) as [[]|]; [|discriminate]. injection Hck as <-.
  assert (He2 : h2 !! e = Some (HObj c attrs pl)) by now rewrite (Hext _ e_outside).
  apply (setattr_instance _ _ _ _ _ _ _ _ He2) in H. subst h'.
  assert (Hlt : (e < List.length h2)%nat).
  { apply lookup_lt_is_Some. rewrite (Hext _ e_outside), He. eauto. }
  exists (<[name := v]> attrs). split; [|split; [|split]].
  - split; [now apply good_insert_outside|]. split; [|split].
    + now apply list_lookup_insert_eq.
    + rewrite list_lookup_insert_ne by congruence. now rewrite (Hext _ lp_outside).
    + intros name' v' Hk'. destruct (decide (name = name')) as [<-|Hne].
      * rewrite lookup_insert_eq. now intros [= <-].
      * rewrite lookup_insert_ne by assumption. now apply Hin.
  - intros name' Hne. now apply lookup_insert_ne.
  - intros [Hk'|Hpre]; [discriminate|].
    rewrite Hpre in Hcond. discriminate.
  - intros _ _. exists t'. split; [assumption|]. intros _.
    exists flat', h2, v.
    repeat split; trivial. apply lookup_insert_eq.
Qed.

Lemma for_list_snoc {A} (xs : list A) x (body : A -> M unit) h h1 h2 :
  for_list xs body h = Ok (tt, h1) -> body x h1 = Ok (tt, h2) ->
  for_list (xs ++ [x]) body h = Ok (tt, h2).
Proof.
  revert h. induction xs as [|y xs IH]; intros h H Hx.
  - injection H as <-. cbn [app]. rewrite for_list_cons. unfold bind. now rewrite Hx.
  - cbn [app]. rewrite for_list_cons in *. apply bind_ok in H as ([] & h' & Hy & H).
    unfold bind. rewrite Hy. now apply IH.
Qed.

Lemma merge_loop names : forall before h0 h attrs h',
  for_list before step h0 = Ok (tt, h) ->
  merge_inv h attrs ->
  for_list names step h = Ok (tt, h') ->
  exists attrs',
    merge_inv h' attrs' /\
    (forall name,
       is_key items name = false \/ name ∉ names \/ String.prefix "__" name = true ->
       attrs' !! name = attrs !! name) /\
    (forall name, name ∈ names -> String.prefix "__" name = false ->
                  is_key items name = true -> merged (before ++ names) h0 name attrs').
Proof.
  induction names as [|x names IH]; intros before h0 h attrs h' Hbefore Hinv H.
  - injection H as <-. exists attrs. split; [assumption|]. split; [trivial|].
    intros name Hin. now apply not_elem_of_nil in Hin.
  - rewrite for_list_cons in H. apply bind_ok in H as ([] & h1 & Hstep & H).
    destruct (merge_step _ _ _ _ Hinv Hstep) as (attrs1 & Hinv1 & Hother & Hskip & Hdone).
    destruct (IH (before ++ [x]) h0 _ _ _ (for_list_snoc _ _ _ _ _ _ Hbefore Hstep) Hinv1 H)
      as (attrs2 & Hinv2 & Hframe & Hmerged).
    rewrite <- app_assoc in Hmerged. cbn [app] in Hmerged.
    exists attrs2. split; [assumption|]. split.
    + intros name Hname. rewrite Hframe.
      * destruct Hname as [Hk|[Hnin|Hpre]].
        -- destruct (decide (name = x)) as [->|Hne]; [now rewrite Hskip by now left|].
           now apply Hother.
        -- apply Hother. intros ->. apply Hnin. apply list_elem_of_here.
        -- destruct (decide (name = x)) as [->|Hne]; [now rewrite Hskip by now right|].
           now apply Hother.
      * destruct Hname as [Hk|[Hnin|Hpre]]; [now left| |now right; right].
        right; left. intros Hin. apply Hnin. now apply list_elem_of_further.
    + intros name Hin Hpre Hk.
      destruct (decide (name ∈ names)) as [Hin'|Hnin]; [now apply Hmerged|].
      apply elem_of_cons in Hin as [->|Hin]; [|contradiction].
      exists before, names, h. split; [reflexivity|]. split; [assumption|].
      destruct (Hdone Hpre Hk) as (t & Ht & Hm).
      exists t. split; [assumption|]. intros Hmeth.
      destruct (Hm Hmeth) as (flat & h2 & v & Ha & Hr & Hv).
      exists flat, h2, v. repeat split; trivial.
      rewrite Hframe; [assumption|now right; left].
Qed.

End Merge.

(** *** The check of closedness is sound *)

Lemma val_inb_sound U v : val_inb U v = true -> val_in U v.
Proof. destruct v; simpl; trivial. Qed.

Lemma cref_inb_sound U c : cref_inb U c = true -> cref_in U c.
Proof. destruct c; simpl; trivial. Qed.

Lemma dict_inb_sound U d : dict_inb U d = true -> dict_in U d.
Proof.
  unfold dict_inb. rewrite forallb_forall. intros H name v Hv.
  apply val_inb_sound. apply (H (name, v)).
  apply list_elem_of_In. now apply elem_of_map_to_list.
Qed.

Lemma payload_inb_sound U p : payload_inb U p = true -> payload_in U p.
Proof.
  destruct p as [|items|items]; simpl; trivial; rewrite forallb_forall;
    intros H; apply Forall_forall; intros x Hx; apply list_elem_of_In in Hx.
  - apply val_inb_sound. auto.
  - specialize (H x Hx). apply andb_true_iff in H as [H1 H2].
    split; now apply val_inb_sound.
Qed.

Lemma obj_inb_sound U o : obj_inb U o = true -> obj_in U o.
Proof.
  destruct o as [c a p|k]; simpl.
  - rewrite !andb_true_iff. intros [[Hc Ha] Hp].
    auto using cref_inb_sound, dict_inb_sound, payload_inb_sound.
  - rewrite andb_true_iff. intros [Hm Hd]. split; [|now apply dict_inb_sound].
    rewrite forallb_forall in Hm. apply Forall_forall. intros x Hx.
    apply cref_inb_sound, Hm. now apply list_elem_of_In.
Qed.

Lemma closedb_sound U h :
  U L_MetaBaseFlattyType = true ->
  closedb U h = true ->
  (forall l, (List.length h <= l)%nat -> U l = true) ->
  good U h.
Proof.
  intros Hm Hc Hf. split; [assumption|]. split; [|assumption].
  intros l o Hl Hu. unfold closedb in Hc. rewrite forallb_forall in Hc.
  specialize (Hc (l, o)). simpl in Hc. rewrite Hu in Hc. simpl in Hc.
  apply obj_inb_sound, Hc. apply list_elem_of_In.
  apply list_elem_of_lookup. exists l. apply lookup_zip_with_Some.
  exists l, o. split; [reflexivity|]. split; [|assumption].
  apply lookup_seq. split; [reflexivity|]. eapply lookup_lt_Some; eassumption.
Qed.



Lemma region_merge_good : good region_merge store_merge.
Proof.
  apply closedb_sound; [reflexivity|vm_compute; reflexivity|].
  intros l Hl. change (18 <= l)%nat in Hl. unfold region_merge.
  destruct (Nat.eqb_spec l 14), (Nat.eqb_spec l 15); try lia; reflexivity.
Qed.


(** ** The theorems at concrete inputs *)



(** Registering [DateConverter] for [int] in the store of the module, and
    an attempt to register the integer 5 as a converter. *)
Lemma set_converter_registers_witness :
  set_converter flatty_heap default_registry (VCls BInt) (VInt 5) true
    = (Raise TypeError, default_registry) /\
  exists e,
    reg_get (VCls BInt)
      (snd (set_converter flatty_heap default_registry (VCls BInt)
                          (VRef L_DateConverter) false)) = Some e /\
    e_conv e = VRef L_DateConverter /\ e_exact e = false.
Proof.
  split.
  - apply (proj1 (set_converter_registers flatty_heap default_registry
                    (VCls BInt) (VInt 5) true)). reflexivity.
  - pose proof (set_converter_registers flatty_heap default_registry
                  (VCls BInt) (VRef L_DateConverter) false) as (_ & _ & D).
    apply D. vm_compute. reflexivity.
Defined.

(** * Further properties of the module *)

(** ** [dir] lists every name once *)

Lemma ltb_lt (a b : string) : String.ltb a b = true <-> OrderedTypeEx.String_as_OT.lt a b.
Proof.
  rewrite <- OrderedTypeEx.String_as_OT.cmp_lt.
  unfold String.ltb, OrderedTypeEx.String_as_OT.cmp.
  destruct (String.compare a b); split; congruence.
Qed.

Lemma ltb_trans (a b c : string) :
  String.ltb a b = true -> String.ltb b c = true -> String.ltb a c = true.
Proof.
  rewrite !ltb_lt. apply OrderedTypeEx.String_as_OT.lt_trans.
Qed.

Lemma ltb_irrefl (a : string) : String.ltb a a = false.
Proof.
  unfold String.ltb. pose proof (String.compare_antisym a a) as H.
  destruct (String.compare a a); try reflexivity; discriminate.
Qed.

Lemma ltb_total (a b : string) :
  String.eqb a b = false -> String.ltb a b = false -> String.ltb b a = true.
Proof.
  unfold String.ltb. intros Hne Hlt.
  rewrite String.compare_antisym.
  destruct (String.compare a b) eqn:E; try reflexivity; try discriminate.
  apply String.compare_eq_iff in E. subst b. now rewrite String.eqb_refl in Hne.
Qed.

Lemma insert_name_elem s l x : x ∈ insert_name s l -> x = s \/ x ∈ l.
Proof.
  induction l as [|y l IH]; cbn [insert_name].
  - intros ->%list_elem_of_singleton. now left.
  - destruct (String.eqb s y); [now right|].
    destruct (String.ltb s y).
    + intros [->|H]%elem_of_cons; [now left|now right].
    + intros [->|H]%elem_of_cons; [right; apply list_elem_of_here|].
      destruct (IH H) as [->|H']; [now left|right; now apply list_elem_of_further].
Qed.

Lemma insert_name_increasing s l : increasing l -> increasing (insert_name s l).
Proof.
  induction l as [|y l IH]; cbn [insert_name increasing].
  - intros _. split; [constructor|exact I].
  - intros [Hy Hl]. destruct (String.eqb s y) eqn:Eeq; [now split|].
    destruct (String.ltb s y) eqn:Elt; cbn [increasing].
    + split; [|now split]. apply Forall_cons_2; [assumption|].
      eapply Forall_impl; [exact Hy|]. intros z Hz. now apply (ltb_trans s y z).
    + split; [|now apply IH]. apply Forall_forall. intros z Hz.
      destruct (insert_name_elem _ _ _ Hz) as [->|Hz'].
      * now apply ltb_total.
      * rewrite Forall_forall in Hy. now apply Hy.
Qed.

Lemma increasing_NoDup l : increasing l -> NoDup l.
Proof.
  induction l as [|x l IH]; cbn [increasing]; [constructor|].
  intros [Hx Hl]. constructor; [|now apply IH].
  intros Hin. rewrite Forall_forall in Hx. specialize (Hx x Hin).
  now rewrite ltb_irrefl in Hx.
Qed.

Lemma sort_names_NoDup l : NoDup (sort_names l).
Proof.
  apply increasing_NoDup. unfold sort_names.
  induction l as [|x l IH]; [exact I|]. cbn [foldr]. now apply insert_name_increasing.
Qed.

Lemma py_dir_NoDup h v : NoDup (py_dir h v).
Proof.
  unfold py_dir. destruct v; try apply sort_names_NoDup.
  destruct (h !! l) as [[]|]; try apply sort_names_NoDup. constructor.
Qed.

(** ** Deleting a converter *)

Lemma reg_get_filter k reg :
  reg_get k (filter (fun e => val_eqb k (e_key e) = false) reg) = None.
Proof.
  unfold reg_get. induction reg as [|e reg IH]; [reflexivity|].
  rewrite filter_cons. destruct (decide (val_eqb k (e_key e) = false)) as [He|He].
  - cbn [find]. now rewrite He.
  - exact IH.
Qed.

Lemma reg_get_filter_other k k' reg :
  val_eqb k k' = false ->
  reg_get k' (filter (fun e => val_eqb k (e_key e) = false) reg) = reg_get k' reg.
Proof.
  intros Hne. unfold reg_get. induction reg as [|e reg IH]; [reflexivity|].
  rewrite filter_cons. destruct (decide (val_eqb k (e_key e) = false)) as [He|He].
  - cbn [find]. now rewrite IH.
  - cbn [find]. apply not_false_is_true in He.
    destruct (val_eqb k' (e_key e)) eqn:H'; [|exact IH].
    rewrite val_eqb_sym in H'. now rewrite (val_eqb_trans _ _ _ He H') in Hne.
Qed.

Lemma filter_absent k reg :
  reg_get k reg = None ->
  filter (fun e => val_eqb k (e_key e) = false) reg = reg.
Proof.
  unfold reg_get. induction reg as [|e reg IH]; [reflexivity|].
  cbn [find]. destruct (val_eqb k (e_key e)) eqn:He; [discriminate|].
  intros H. rewrite filter_cons, decide_True by assumption. now rewrite IH.
Qed.

Lemma filter_reg_set k conv exact reg :
  reg_get k reg = None ->
  filter (fun e => val_eqb k (e_key e) = false) (reg_set (mkentry k conv exact) reg) = reg.
Proof.
  unfold reg_get. induction reg as [|e reg IH]; cbn [reg_set find e_key].
  - intros _. rewrite filter_cons, decide_False; [reflexivity|].
    cbn [e_key]. now rewrite val_eqb_refl.
  - destruct (val_eqb k (e_key e)) eqn:He; [discriminate|].
    intros H. rewrite filter_cons, decide_True by assumption. now rewrite IH.
Qed.

(** [del_converter] raises TypeError on a key that cannot be hashed and
    leaves the registry as it was.  Otherwise it succeeds, also when the key
    has no entry: afterwards the key has none, the entries of the other keys
    are as before, and a registry that had no entry for the key is
    unchanged. *)
Theorem del_converter_removes (h : heap) (reg : registry) (conv_type : value) :
  (hashable h conv_type = false ->
     del_converter h reg conv_type = (Raise TypeError, reg)) /\
  (hashable h conv_type = true ->
     let reg' := snd (del_converter h reg conv_type) in
     fst (del_converter h reg conv_type) = Ok tt /\
     reg_get conv_type reg' = None /\
     (forall k, val_eqb conv_type k = false -> reg_get k reg' = reg_get k reg) /\
     (reg_get conv_type reg = None -> reg' = reg)).
Proof.
  unfold del_converter. split; intros ->; [reflexivity|]. cbn [fst snd].
  split; [reflexivity|]. split; [apply reg_get_filter|]. split.
  - intros k Hk. now apply reg_get_filter_other.
  - apply filter_absent.
Qed.

(** Registering a converter for a key that has no entry and deleting it
    again gives the registry back as it was. *)
Theorem set_then_del_converter (h : heap) (reg : registry)
    (conv_type converter : value) (exact : bool) :
  reg_get conv_type reg = None ->
  fst (set_converter h reg conv_type converter exact) = Ok tt ->
  del_converter h (snd (set_converter h reg conv_type converter exact)) conv_type
  = (Ok tt, reg).
Proof.
  intros Hnone. unfold set_converter, del_converter.
  destruct (isclass h converter && _); [|discriminate].
  destruct (hashable h conv_type) eqn:Hh; [|discriminate]. intros _.
  cbn [snd]. f_equal. now apply filter_reg_set.
Qed.

(** [DateConverter] registered for [int] in the default registry and
    deleted again. *)
Lemma set_then_del_converter_witness :
  reg_get (VCls BInt) default_registry = None /\
  del_converter flatty_heap
    (snd (set_converter flatty_heap default_registry (VCls BInt) (VRef L_DateConverter) true))
    (VCls BInt)
  = (Ok tt, default_registry).
Proof.
  split; [reflexivity|].
  apply (set_then_del_converter flatty_heap default_registry
           (VCls BInt) (VRef L_DateConverter) true); vm_compute; reflexivity.
Defined.

(** Deleting the converter of [dict] from the default registry. *)
Lemma del_converter_removes_witness :
  reg_get (VCls BDict) (snd (del_converter flatty_heap default_registry (VCls BDict))) = None /\
  reg_get (VCls BList) (snd (del_converter flatty_heap default_registry (VCls BDict)))
  = Some (mkentry (VCls BList) (VRef L_TypedListConverter) true).
Proof.
  pose proof (proj2 (del_converter_removes flatty_heap default_registry (VCls BDict)) eq_refl)
    as (_ & Hgone & Hother & _).
  split; [exact Hgone|]. now rewrite Hother.
Defined.

(** ** Writes that leave the classes alone *)

(** Two stores that hold the same classes at the same places. *)
Lemma cinfo_insert_obj h l c a p c' a' p' x :
  h !! l = Some (HObj c a p) ->
  cinfo (<[l := HObj c' a' p']> h) x = cinfo h x.
Proof.
  intros Hl. destruct x as [b|l0]; [reflexivity|]. cbn [cinfo].
  destruct (decide (l0 = l)) as [->|Hne].
  - rewrite list_lookup_insert_eq by (now apply lookup_lt_Some in Hl). now rewrite Hl.
  - now rewrite list_lookup_insert_ne by congruence.
Qed.

Lemma class_lookup_ext h h' c name :
  (forall x, cinfo h' x = cinfo h x) ->
  class_lookup h' c name = class_lookup h c name.
Proof.
  intros H. unfold class_lookup.
  replace (mro h' c) with (mro h c) by (unfold mro; now rewrite H).
  generalize (mro h c). intros cs.
  induction cs as [|x cs IH]; [reflexivity|]. now rewrite H, IH.
Qed.

(** Setting an attribute that [hasattr] finds changes no answer of
    [hasattr] on the instance. *)
Lemma hasattr_after_setattr h l c attrs p n v m :
  h !! l = Some (HObj (CL c) attrs p) ->
  py_hasattr h (VRef l) n = true ->
  py_hasattr (<[l := HObj (CL c) (<[n := v]> attrs) p]> h) (VRef l) m
  = py_hasattr h (VRef l) m.
Proof.
  intros Hl Hn. unfold py_hasattr, py_getattr in *.
  rewrite list_lookup_insert_eq by (now apply lookup_lt_Some in Hl).
  rewrite Hl in *.
  rewrite (class_lookup_ext h _ _ _ (fun x => cinfo_insert_obj _ _ _ _ _ _ _ _ x Hl)).
  destruct (decide (n = m)) as [<-|Hne].
  - rewrite lookup_insert_eq. now destruct (attrs !! n), (class_lookup h (CL c) n).
  - now rewrite lookup_insert_ne.
Qed.

Lemma forallb_pointwise {A} (f g : A -> bool) l :
  (forall x, f x = g x) -> forallb f l = forallb g l.
Proof. intros H. induction l as [|x l IH]; [reflexivity|]. cbn [forallb]. now rewrite H, IH. Qed.

Lemma Schema_init_cons self n v kwargs :
  Schema_init self ((n, v) :: kwargs)
  = ((has <- reads (fun h => py_hasattr h self n) ;;
      if has : bool then py_setattr self n v else raise AttributeError) ;;;
     Schema_init self kwargs).
Proof. reflexivity. Qed.

(** [Schema.__init__] on an instance of a class of the store, with
    keywords of the model's scope (no name starts with two underscores):
    when [hasattr] finds every keyword, every keyword is set, in order, and
    nothing else changes; when it misses one, the call raises
    AttributeError. *)
Theorem Schema_init_sets_known_attributes (l : loc) (c : loc)
    (p : payload) (kwargs : list (string * value)) :
  forall (h : heap) (attrs : gmap string value),
  h !! l = Some (HObj (CL c) attrs p) ->
  Forall (fun kv => String.prefix "__" (fst kv) = false) kwargs ->
  Schema_init (VRef l) kwargs h
  = if forallb (fun kv => py_hasattr h (VRef l) (fst kv)) kwargs
    then Ok (tt, <[l := HObj (CL c) (foldl (fun a kv => <[fst kv := snd kv]> a) attrs kwargs) p]> h)
    else Raise AttributeError.
Proof.
  induction kwargs as [|[n v] kwargs IH]; intros h attrs Hl Hscope.
  - cbn [forallb foldl]. unfold Schema_init, for_list, ret. now rewrite list_insert_id.
  - rewrite Schema_init_cons. cbn [forallb foldl fst snd].
    unfold bind at 1. unfold bind at 1. unfold reads.
    destruct (py_hasattr h (VRef l) n) eqn:Hn; [|reflexivity].
    cbn [andb]. unfold py_setattr, store. rewrite Hl.
    assert (Hl' : <[l := HObj (CL c) (<[n := v]> attrs) p]> h !! l
                  = Some (HObj (CL c) (<[n := v]> attrs) p)).
    { apply list_lookup_insert_eq. now apply lookup_lt_Some in Hl. }
    rewrite (IH _ _ Hl') by (now apply Forall_cons_1 in Hscope).
    rewrite list_insert_insert_eq.
    rewrite (forallb_pointwise _ (fun kv => py_hasattr h (VRef l) (fst kv))); [reflexivity|].
    intros [m w]. cbn [fst]. now apply hasattr_after_setattr.
Qed.

(** On [Point(x=3, y=4)]: the keyword [x] is set, the keyword [z] is
    refused. *)
Lemma Schema_init_sets_known_attributes_witness :
  let attrs := dict_of [("x", VInt 3); ("y", VInt 4)] in
  store_point !! 13%nat = Some (HObj (CL 12%nat) attrs PObject) /\
  Schema_init (VRef 13%nat) [("x", VInt 7)] store_point
  = Ok (tt, <[13%nat := HObj (CL 12%nat) (<["x" := VInt 7]> attrs) PObject]> store_point) /\
  Schema_init (VRef 13%nat) [("z", VInt 7)] store_point = Raise AttributeError.
Proof.
  cbv zeta. split; [reflexivity|]. split.
  - rewrite (Schema_init_sets_known_attributes 13 12 PObject [("x", VInt 7)]
               store_point _ eq_refl) by (repeat constructor).
    reflexivity.
  - rewrite (Schema_init_sets_known_attributes 13 12 PObject [("z", VInt 7)]
               store_point _ eq_refl) by (repeat constructor).
    reflexivity.
Defined.

(** ** The default registry on a store that begins with the module's classes *)

Lemma flatty_lookup ext l o :
  flatty_heap !! l = Some o -> (flatty_heap ++ ext) !! l = Some o.
Proof. apply lookup_app_l_Some. Qed.

(** With the default registry the second loop asks [issubclass] about
    [Schema] only, which does not raise: resolution ends with one of the
    eight entries or with none. *)
Lemma resolve_default ext c :
  exists r, resolve (flatty_heap ++ ext) default_registry c = Ok r /\
            match r with Some e => e ∈ default_registry | None => True end.
Proof.
  unfold resolve.
  destruct (find (exact_match (flatty_heap ++ ext) c) default_registry) as [e|] eqn:F.
  - exists (Some e). split; [reflexivity|].
    apply find_some in F as [F _]. now apply list_elem_of_In.
  - unfold default_registry. cbn [subtype_scan e_exact e_key].
    unfold as_class. rewrite (flatty_lookup ext L_Schema _ eq_refl).
    unfold issubclass, has_meta, cinfo. rewrite (flatty_lookup ext L_Schema _ eq_refl).
    cbn [c_meta].
    destruct (bool_decide (CL L_Schema ∈ mro (flatty_heap ++ ext) c)).
    + eexists. split; [reflexivity|]. rewrite !elem_of_cons. tauto.
    + now exists None.
Qed.

(** The converters of the default registry are the six of the module that
    implement the three methods. *)
Lemma default_converters ext e :
  e ∈ default_registry ->
  exists i, i <> IBase /\
    conv_method (flatty_heap ++ ext) (e_conv e) "to_flat" MFlat = Ok i /\
    conv_method (flatty_heap ++ ext) (e_conv e) "to_obj" MObj = Ok i.
Proof.
  unfold default_registry. intros H.
  repeat (apply elem_of_cons in H as [->|H]);
    [..|now apply elem_of_nil in H];
    eexists; (split; [|split; vm_compute; reflexivity]); discriminate.
Qed.

(** None is flattened to None and unflattened to None, whatever the
    declared type, the value to merge into and the store. *)
Theorem none_is_kept (ext : heap) (n : nat) (obj_type val obj : value) :
  let h := flatty_heap ++ ext in
  flatit (S n) default_registry VNone obj_type val h = Ok (VNone, h) /\
  unflatit (S n) default_registry VNone obj_type obj h = Ok (VNone, h).
Proof.
  cbv zeta. split.
  - cbn [flatit]. unfold bind at 1. unfold reads. unfold cm_to_flat, bind at 1, readr.
    destruct (resolve_default ext (type_class (flatty_heap ++ ext)
      (if is_none obj_type then cref_val (class_of (flatty_heap ++ ext) VNone) else obj_type)))
      as (r & -> & Hr).
    cbn [lift]. destruct r as [e|]; [|reflexivity].
    destruct (default_converters ext e Hr) as (i & Hi & Hflat & _).
    unfold bind, readr. rewrite Hflat. cbn [lift].
    now destruct i.
  - cbn [unflatit]. unfold cm_to_obj, bind at 1, readr.
    destruct (resolve_default ext (type_class (flatty_heap ++ ext) obj_type)) as (r & -> & Hr).
    cbn [lift]. destruct r as [e|]; [|reflexivity].
    destruct (default_converters ext e Hr) as (i & Hi & _ & Hobj).
    unfold bind, readr. rewrite Hobj. cbn [lift].
    now destruct i.
Qed.

(** ** [Schema.unflatit] *)

Lemma resolve_dict ext :
  resolve (flatty_heap ++ ext) default_registry (CB BDict)
  = Ok (Some (mkentry (VCls BDict) (VRef L_TypedDictConverter) true)).
Proof. vm_compute. reflexivity. Qed.

Lemma resolve_NoneType ext :
  resolve (flatty_heap ++ ext) default_registry (CB BNoneType) = Ok None.
Proof. vm_compute. reflexivity. Qed.

Lemma conv_method_dict ext :
  conv_method (flatty_heap ++ ext) (VRef L_TypedDictConverter) "to_obj" MObj = Ok ITypedDict.
Proof. vm_compute. reflexivity. Qed.

(** An attribute of an ancestor is an attribute of the class. *)
Lemma class_lookup_ancestor h c x k name v :
  x ∈ mro h c -> cinfo h x = Some k -> c_dict k !! name = Some v ->
  class_lookup h c name <> None.
Proof.
  unfold class_lookup. generalize (mro h c). intros cs Hx Hk Hv.
  induction cs as [|y cs IH]; [now apply elem_of_nil in Hx|].
  destruct (cinfo h y ≫= (fun k => c_dict k !! name)) eqn:E; [discriminate|].
  apply elem_of_cons in Hx as [->|Hx]; [|now apply IH].
  rewrite Hk in E. cbn in E. congruence.
Qed.

(** A class without an attribute [items] does not derive from [dict]. *)
Lemma no_items_no_dict h l k :
  h !! l = Some (HClass k) ->
  py_hasattr h (VRef l) "items" = false ->
  CB BDict ∉ mro h (CL l).
Proof.
  intros Hl Hno Hin. unfold py_hasattr, py_getattr in Hno. rewrite Hl in Hno.
  destruct (class_lookup h (CL l) "items") eqn:E; [discriminate|].
  now apply (class_lookup_ancestor h (CL l) (CB BDict) (builtin_info BDict)
               "items" (VBuiltinFn "items")) in E.
Qed.

(** [Schema.unflatit(flat_dict, cm)] hands the class to [unflatit] as the
    value and the tree as the declared type.  So for a tree that is a dict
    the converter of [dict] is called with the class as its value and fails
    on [val.items()]; for the tree None the class itself comes back.  No
    instance is built. *)
Theorem Schema_unflatit_builds_no_instance (ext : heap) (n : nat)
    (lc ld : loc) (k : pyclass) (a : gmap string value) (items : list (value * value)) :
  let h := flatty_heap ++ ext in
  h !! lc = Some (HClass k) ->
  py_hasattr h (VRef lc) "items" = false ->
  h !! ld = Some (HObj (CB BDict) a (PDict items)) ->
  Schema_unflatit (S n) default_registry (VRef lc) (VRef ld) h = Raise AttributeError /\
  Schema_unflatit (S n) default_registry (VRef lc) VNone h = Ok (VRef lc, h).
Proof.
  cbv zeta. intros Hc Hno Hd. unfold Schema_unflatit. cbn [unflatit]. split.
  - unfold cm_to_obj, bind at 1, readr.
    unfold type_class, as_class, class_of. rewrite Hd.
    rewrite resolve_dict. cbn [lift e_conv].
    unfold bind at 1. unfold readr. rewrite conv_method_dict. cbn [lift to_obj_impl].
    unfold TypedDictConverter_to_obj. cbn [is_none].
    unfold bind at 1. unfold obj_target. cbn [is_none].
    unfold new_instance, bind at 1, reads, type_class, as_class, class_of. rewrite Hd.
    cbn [instantiate]. unfold bind at 1. unfold alloc, ret.
    unfold bind at 1. unfold readr, py_items, payload_of.
    rewrite (lookup_app_l_Some _ _ _ _ Hc).
    unfold derives_from, as_class. rewrite (lookup_app_l_Some _ _ _ _ Hc).
    rewrite bool_decide_eq_false_2; [reflexivity|].
    intros Hin. apply (no_items_no_dict _ _ _ Hc Hno).
    revert Hin. unfold mro, cinfo. now rewrite (lookup_app_l_Some _ _ _ _ Hc), Hc.
  - unfold cm_to_obj, bind at 1, readr. unfold type_class, as_class, class_of.
    now rewrite resolve_NoneType.
Qed.

(** On the class [Point] and the tree [{'x': 3, 'y': 4}]. *)
Lemma Schema_unflatit_builds_no_instance_witness :
  let tree := HObj (CB BDict) ∅ (PDict [(VStr "x", VInt 3); (VStr "y", VInt 4)]) in
  Schema_unflatit 3 default_registry (VRef 12%nat) (VRef 14%nat) (store_point ++ [tree])
  = Raise AttributeError /\
  Schema_unflatit 3 default_registry (VRef 12%nat) VNone (store_point ++ [tree])
  = Ok (VRef 12%nat, store_point ++ [tree]).
Proof.
  cbv zeta.
  exact (Schema_unflatit_builds_no_instance
           (drop 12 store_point ++
            [HObj (CB BDict) ∅ (PDict [(VStr "x", VInt 3); (VStr "y", VInt 4)])])
           2 12 14 _ ∅ _ eq_refl eq_refl eq_refl).
Defined.

(** ** Temporal values in place of their text *)

(** [to_obj] parses [str(val)].  So a [date] given in place of its text
    comes back as an equal date; a [datetime] is refused by the converters
    of [date] and of [datetime], since [str] puts a space between date and
    time; a [time] is read back unless its microsecond is zero. *)
Theorem temporal_value_in_place_of_text (d : date) (t : time) :
  valid_date d = true -> valid_time t = true ->
  DateConverter_to_obj (VDate d) VNone = Ok (VDate d) /\
  DateConverter_to_obj (VDateTime (mkdatetime d t)) VNone = Raise ValueError /\
  DateTimeConverter_to_obj (VDateTime (mkdatetime d t)) VNone = Raise ValueError /\
  TimeConverter_to_obj (VTime t) VNone
    = (if Z.eqb (t_micro t) 0 then Raise ValueError else Ok (VTime t)).
Proof.
  intros Hd Ht.
  unfold DateConverter_to_obj, DateTimeConverter_to_obj, TimeConverter_to_obj, parse, rbind.
  cbn [is_none py_text]. split; [|split; [|split]].
  - now rewrite strptime_date.
  - unfold strptime, datetime_isoformat. cbn [dt_date dt_time].
    rewrite <- (app_nil_r fmt_date), rmatch_date by (trivial; now left).
    now rewrite append_lit.
  - unfold strptime, datetime_isoformat, fmt_datetime. cbn [dt_date dt_time].
    rewrite rmatch_date; [|trivial|].
    + now rewrite append_lit.
    + right. intros acc' a r Ha. now apply rmatch_lit_digit.
  - unfold time_isoformat. destruct (Z.eqb (t_micro t) 0).
    + unfold strptime. now rewrite (proj2 (rmatch_time t tm_default Ht)).
    + change (time_hms t ++ "." ++ zpad 6 (t_micro t))%string with (time_strftime t).
      now rewrite strptime_time.
Qed.

(** At 2024-03-05 and 10:20:30. *)
Lemma temporal_value_in_place_of_text_witness :
  let d := mkdate 2024 3 5 in let t := mktime 10 20 30 0 in
  valid_date d = true /\ valid_time t = true /\
  DateConverter_to_obj (VDate d) VNone = Ok (VDate d) /\
  DateTimeConverter_to_obj (VDateTime (mkdatetime d t)) VNone = Raise ValueError /\
  TimeConverter_to_obj (VTime t) VNone = Raise ValueError.
Proof.
  cbv zeta. split; [reflexivity|]. split; [reflexivity|].
  pose proof (temporal_value_in_place_of_text (mkdate 2024 3 5) (mktime 10 20 30 0)
                eq_refl eq_refl) as (H1 & _ & H3 & H4).
  split; [exact H1|]. split; [exact H3|exact H4].
Defined.

(** ** What a call only adds to the store *)

Lemma instantiate_grows c h v h' :
  instantiate c h = Ok (v, h') -> exists new, h' = h ++ new.
Proof.
  destruct c as [b|l]; cbn [instantiate]; unfold bind, reads, alloc, ret, raise.
  - destruct b; intros [= <- <-] || discriminate;
      first [now exists [] ; rewrite app_nil_r | now eexists].
  - repeat match goal with |- context [if ?b then _ else _] => destruct b end;
      intros [= <- <-] || discriminate; now eexists.
Qed.

Lemma obj_target_grows obj_type obj h v h' :
  obj_target obj_type obj h = Ok (v, h') -> exists new, h' = h ++ new.
Proof.
  unfold obj_target. destruct (is_none obj).
  - unfold new_instance, bind, reads. apply instantiate_grows.
  - intros [= <- <-]. exists []. now rewrite app_nil_r.
Qed.

(** ** Keys that are not strings *)

Lemma for_list_raises {A} (P : A -> Prop) (body : A -> M unit) l :
  (forall x h, P x -> exists e, body x h = Raise e) ->
  Exists P l -> forall h r, for_list l body h <> Ok r.
Proof.
  intros Hbody Hex. induction Hex as [x l Hx|x l _ IH]; intros h r;
    rewrite for_list_cons; unfold bind.
  - destruct (Hbody x h Hx) as [e ->]. discriminate.
  - destruct (body x h) as [[[] h1]|e]; [apply IH|discriminate].
Qed.

(** [TypedDictConverter.to_obj] asks [hasattr(cls_obj, k)] for every key
    [k] of the tree, and [hasattr] takes a string only.  So a tree with a
    key that is not a string is never unflattened, whatever the declared
    element type and the object to merge into, although flattening produces
    such trees from dicts with such keys. *)
Theorem dict_key_must_be_a_string (reg : registry) (n : nat) (h : heap)
    (T obj : value) (en : entry) (lv : loc) (c : cref) (a : gmap string value)
    (items : list (value * value)) :
  resolve h reg (type_class h T) = Ok (Some en) ->
  conv_method h (e_conv en) "to_obj" MObj = Ok ITypedDict ->
  h !! lv = Some (HObj c a (PDict items)) ->
  Exists (fun kv => forall s, fst kv <> VStr s) items ->
  forall r, unflatit n reg (VRef lv) T obj h <> Ok r.
Proof.
  intros Hres Hconv Hlv Hex r. destruct n as [|n]; [discriminate|]. cbn [unflatit].
  unfold cm_to_obj, bind at 1, readr. rewrite Hres. cbn [lift].
  unfold bind at 1. unfold readr. rewrite Hconv. cbn [lift to_obj_impl].
  unfold TypedDictConverter_to_obj. cbn [is_none].
  unfold bind at 1. destruct (obj_target T obj h) as [[cls_obj h1]|e] eqn:Ht; [|discriminate].
  apply obj_target_grows in Ht as [new ->].
  unfold bind at 1. unfold readr, py_items, payload_of.
  rewrite (lookup_app_l_Some _ _ _ _ Hlv). cbn [lift].
  unfold bind at 1.
  match goal with
  | |- context [for_list items ?body ?h1] =>
      destruct (for_list items body h1) as [[[] h2]|e] eqn:Hloop; [|discriminate]
  end.
  exfalso. revert Hloop. refine (for_list_raises _ _ _ _ Hex _ _).
  intros [k v] h0 Hk. cbn [fst] in Hk. unfold bind, readr, py_hasattr_val.
  destruct k; try (now eexists). now destruct (Hk s).
Qed.

(** The tree [{1: 'a'}] with the declared type [dict]. *)
Lemma dict_key_must_be_a_string_witness :
  let h := flatty_heap ++ [HObj (CB BDict) ∅ (PDict [(VInt 1, VStr "a")])] in
  exists e, unflatit 5 default_registry (VRef 12%nat) (VCls BDict) VNone h = Raise e.
Proof.
  cbv zeta.
  destruct (unflatit 5 default_registry (VRef 12%nat) (VCls BDict) VNone
              (flatty_heap ++ [HObj (CB BDict) ∅ (PDict [(VInt 1, VStr "a")])]))
    as [r|e] eqn:E; [exfalso|now exists e].
  revert E.
  apply (dict_key_must_be_a_string default_registry 5 _ (VCls BDict) VNone
           (mkentry (VCls BDict) (VRef L_TypedDictConverter) true)
           12 (CB BDict) ∅ [(VInt 1, VStr "a")]).
  - vm_compute. reflexivity.
  - vm_compute. reflexivity.
  - reflexivity.
  - apply Exists_cons_hd. intros s. discriminate.
Defined.

(** ** The check of None *)

Lemma issubclass_NoneType h c :
  has_meta h c = false -> c <> CB BNoneType -> c <> CB BObject ->
  issubclass h (CB BNoneType) c = Ok false.
Proof.
  intros Hm H1 H2. unfold issubclass. rewrite Hm. f_equal.
  apply bool_decide_eq_false_2. unfold mro. cbn [cinfo builtin_info c_mro].
  rewrite !elem_of_cons, elem_of_nil. intros [?|[?|[]]]; congruence.
Qed.

Lemma issubclass_NoneType_ok h c : exists b, issubclass h (CB BNoneType) c = Ok b.
Proof.
  unfold issubclass. destruct (has_meta h c); [|now eexists].
  unfold meta_subclasscheck.
  replace (is_metaclass h (CB BNoneType)) with false; [now eexists|].
  symmetry. apply bool_decide_eq_false_2. unfold mro. cbn [cinfo builtin_info c_mro].
  rewrite !elem_of_cons, elem_of_nil. intros [?|[?|[]]]; congruence.
Qed.

Lemma heap_types_lookup h l k :
  heap_types h = true -> h !! l = Some (HClass k) -> c_heap k = true.
Proof.
  unfold heap_types. rewrite forallb_forall. intros H Hl.
  apply (H (HClass k)). apply list_elem_of_In. eapply list_elem_of_lookup_2; eassumption.
Qed.

(** A heap type does not print like a built-in type. *)
Lemma class_str_heap k b : c_heap k = true -> class_str k <> class_str (builtin_info b).
Proof.
  intros Hk. unfold class_str at 1. rewrite Hk.
  assert (Hb : exists s, class_str (builtin_info b) = ("<t" ++ s)%string)
    by (destruct b; eexists; vm_compute; reflexivity).
  destruct Hb as [s ->].
  destruct (String.eqb (c_module k) "__builtin__");
    rewrite !append_cons; intros E; injection E as E; discriminate.
Qed.

(** With the metaclass too, [NoneType] is no subclass of a heap type. *)
Lemma issubclass_NoneType_heap h l k :
  h !! l = Some (HClass k) -> c_heap k = true ->
  issubclass h (CB BNoneType) (CL l) = Ok false.
Proof.
  intros Hl Hk. unfold issubclass.
  destruct (has_meta h (CL l)).
  - unfold meta_subclasscheck.
    replace (is_metaclass h (CB BNoneType)) with false.
    2:{ symmetry. apply bool_decide_eq_false_2. unfold mro. cbn [cinfo builtin_info c_mro].
        rewrite !elem_of_cons, elem_of_nil. intros [?|[?|[]]]; congruence. }
    f_equal. unfold mro, cref_str. cbn [cinfo builtin_info c_mro map existsb].
    rewrite Hl. cbn [fmap option_fmap option_map].
    rewrite !bool_decide_eq_false_2; [reflexivity| |];
      rewrite elem_of_cons, elem_of_nil; intros [[= E]|[]];
      first [exact (class_str_heap k BNoneType Hk (eq_sym E))
            |exact (class_str_heap k BObject Hk (eq_sym E))].
  - reflexivity.
Qed.

Lemma resolve_object ext :
  resolve (flatty_heap ++ ext) default_registry (CB BObject) = Ok None.
Proof. vm_compute. reflexivity. Qed.

Lemma resolve_builtin_not_Schema ext b e :
  resolve (flatty_heap ++ ext) default_registry (CB b) = Ok (Some e) ->
  e_conv e <> VRef L_SchemaConverter.
Proof. destruct b; vm_compute; intros [= <-]; discriminate. Qed.

(** The record converter is found for a class that prints like [Schema]
    or has [Schema] among its ancestors. *)
Lemma resolve_Schema ext c e :
  resolve (flatty_heap ++ ext) default_registry c = Ok (Some e) ->
  e_conv e = VRef L_SchemaConverter ->
  (exists s, cref_str (flatty_heap ++ ext) c = Some s) \/
  CL L_Schema ∈ mro (flatty_heap ++ ext) c.
Proof.
  unfold resolve.
  destruct (find (exact_match (flatty_heap ++ ext) c) default_registry) as [e0|] eqn:F.
  - intros [= ->] _. apply find_some in F as [_ F]. left.
    unfold exact_match in F. destruct (cref_str (flatty_heap ++ ext) c); [eauto|discriminate].
  - unfold default_registry. cbn [subtype_scan e_exact e_key].
    unfold as_class. rewrite (flatty_lookup ext L_Schema _ eq_refl).
    unfold issubclass, has_meta, cinfo. rewrite (flatty_lookup ext L_Schema _ eq_refl).
    cbn [c_meta].
    destruct (bool_decide (CL L_Schema ∈ mro (flatty_heap ++ ext) c)) eqn:B; [|discriminate].
    intros _ _. right. now apply bool_decide_eq_true in B.
Qed.

Lemma conv_method_check_default ext e :
  e ∈ default_registry ->
  conv_method (flatty_heap ++ ext) (e_conv e) "check_type" MCheck
  = Ok (if decide (e_conv e = VRef L_SchemaConverter) then ISchema
        else if decide (e_conv e = VRef L_TypedListConverter) then ITypedList
        else if decide (e_conv e = VRef L_TypedDictConverter) then ITypedDict
        else IBase).
Proof.
  unfold default_registry. intros H.
  repeat (apply elem_of_cons in H as [->|H]);
    [..|now apply elem_of_nil in H]; vm_compute; reflexivity.
Qed.

(** None where a type is declared: the check passes for every declared
    type but a record type that is true in a condition.
    [SchemaConverter.check_type] asks whether [NoneType] is a subclass of
    the record type; the converters of the typed containers let [NoneType]
    pass, those of the temporal types check nothing, [_check_type] lets
    None pass, and a declared type that is false in a condition (None, an
    empty template) is handed to [_check_type] at once. *)
Theorem check_of_None (ext : heap) (T : value) (r : option entry) :
  let h := flatty_heap ++ ext in
  heap_types h = true ->
  resolve h default_registry (type_class h T) = Ok r ->
  cm_check_type h default_registry T VNone
  = match r with
    | Some e => if decide (e_conv e = VRef L_SchemaConverter)
                then (if truthy h T then Raise TypeError else Ok tt)
                else Ok tt
    | None => Ok tt
    end.
Proof.
  cbv zeta. intros Hheap Hres. unfold cm_check_type.
  assert (Hnone : forall t, _check_type (flatty_heap ++ ext) VNone t = Ok tt).
  { intros t. unfold _check_type. cbn [is_none]. now rewrite orb_true_r. }
  destruct (truthy (flatty_heap ++ ext) T) eqn:Htruthy.
  2:{ rewrite Hnone. destruct r as [e|]; [|reflexivity]. now destruct (decide _). }
  rewrite Hres. cbn [rbind].
  destruct r as [e|]; [|apply Hnone].
  destruct (resolve_default ext (type_class (flatty_heap ++ ext) T)) as (r' & Hr' & He).
  rewrite Hres in Hr'. injection Hr' as <-.
  rewrite (conv_method_check_default ext e He). cbn [rbind].
  destruct (decide (e_conv e = VRef L_SchemaConverter)) as [Hs|Hs].
  - cbn [check_type_impl]. unfold SchemaConverter_check_type. cbn [class_of].
    destruct (type_class (flatty_heap ++ ext) T) as [b|l] eqn:HT.
    + now destruct (resolve_builtin_not_Schema ext b e Hres).
    + destruct (cinfo (flatty_heap ++ ext) (CL l)) as [k|] eqn:Hc.
      * assert (Hl : (flatty_heap ++ ext) !! l = Some (HClass k)).
        { unfold cinfo in Hc.
          destruct ((flatty_heap ++ ext) !! l) as [[]|]; try discriminate.
          now injection Hc as ->. }
        now rewrite (issubclass_NoneType_heap _ _ _ Hl (heap_types_lookup _ _ _ Hheap Hl)).
      * exfalso. destruct (resolve_Schema ext _ _ Hres Hs) as [[s Hstr]|Hin].
        -- unfold cref_str in Hstr. rewrite Hc in Hstr. discriminate.
        -- unfold mro in Hin. rewrite Hc in Hin.
           apply elem_of_cons in Hin as [[= <-]|Hin]; [|now apply elem_of_nil in Hin].
           unfold cinfo in Hc. now rewrite (flatty_lookup ext L_Schema _ eq_refl) in Hc.
  - assert (Hb3 : forall b, b || class_eq (flatty_heap ++ ext)
                                  (cref_val (class_of (flatty_heap ++ ext) VNone))
                                  (VCls BNoneType) = true).
    { intros b. rewrite orb_true_iff. right. reflexivity. }
    repeat destruct (decide _); cbn [check_type_impl]; try reflexivity;
      unfold TypedListConverter_check_type, TypedDictConverter_check_type,
             container_check_type;
      cbn [class_of];
      destruct (issubclass_NoneType_ok (flatty_heap ++ ext)
                  (type_class (flatty_heap ++ ext) T)) as [b1 ->]; cbn [rbind];
      destruct b1; cbn [rbind]; try reflexivity.
Qed.

(** In the store of [Point]: None fails the check against [Point] and
    passes the check against [list], against [TypedList] and against None. *)
Lemma check_of_None_witness :
  cm_check_type store_point default_registry (VRef 12%nat) VNone = Raise TypeError /\
  cm_check_type store_point default_registry (VCls BList) VNone = Ok tt /\
  cm_check_type store_point default_registry (VRef L_TypedList) VNone = Ok tt /\
  cm_check_type store_point default_registry VNone VNone = Ok tt.
Proof.
  split; [|split; [|split]].
  - exact (check_of_None (drop 12 store_point) (VRef 12%nat)
             (Some (mkentry (VRef L_Schema) (VRef L_SchemaConverter) false))
             eq_refl eq_refl).
  - exact (check_of_None (drop 12 store_point) (VCls BList)
             (Some (mkentry (VCls BList) (VRef L_TypedListConverter) true))
             eq_refl eq_refl).
  - exact (check_of_None (drop 12 store_point) (VRef L_TypedList)
             (Some (mkentry (VRef L_TypedList) (VRef L_TypedListConverter) true))
             eq_refl eq_refl).
  - exact (check_of_None (drop 12 store_point) VNone None eq_refl eq_refl).
Defined.

(** ** Flattening only adds to the store *)

Lemma adds_refl h : adds h h.
Proof. exists []. now rewrite app_nil_r. Qed.

Lemma adds_trans h1 h2 h3 : adds h1 h2 -> adds h2 h3 -> adds h1 h3.
Proof. intros [n1 ->] [n2 ->]. exists (n1 ++ n2). now rewrite app_assoc. Qed.

Lemma adds_lookup h h' l o : adds h h' -> h !! l = Some o -> h' !! l = Some o.
Proof. intros [new ->]. apply lookup_app_l_Some. Qed.

Lemma adds_of_agree h h' :
  (List.length h <= List.length h')%nat ->
  (forall l, (l < List.length h)%nat -> h' !! l = h !! l) ->
  adds h h'.
Proof.
  intros Hlen Hagree. exists (drop (List.length h) h'). apply list_eq. intros i.
  destruct (decide (i < List.length h)%nat) as [Hi|Hi].
  - rewrite lookup_app_l by assumption. now apply Hagree.
  - rewrite lookup_app_r by lia. rewrite lookup_drop. f_equal. lia.
Qed.

Lemma same_but_refl w h : same_but w h h.
Proof. split; [lia|trivial]. Qed.

Lemma same_but_trans w h1 h2 h3 :
  same_but w h1 h2 -> same_but w h2 h3 -> same_but w h1 h3.
Proof.
  intros [L1 A1] [L2 A2]. split; [lia|]. intros l Hl Hw.
  rewrite A2 by (trivial; lia). now apply A1.
Qed.

Lemma adds_same_but w h h' : adds h h' -> same_but w h h'.
Proof.
  intros [new ->]. split; [rewrite length_app; lia|].
  intros l Hl _. now apply lookup_app_l.
Qed.

Lemma same_but_insert w o h : same_but w h (<[w := o]> h).
Proof.
  split; [now rewrite length_insert|]. intros l _ Hw.
  now apply list_lookup_insert_ne.
Qed.

Lemma dicts_wf_app h new :
  dicts_wf h -> Forall (fun o => wf_obj o = true) new -> dicts_wf (h ++ new).
Proof.
  intros Hwf Hnew l o Hl. apply lookup_app_Some in Hl as [Hl|[_ Hl]]; [now apply (Hwf l)|].
  rewrite Forall_forall in Hnew. apply Hnew. now apply list_elem_of_lookup_2 in Hl.
Qed.

Lemma dicts_wf_insert w o h :
  dicts_wf h -> wf_obj o = true -> dicts_wf (<[w := o]> h).
Proof.
  intros Hwf Ho l o' Hl. destruct (decide (l = w)) as [->|Hne].
  - apply list_lookup_insert_Some in Hl as [(_ & <- & _)|[Hne _]]; [assumption|congruence].
  - rewrite list_lookup_insert_ne in Hl by congruence. now apply (Hwf l).
Qed.

(** *** The keys of a dict after [d[k] = v] *)

Lemma assoc_set_keys x k v items :
  existsb (fun kv => val_eqb x (fst kv)) (assoc_set k v items) = true ->
  existsb (fun kv => val_eqb x (fst kv)) items = true \/ val_eqb x k = true.
Proof.
  induction items as [|[k' v'] items IH]; cbn [assoc_set existsb fst].
  - rewrite orb_false_r. now right.
  - destruct (val_eqb k k'); cbn [existsb fst]; [now left|].
    destruct (val_eqb x k'); [now left|]. cbn [orb]. exact IH.
Qed.

Lemma assoc_set_distinct k v items :
  distinct_by fst items = true -> distinct_by fst (assoc_set k v items) = true.
Proof.
  induction items as [|[k' v'] items IH]; cbn [assoc_set distinct_by existsb fst];
    [reflexivity|].
  rewrite andb_true_iff, negb_true_iff. intros [Hk' Hd].
  destruct (val_eqb k k') eqn:E; cbn [distinct_by fst].
  - now rewrite Hk', Hd.
  - rewrite andb_true_iff, negb_true_iff. split; [|now apply IH].
    destruct (existsb _ (assoc_set k v items)) eqn:Ex; [|reflexivity].
    apply assoc_set_keys in Ex as [Ex|Ex]; [congruence|].
    rewrite val_eqb_sym in Ex. congruence.
Qed.

(** *** The two writes of the converters *)

Lemma setitem_at w k v h h' :
  py_setitem (VRef w) k v h = Ok (tt, h') -> dicts_wf h ->
  dicts_wf h' /\ same_but w h h' /\
  (forall k2, absent w k2 h -> val_eqb k2 k = false -> absent w k2 h').
Proof.
  unfold py_setitem, store. intros H Hwf.
  destruct (h !! w) as [[c a [|items|items]|kc]|] eqn:Hw; try discriminate.
  - destruct (index_of k); [|discriminate].
    match type of H with (if ?b then _ else _) = _ => destruct b; [|discriminate] end.
    injection H as <-. split; [now apply dicts_wf_insert|].
    split; [apply same_but_insert|]. intros k2 (c2 & a2 & it2 & Hw2 & _). congruence.
  - destruct (hashable h k); [|discriminate]. injection H as <-.
    split; [|split; [apply same_but_insert|]].
    + apply dicts_wf_insert; [assumption|]. cbn [wf_obj].
      apply assoc_set_distinct. exact (Hwf w _ Hw).
    + intros k2 (c2 & a2 & it2 & Hw2 & Hab) Hne.
      rewrite Hw in Hw2. injection Hw2 as <- <- <-.
      exists c, a, (assoc_set k v items). split.
      * apply list_lookup_insert_eq. now apply lookup_lt_Some in Hw.
      * destruct (existsb _ (assoc_set k v items)) eqn:Ex; [|reflexivity].
        apply assoc_set_keys in Ex as [Ex|Ex]; congruence.
Qed.

Lemma append_at w v h h' :
  append_call (VRef w) v h = Ok (tt, h') -> dicts_wf h ->
  dicts_wf h' /\ same_but w h h'.
Proof.
  unfold append_call, store. intros H Hwf.
  destruct (h !! w) as [[c a [|items|items]|kc]|] eqn:Hw; try discriminate.
  injection H as <-. split; [now apply dicts_wf_insert|apply same_but_insert].
Qed.

Lemma absent_contains w k h b :
  absent w k h -> py_contains h (VRef w) k = Ok b -> b = false.
Proof.
  intros (c & a & items & Hw & Hab). unfold py_contains, payload_of. rewrite Hw.
  destruct (hashable h k); [|discriminate]. intros [= <-]. exact Hab.
Qed.

Lemma absent_same w k h h' :
  absent w k h -> h' !! w = h !! w -> absent w k h'.
Proof. intros (c & a & items & Hw & Hab) E. exists c, a, items. now rewrite E. Qed.

(** *** Computations that only add *)

Lemma tidy_ret {A} (a : A) : tidy (ret a).
Proof. intros h a' h' Hwf [= <- <-]. split; [apply adds_refl|assumption]. Qed.

Lemma tidy_raise {A} e : tidy (raise e : M A).
Proof. intros h a h' _ H. discriminate. Qed.

Lemma tidy_lift {A} (r : res A) : tidy (lift r).
Proof.
  intros h a h' Hwf H. unfold lift in H. destruct r; [|discriminate].
  injection H as <- <-. split; [apply adds_refl|assumption].
Qed.

Lemma tidy_reads {A} (f : heap -> A) : tidy (reads f).
Proof. intros h a h' Hwf [= <- <-]. split; [apply adds_refl|assumption]. Qed.

Lemma tidy_readr {A} (f : heap -> res A) : tidy (readr f).
Proof. intros h a h' Hwf H. unfold readr in H. now apply (tidy_lift (f h) h a h'). Qed.

Lemma tidy_bind {A B} (m : M A) (f : A -> M B) :
  tidy m -> (forall a, tidy (f a)) -> tidy (bind m f).
Proof.
  intros Hm Hf h b h' Hwf H. apply bind_ok in H as (a & h1 & H1 & H2).
  destruct (Hm _ _ _ Hwf H1) as [A1 W1]. destruct (Hf a _ _ _ W1 H2) as [A2 W2].
  split; [now apply (adds_trans h h1 h')|assumption].
Qed.

Lemma tidy_check_type reg t v : tidy (check_type reg t v).
Proof. apply tidy_readr. Qed.

Lemma tidy_getattr obj name : tidy (getattr obj name).
Proof. apply tidy_readr. Qed.

(** *** The loops of the converters *)

Lemma bind_reads {A B} (f : heap -> A) (k : A -> M B) h : bind (reads f) k h = k (f h) h.
Proof. reflexivity. Qed.

Lemma bind_readr {A B} (f : heap -> res A) (k : A -> M B) h b h' :
  bind (readr f) k h = Ok (b, h') -> exists a, f h = Ok a /\ k a h = Ok (b, h').
Proof.
  unfold bind, readr, lift. destruct (f h) as [a|e]; [|discriminate]. now exists a.
Qed.

(** A loop that sets one key of the dict at [w] per element: when the keys
    of the elements differ from each other and from those of the dict, each
    pass finds its key absent. *)
Lemma keyed_loop {A} (key : A -> value) (body : A -> M unit) (w : loc) :
  (forall x h h', dicts_wf h -> absent w (key x) h -> body x h = Ok (tt, h') ->
     dicts_wf h' /\ same_but w h h' /\
     (forall k, absent w k h -> val_eqb k (key x) = false -> absent w k h')) ->
  forall xs h h',
    distinct_by key xs = true -> dicts_wf h ->
    (forall x, x ∈ xs -> absent w (key x) h) ->
    for_list xs body h = Ok (tt, h') ->
    dicts_wf h' /\ same_but w h h'.
Proof.
  intros Hbody. induction xs as [|x xs IH]; intros h h' Hd Hwf Hab H.
  - injection H as <-. split; [assumption|apply same_but_refl].
  - rewrite for_list_cons in H. apply bind_ok in H as ([] & h1 & H1 & H2).
    cbn [distinct_by] in Hd. apply andb_true_iff in Hd as [Hx Hd].
    apply negb_true_iff in Hx.
    destruct (Hbody x h h1 Hwf (Hab x (list_elem_of_here _ _)) H1) as (W1 & S1 & K1).
    destruct (IH h1 h' Hd W1) as [W2 S2]; [|assumption|].
    + intros y Hy. apply K1; [apply Hab; now apply list_elem_of_further|].
      rewrite val_eqb_sym. destruct (val_eqb (key x) (key y)) eqn:E; [|reflexivity].
      rewrite <- not_true_iff_false in Hx. destruct Hx.
      apply existsb_exists. exists y. split; [now apply list_elem_of_In|assumption].
    + split; [assumption|]. now apply (same_but_trans w h h1 h').
Qed.

Lemma for_each_inv (I : heap -> Prop) fuel v (body : value -> M unit) :
  (forall x h h', I h -> body x h = Ok (tt, h') -> I h') ->
  forall i h h', I h -> for_each fuel v body i h = Ok (tt, h') -> I h'.
Proof.
  intros Hbody. induction fuel as [|fuel IH]; intros i h h' Hi H; [discriminate|].
  cbn [for_each] in H. apply bind_readr in H as (x & _ & H).
  destruct x as [item|]; [|now injection H as <-].
  apply bind_ok in H as ([] & h2 & Hb & H). eapply IH; [|exact H].
  eapply Hbody; eassumption.
Qed.

Lemma distinct_names names : NoDup names -> distinct_by VStr names = true.
Proof.
  induction 1 as [|x xs Hx _ IH]; [reflexivity|]. cbn [distinct_by].
  rewrite IH, andb_true_r, negb_true_iff.
  destruct (existsb _ xs) eqn:E; [|reflexivity].
  apply existsb_exists in E as (y & Hy & E). cbn [val_eqb] in E.
  apply bool_decide_eq_true in E. injection E as ->.
  now apply list_elem_of_In in Hy.
Qed.

Section OnlyAdds.

Variable reg : registry.
Variable fuel : nat.
Variable rec : value -> value -> value -> M value.
Hypothesis rec_tidy : forall obj t, tidy (rec obj t VNone).

(** The end of a pass: the element is flattened with nothing to merge
    into, and stored under its key. *)
Lemma flat_store w k obj t h h' :
  dicts_wf h ->
  (x <- rec obj t VNone ;; py_setitem (VRef w) k x) h = Ok (tt, h') ->
  dicts_wf h' /\ same_but w h h' /\
  (forall k2, absent w k2 h -> val_eqb k2 k = false -> absent w k2 h').
Proof.
  intros Hwf H. apply bind_ok in H as (x & h1 & Hx & H).
  destruct (rec_tidy _ _ _ _ _ Hwf Hx) as [A1 W1].
  destruct (setitem_at _ _ _ _ _ H W1) as (W2 & S2 & K2).
  split; [assumption|]. split.
  - eapply same_but_trans; [apply adds_same_but; eassumption|assumption].
  - intros k2 Hab Hne. apply K2; [|assumption].
    eapply absent_same; [eassumption|].
    destruct Hab as (c & a & items & Hw & _). rewrite Hw. now apply (adds_lookup h h1).
Qed.

Lemma new_dict_absent h k :
  absent (List.length h) k (h ++ [HObj (CB BDict) ∅ (PDict [])]).
Proof.
  exists (CB BDict), ∅, []. split; [|reflexivity].
  rewrite lookup_app_r by lia. now rewrite Nat.sub_diag.
Qed.

Lemma adds_after_new h o h' :
  same_but (List.length h) (h ++ [o]) h' -> adds h h'.
Proof.
  intros [Hlen Hag]. rewrite length_app in Hlen, Hag. cbn [List.length] in Hlen, Hag.
  apply adds_of_agree; [lia|]. intros l Hl.
  rewrite Hag by lia. now apply lookup_app_l.
Qed.

Lemma tidy_schema_to_flat obj_type obj :
  tidy (SchemaConverter_to_flat reg rec obj_type obj VNone).
Proof.
  intros h r h' Hwf H. unfold SchemaConverter_to_flat in H.
  destruct (is_none obj); [now apply (tidy_ret VNone h r h')|].
  cbn [flat_target is_none instantiate] in H.
  apply bind_ok in H as (fd & h1 & Hfd & H).
  unfold bind, alloc, ret in Hfd. injection Hfd as <- <-.
  rewrite bind_reads in H. apply bind_ok in H as ([] & h2 & Hloop & H).
  injection H as <- <-.
  assert (Hwf1 : dicts_wf (h ++ [HObj (CB BDict) ∅ (PDict [])])).
  { apply dicts_wf_app; [assumption|]. now repeat constructor. }
  eapply (keyed_loop VStr _ (List.length h)) in Hloop as [W S];
    [split; [now apply (adds_after_new _ _ _ S)|assumption]| |
     apply distinct_names, py_dir_NoDup|exact Hwf1|intros; apply new_dict_absent].
  intros name h0 h0' Hwf0 Hab0 Hb. cbv beta in Hb.
  assert (Hskip : forall hx, ret tt h0 = Ok (tt, hx) ->
            dicts_wf hx /\ same_but (List.length h) h0 hx /\
            (forall k, absent (List.length h) k h0 -> val_eqb k (VStr name) = false ->
                       absent (List.length h) k hx)).
  { intros hx [= <-]. split; [assumption|]. split; [apply same_but_refl|trivial]. }
  rewrite bind_reads in Hb. destruct (py_hasattr h0 obj name); [|now apply Hskip].
  unfold getattr in Hb.
  apply bind_readr in Hb as (attr_value & _ & Hb).
  apply bind_readr in Hb as (attr_type & _ & Hb).
  destruct (negb (String.prefix "__" name) && negb (ismethod attr_value));
    [|now apply Hskip].
  rewrite bind_reads in Hb. unfold check_type in Hb.
  apply bind_readr in Hb as ([] & _ & Hb).
  apply bind_readr in Hb as (present & Hp & Hb).
  apply (absent_contains _ _ _ _ Hab0) in Hp. subst present.
  apply bind_ok in Hb as (sub_val & hs & Hs & Hb). injection Hs as <- <-.
  now apply flat_store in Hb.
Qed.

Lemma tidy_dict_to_flat obj_type obj :
  tidy (TypedDictConverter_to_flat reg rec obj_type obj VNone).
Proof.
  intros h r h' Hwf H. unfold TypedDictConverter_to_flat in H.
  destruct (is_none obj); [now apply (tidy_ret VNone h r h')|].
  cbn [flat_target is_none instantiate] in H.
  apply bind_ok in H as (fd & h1 & Hfd & H).
  unfold bind, alloc, ret in Hfd. injection Hfd as <- <-.
  unfold check_type in H. apply bind_readr in H as ([] & _ & H).
  apply bind_readr in H as (items & Hitems & H).
  apply bind_ok in H as ([] & h2 & Hloop & H). injection H as <- <-.
  assert (Hwf1 : dicts_wf (h ++ [HObj (CB BDict) ∅ (PDict [])])).
  { apply dicts_wf_app; [assumption|]. now repeat constructor. }
  assert (Hd : distinct_by fst items = true).
  { unfold py_items in Hitems.
    destruct (payload_of _ obj) as [[|its|its]|] eqn:Hp;
      try (destruct (derives_from _ _ _); discriminate).
    injection Hitems as <-. unfold payload_of in Hp. destruct obj; try discriminate.
    match type of Hp with
    | context [?hh !! ?ll] => destruct (hh !! ll) as [[c a p|kc]|] eqn:Hl
    end; try discriminate.
    injection Hp as ->. exact (Hwf1 _ _ Hl). }
  eapply (keyed_loop fst _ (List.length h)) in Hloop as [W S];
    [split; [now apply (adds_after_new _ _ _ S)|assumption]| |
     exact Hd|exact Hwf1|intros; apply new_dict_absent].
  intros [k v] h0 h0' Hwf0 Hab0 Hb. cbn [fst] in *.
  apply bind_readr in Hb as (sub_type & _ & Hb).
  unfold check_type in Hb. apply bind_readr in Hb as ([] & _ & Hb).
  apply bind_readr in Hb as (present & Hp & Hb).
  apply (absent_contains _ _ _ _ Hab0) in Hp. subst present.
  apply bind_ok in Hb as (sub_val & hs & Hs & Hb). injection Hs as <- <-.
  apply bind_readr in Hb as (sub_type' & _ & Hb).
  now apply flat_store in Hb.
Qed.

Lemma tidy_list_to_flat obj_type obj :
  tidy (TypedListConverter_to_flat reg fuel rec obj_type obj VNone).
Proof.
  intros h r h' Hwf H. unfold TypedListConverter_to_flat in H.
  destruct (is_none obj); [now apply (tidy_ret VNone h r h')|].
  cbn [flat_target is_none instantiate] in H.
  apply bind_ok in H as (fd & h1 & Hfd & H).
  unfold bind, alloc, ret in Hfd. injection Hfd as <- <-.
  unfold check_type in H. apply bind_readr in H as ([] & _ & H).
  apply bind_ok in H as ([] & h2 & Hloop & H). injection H as <- <-.
  assert (Hwf1 : dicts_wf (h ++ [HObj (CB BList) ∅ (PList [])])).
  { apply dicts_wf_app; [assumption|]. now repeat constructor. }
  apply (for_each_inv
           (fun hx => dicts_wf hx /\
                      same_but (List.length h) (h ++ [HObj (CB BList) ∅ (PList [])]) hx))
    in Hloop as [W S];
    [split; [now apply (adds_after_new _ _ _ S)|assumption]| |
     split; [assumption|apply same_but_refl]].
  intros item h0 h0' [Hwf0 S0] Hb.
  apply bind_readr in Hb as (sub_type & _ & Hb).
  apply bind_readr in Hb as ([] & _ & Hb).
  apply bind_readr in Hb as ([] & _ & Hb).
  apply bind_readr in Hb as (sub_type' & _ & Hb).
  apply bind_ok in Hb as (x & hx & Hx & Hb).
  destruct (rec_tidy _ _ _ _ _ Hwf0 Hx) as [A1 W1].
  destruct (append_at _ _ _ _ Hb W1) as [W2 S2].
  split; [assumption|].
  eapply same_but_trans; [exact S0|].
  eapply same_but_trans; [apply adds_same_but; eassumption|assumption].
Qed.

Lemma tidy_to_flat_impl i obj_type obj :
  tidy (to_flat_impl reg fuel rec i obj_type obj VNone).
Proof.
  destruct i; cbn [to_flat_impl];
    [apply tidy_raise|apply tidy_lift|apply tidy_lift|apply tidy_lift|
     apply tidy_schema_to_flat|apply tidy_list_to_flat|apply tidy_dict_to_flat].
Qed.

Lemma tidy_cm_to_flat obj_type obj :
  tidy (cm_to_flat reg fuel rec obj_type obj VNone).
Proof.
  unfold cm_to_flat. apply tidy_bind; [apply tidy_readr|]. intros [e|]; [|apply tidy_ret].
  apply tidy_bind; [apply tidy_readr|]. intros i. apply tidy_to_flat_impl.
Qed.

End OnlyAdds.

(** [flatit(obj, obj_type)], called with nothing to merge into, changes no
    object of the store: it only adds the containers of the tree it
    returns.  The dicts of the store have pairwise different keys, as the
    dicts of Python have. *)
Theorem flatit_only_adds (n : nat) :
  forall (reg : registry) (obj obj_type r : value) (h h' : heap),
  dicts_wf h ->
  flatit n reg obj obj_type VNone h = Ok (r, h') ->
  (exists new, h' = h ++ new) /\ dicts_wf h'.
Proof.
  induction n as [|n IH]; intros reg obj obj_type r h h' Hwf H; [discriminate|].
  cbn [flatit] in H. rewrite bind_reads in H.
  apply (tidy_cm_to_flat reg (S n) (flatit n reg)) in H; [assumption| |assumption].
  intros o t h0 r0 h0' Hwf0 H0. exact (IH reg o t r0 h0 h0' Hwf0 H0).
Qed.

(** *** A check of well-formedness that computes *)

Lemma dicts_wf_check h : forallb wf_obj h = true -> dicts_wf h.
Proof.
  rewrite forallb_forall. intros H l o Hl. apply H.
  apply list_elem_of_In. now apply list_elem_of_lookup_2 in Hl.
Qed.

(** The instance [foo] of the docstring of [TypedList]: flattening it adds
    the dict and the two containers below it. *)
Lemma flatit_only_adds_witness :
  dicts_wf store_foo /\
  flatit 10 default_registry (VRef 17%nat) VNone VNone store_foo
    = Ok (VRef 18%nat, store_foo ++ flat_foo) /\
  (exists new, store_foo ++ flat_foo = store_foo ++ new) /\
  dicts_wf (store_foo ++ flat_foo).
Proof.
  assert (Hwf : dicts_wf store_foo) by (apply dicts_wf_check; vm_compute; reflexivity).
  assert (Hrun : flatit 10 default_registry (VRef 17%nat) VNone VNone store_foo
                 = Ok (VRef 18%nat, store_foo ++ flat_foo)) by (vm_compute; reflexivity).
  split; [exact Hwf|]. split; [exact Hrun|].
  exact (flatit_only_adds 10 default_registry (VRef 17%nat) VNone (VRef 18%nat)
           store_foo (store_foo ++ flat_foo) Hwf Hrun).
Defined.

(** ** Reads that new instances and dicts do not change *)

Lemma as_class_cinfo h l :
  as_class h (VRef l) = match cinfo h (CL l) with Some _ => Some (CL l) | None => None end.
Proof. cbn [as_class cinfo]. now destruct (h !! l) as [[]|]. Qed.

Section Stable.

(** [h'] holds the classes of [h], and the objects of [h] as they are. *)
Variables h h' : heap.
Hypothesis same_classes : forall x, cinfo h' x = cinfo h x.
Hypothesis same_objects : forall l, (l < List.length h)%nat -> h' !! l = h !! l.

Lemma st_as_class v : as_class h' v = as_class h v.
Proof.
  destruct v; try reflexivity. now rewrite !as_class_cinfo, same_classes.
Qed.

Lemma st_isclass v : isclass h' v = isclass h v.
Proof. unfold isclass. now rewrite st_as_class. Qed.

Lemma st_mro c : mro h' c = mro h c.
Proof. unfold mro. now rewrite same_classes. Qed.

Lemma st_has_meta c : has_meta h' c = has_meta h c.
Proof. unfold has_meta. now rewrite same_classes. Qed.

Lemma st_cref_str c : cref_str h' c = cref_str h c.
Proof. unfold cref_str. now rewrite same_classes. Qed.

Lemma st_meta_subclasscheck c s : meta_subclasscheck h' c s = meta_subclasscheck h c s.
Proof.
  unfold meta_subclasscheck, is_metaclass. rewrite !st_mro, st_cref_str.
  destruct (bool_decide _); [reflexivity|]. do 2 f_equal.
  apply map_ext. intros x. apply st_cref_str.
Qed.

Lemma st_issubclass s c : issubclass h' s c = issubclass h s c.
Proof.
  unfold issubclass. now rewrite st_has_meta, st_meta_subclasscheck, st_mro.
Qed.

Lemma st_exact_match c e : exact_match h' c e = exact_match h c e.
Proof.
  unfold exact_match, key_str. rewrite st_cref_str.
  destruct (e_key e); try reflexivity; rewrite st_as_class;
    destruct (as_class h _); cbn; try reflexivity; now rewrite st_cref_str.
Qed.

Lemma st_subtype_scan c reg : subtype_scan h' c reg = subtype_scan h c reg.
Proof.
  induction reg as [|e reg IH]; [reflexivity|]. cbn [subtype_scan].
  rewrite IH, st_as_class. destruct (e_exact e); [reflexivity|].
  destruct (as_class h (e_key e)); [|reflexivity]. now rewrite st_issubclass.
Qed.

Lemma st_resolve reg c : resolve h' reg c = resolve h reg c.
Proof.
  unfold resolve. rewrite st_subtype_scan.
  replace (find (exact_match h' c) reg) with (find (exact_match h c) reg); [reflexivity|].
  induction reg as [|e reg IH]; [reflexivity|]. cbn [find].
  now rewrite st_exact_match, IH.
Qed.

Lemma st_class_lookup c name : class_lookup h' c name = class_lookup h c name.
Proof. now apply class_lookup_ext. Qed.

Lemma st_name_of v : name_of h' v = name_of h v.
Proof.
  destruct v; try reflexivity; cbn [name_of]; rewrite st_as_class;
    destruct (as_class h _); cbn; try reflexivity; now rewrite same_classes.
Qed.

Lemma st_class_eq a b : class_eq h' a b = class_eq h a b.
Proof.
  unfold class_eq, val_has_meta, meta_eq. rewrite !st_as_class, !st_name_of.
  destruct (as_class h a), (as_class h b); now rewrite ?st_has_meta.
Qed.

Lemma st_class_of v : val_ok h v -> class_of h' v = class_of h v.
Proof.
  destruct v; try reflexivity. cbn [val_ok class_of]. intros Hl.
  now rewrite same_objects.
Qed.

Lemma st_type_class_class t c : as_class h t = Some c -> type_class h' t = c.
Proof. intros H. unfold type_class. now rewrite st_as_class, H. Qed.

Lemma st_py_getattr v name : val_ok h v -> py_getattr h' v name = py_getattr h v name.
Proof.
  intros Hv. destruct v; cbn [py_getattr class_of]; rewrite ?st_class_lookup; try reflexivity.
  cbn [val_ok] in Hv. rewrite same_objects by assumption.
  destruct (h !! l) as [[c a p|kc]|]; rewrite ?st_class_lookup; reflexivity.
Qed.

Lemma st_py_hasattr v name : val_ok h v -> py_hasattr h' v name = py_hasattr h v name.
Proof. intros Hv. unfold py_hasattr. now rewrite st_py_getattr. Qed.

Lemma st_isinstance v c : val_ok h v -> isinstance h' v c = isinstance h v c.
Proof.
  intros Hv. unfold isinstance.
  now rewrite (st_class_of v Hv), st_has_meta, st_meta_subclasscheck, st_mro.
Qed.

(** The check of a value against a declared type that is a class. *)
Lemma st_check_type t v c :
  val_ok h v -> as_class h t = Some c ->
  _check_type h' v t = _check_type h v t.
Proof.
  intros Hv Ht. unfold _check_type.
  rewrite st_class_eq, (st_type_class_class t c Ht).
  replace (type_class h t) with c by (unfold type_class; now rewrite Ht).
  now rewrite st_isinstance.
Qed.

End Stable.

Lemma truthy_class h t c : as_class h t = Some c -> truthy h t = true.
Proof.
  destruct t; try discriminate; [reflexivity|]. cbn [as_class truthy].
  destruct (h !! l) as [[]|]; try discriminate. reflexivity.
Qed.

Lemma as_class_cref_val h t c : as_class h t = Some c -> cref_val c = t.
Proof.
  destruct t; try discriminate; cbn [as_class].
  - now intros [= <-].
  - destruct (h !! l) as [[]|]; try discriminate. now intros [= <-].
Qed.

Lemma conv_method_val_ok h conv name m i :
  conv_method h conv name m = Ok i -> val_ok h conv.
Proof.
  destruct conv; try exact (fun _ => I). cbn [val_ok]. unfold conv_method, py_getattr.
  destruct (h !! l) eqn:Hl; [intros _; now apply lookup_lt_Some in Hl|discriminate].
Qed.

(** A name of [dir] of a class is an attribute of the class. *)
Lemma sort_names_elem x l : x ∈ sort_names l -> x ∈ l.
Proof.
  unfold sort_names. induction l as [|y l IH]; cbn [foldr]; [trivial|].
  intros [->|H]%insert_name_elem; [apply list_elem_of_here|].
  apply list_elem_of_further. now apply IH.
Qed.

Lemma py_dir_getattr h l k name :
  h !! l = Some (HClass k) -> name ∈ py_dir h (VRef l) ->
  exists t, py_getattr h (VRef l) name = Some t.
Proof.
  intros Hl Hin. unfold py_dir in Hin. rewrite Hl in Hin.
  apply sort_names_elem in Hin. unfold class_names in Hin.
  apply list_elem_of_In, in_concat in Hin as (names & Hnames & Hin).
  apply in_map_iff in Hnames as (c' & <- & Hc').
  destruct (cinfo h c') as [k'|] eqn:Hk'; [|destruct Hin].
  apply list_elem_of_In in Hin. unfold dict_names in Hin.
  apply list_elem_of_fmap in Hin as ([name' v] & -> & Hin). cbn [fst].
  apply elem_of_map_to_list in Hin.
  pose proof (class_lookup_ancestor h (CL l) c' k' name' v
                (proj2 (list_elem_of_In _ _) Hc') Hk' Hin) as Hne.
  unfold py_getattr. rewrite Hl.
  destruct (class_lookup h (CL l) name'); [now eexists|congruence].
Qed.

Lemma assoc_set_absent k v items :
  existsb (fun kv => val_eqb k (fst kv)) items = false ->
  assoc_set k v items = items ++ [(k, v)].
Proof.
  induction items as [|[k' v'] items IH]; cbn [assoc_set existsb fst]; [reflexivity|].
  intros H. apply orb_false_iff in H as [-> H]. now rewrite IH.
Qed.

Lemma for_list_fold {A S} (body : A -> M unit) (st : S -> heap) (f : S -> A -> S)
    (Inv : S -> list A -> Prop) :
  (forall x xs s, Inv s (x :: xs) ->
     body x (st s) = Ok (tt, st (f s x)) /\ Inv (f s x) xs) ->
  forall xs s, Inv s xs -> for_list xs body (st s) = Ok (tt, st (foldl f s xs)).
Proof.
  intros Hstep. induction xs as [|x xs IH]; intros s Hinv; [reflexivity|].
  rewrite for_list_cons. destruct (Hstep x xs s Hinv) as [Hx Hinv'].
  unfold bind. rewrite Hx. cbn [foldl]. now apply IH.
Qed.

(** *** Stores that grew by instances *)

Section Grown.

Variables (h : heap) (new : list hobj).
Hypothesis new_instances : Forall is_instance new.

Lemma grown_classes x : cinfo (h ++ new) x = cinfo h x.
Proof.
  destruct x as [b|l]; [reflexivity|]. cbn [cinfo].
  destruct (decide (l < List.length h)%nat) as [Hl|Hl].
  - now rewrite lookup_app_l.
  - rewrite lookup_app_r by lia. rewrite (lookup_ge_None_2 h l) by lia.
    destruct (new !! (l - List.length h)%nat) as [o|] eqn:Ho; [|reflexivity].
    apply list_elem_of_lookup_2 in Ho. rewrite Forall_forall in new_instances.
    specialize (new_instances o Ho). now destruct o.
Qed.

Lemma grown_objects l : (l < List.length h)%nat -> (h ++ new) !! l = h !! l.
Proof. intros Hl. now apply lookup_app_l. Qed.

Lemma grown_truthy_class t c : as_class h t = Some c -> truthy (h ++ new) t = true.
Proof.
  intros Ht. apply (truthy_class _ t c).
  now rewrite (st_as_class h _ grown_classes).
Qed.

Section Plain.

Variable reg : registry.
Variables t v : value.
Hypothesis is_plain : plain h reg t v.

(** The check of a plain attribute passes. *)
Lemma plain_check : cm_check_type (h ++ new) reg t v = Ok tt.
Proof.
  destruct is_plain as [Hv Ht]. unfold cm_check_type.
  destruct (is_none t) eqn:Hn.
  - destruct t; try discriminate. reflexivity.
  - destruct Ht as (c & Hc & Hres & Hck).
    rewrite (grown_truthy_class t c Hc).
    rewrite (st_type_class_class h _ grown_classes t c Hc).
    rewrite (st_resolve h _ grown_classes), Hres. cbn [rbind].
    rewrite (as_class_cref_val h t c Hc).
    now rewrite (st_check_type h _ grown_classes grown_objects t v c Hv Hc).
Qed.

(** A plain attribute is flattened to itself and unflattened to itself. *)
Lemma plain_flatit n : flatit (S n) reg v t VNone (h ++ new) = Ok (v, h ++ new).
Proof.
  destruct is_plain as [Hv Ht]. cbn [flatit]. rewrite bind_reads.
  unfold cm_to_flat, bind, readr.
  destruct (is_none t) eqn:Hn.
  - destruct Ht as (Hcls & Hres & _).
    rewrite (st_class_of h _ grown_objects v Hv).
    rewrite (st_type_class_class h _ grown_classes _ _ Hcls).
    now rewrite (st_resolve h _ grown_classes), Hres.
  - destruct Ht as (c & Hc & Hres & _).
    rewrite (st_type_class_class h _ grown_classes t c Hc).
    now rewrite (st_resolve h _ grown_classes), Hres.
Qed.

Lemma plain_unflatit n sub : unflatit (S n) reg v t sub (h ++ new) = Ok (v, h ++ new).
Proof.
  destruct is_plain as [Hv Ht]. cbn [unflatit].
  unfold cm_to_obj, bind, readr.
  destruct (is_none t) eqn:Hn.
  - destruct Ht as (_ & _ & Hres). destruct t; try discriminate.
    change (type_class (h ++ new) VNone) with (CB BNoneType).
    now rewrite (st_resolve h _ grown_classes), Hres.
  - destruct Ht as (c & Hc & Hres & _).
    rewrite (st_type_class_class h _ grown_classes t c Hc).
    now rewrite (st_resolve h _ grown_classes), Hres.
Qed.

Lemma plain_no_method : ismethod t = false.
Proof.
  destruct is_plain as [_ Ht]. destruct t; try reflexivity. cbn [is_none] in Ht.
  destruct Ht as (c & Hc & _). discriminate.
Qed.

End Plain.

End Grown.

(** *** Running a chain of steps *)

Lemma bind_ok_eq {A B} (m : M A) (k : A -> M B) h a h1 :
  m h = Ok (a, h1) -> bind m k h = k a h1.
Proof. unfold bind. now intros ->. Qed.

Lemma bind_readr_ok {A B} (f : heap -> res A) (k : A -> M B) h a :
  f h = Ok a -> bind (readr f) k h = k a h.
Proof. unfold bind, readr, lift. now intros ->. Qed.

Lemma foldl_data {A B} (d : A -> bool) (g : A -> B) xs : forall s,
  foldl (fun s x => if d x then s ++ [g x] else s) s xs = s ++ map g (List.filter d xs).
Proof.
  induction xs as [|x xs IH]; intros s; cbn [foldl List.filter map].
  - now rewrite app_nil_r.
  - rewrite IH. destruct (d x); [|reflexivity]. cbn [map]. now rewrite <- app_assoc.
Qed.

Lemma grown_py_dir h new l k :
  Forall is_instance new -> h !! l = Some (HClass k) ->
  py_dir (h ++ new) (VRef l) = py_dir h (VRef l).
Proof.
  intros Hnew Hl. unfold py_dir. rewrite (lookup_app_l_Some _ _ _ _ Hl), Hl.
  unfold class_names. rewrite (st_mro h _ (grown_classes h new Hnew)).
  f_equal. f_equal. apply map_ext. intros c. now rewrite grown_classes.
Qed.

Lemma assoc_flat (gv : string -> value) xs name :
  name ∈ xs -> assoc (VStr name) (map (fun x => (VStr x, gv x)) xs) = Some (gv name).
Proof.
  unfold assoc. induction xs as [|x xs IH]; [now intros ?%elem_of_nil|].
  intros Hin. cbn [map find fst val_eqb].
  destruct (bool_decide (VStr name = VStr x)) eqn:E.
  - apply bool_decide_eq_true in E. now injection E as ->.
  - apply bool_decide_eq_false in E. apply IH.
    apply elem_of_cons in Hin as [->|Hin]; [congruence|assumption].
Qed.

Lemma contains_flat (gv : string -> value) xs name :
  existsb (fun kv => val_eqb (VStr name) (fst kv)) (map (fun x => (VStr x, gv x)) xs)
  = bool_decide (name ∈ xs).
Proof.
  induction xs as [|x xs IH]; cbn [map existsb fst].
  - symmetry. apply bool_decide_eq_false_2. apply not_elem_of_nil.
  - rewrite IH. change (val_eqb (VStr name) (VStr x)) with (bool_decide (VStr name = VStr x)).
    destruct (decide (name = x)) as [->|Hne].
    + rewrite (bool_decide_eq_true_2 (VStr x = VStr x)) by reflexivity.
      symmetry. apply bool_decide_eq_true_2, list_elem_of_here.
    + rewrite (bool_decide_eq_false_2 (VStr name = VStr x)) by congruence.
      cbn [orb]. apply bool_decide_ext. rewrite elem_of_cons. tauto.
Qed.

Lemma instantiate_class l hx :
  CB BType ∉ mro hx (CL l) ->
  instantiate (CL l) hx
  = Ok (VRef (List.length hx), hx ++ [HObj (CL l) ∅ (new_payload (mro hx (CL l)))]).
Proof.
  intros Hno. cbn [instantiate]. rewrite bind_reads.
  rewrite (bool_decide_eq_false_2 _ Hno). unfold new_payload.
  destruct (bool_decide (CB BList ∈ _)); [reflexivity|].
  destruct (bool_decide (CB BDict ∈ _)); reflexivity.
Qed.

Lemma foldl_data_lookup (d : string -> bool) (gv : string -> value) name xs :
  forall a : gmap string value,
  a !! name = Some (gv name) \/ (name ∈ xs /\ d name = true) ->
  foldl (fun a x => if d x then <[x := gv x]> a else a) a xs !! name = Some (gv name).
Proof.
  induction xs as [|x xs IH]; intros a H; cbn [foldl].
  - destruct H as [H|[H _]]; [assumption|now apply elem_of_nil in H].
  - apply IH. destruct (decide (name = x)) as [->|Hne].
    + destruct H as [H|[_ H]].
      * left. destruct (d x); [apply lookup_insert_eq|assumption].
      * left. rewrite H. apply lookup_insert_eq.
    + destruct H as [H|[H Hd]].
      * left. destruct (d x); [now rewrite lookup_insert_ne|assumption].
      * right. split; [|assumption]. apply elem_of_cons in H as [H|H]; [congruence|assumption].
Qed.

Section PlainRecord.

Variable reg : registry.
Variable n : nat.
Variables (h : heap) (lo lt : loc) (k : pyclass) (attrs : gmap string value) (p : payload).
Variable en : entry.

Hypothesis class_there : h !! lt = Some (HClass k).
Hypothesis obj_there : h !! lo = Some (HObj (CL lt) attrs p).
Hypothesis resolved : resolve h reg (CL lt) = Ok (Some en).
Hypothesis flat_method : conv_method h (e_conv en) "to_flat" MFlat = Ok ISchema.
Hypothesis obj_method : conv_method h (e_conv en) "to_obj" MObj = Ok ISchema.
Hypothesis no_metaclass : CB BType ∉ mro h (CL lt).
Hypothesis all_plain : forall name,
  name ∈ py_dir h (VRef lt) -> is_data h (VRef lo) name = true ->
  plain h reg (default VNone (py_getattr h (VRef lt) name))
        (flat_value h (VRef lo) (VRef lt) name).

Local Abbreviation obj := (VRef lo).
Local Abbreviation T := (VRef lt).
Local Abbreviation w := (List.length h).
Local Abbreviation tree := (fun items => HObj (CB BDict) ∅ (PDict items)).

Lemma obj_ok : val_ok h obj.
Proof. cbn [val_ok]. now apply lookup_lt_Some in obj_there. Qed.

Lemma T_ok : val_ok h T.
Proof. cbn [val_ok]. now apply lookup_lt_Some in class_there. Qed.

Lemma tree_instance items : Forall is_instance [tree items].
Proof. now repeat constructor. Qed.

Lemma plain_to_flat :
  SchemaConverter_to_flat reg (flatit (S n) reg) T obj VNone h
  = Ok (VRef w, h ++ [tree (flat_items h obj T)]).
Proof.
  unfold SchemaConverter_to_flat. cbn [is_none flat_target instantiate].
  rewrite (bind_ok_eq _ _ h (VRef w) (h ++ [tree []]) eq_refl).
  rewrite bind_reads, (grown_py_dir h _ lt k (tree_instance []) class_there).
  erewrite bind_ok_eq; [reflexivity|].
  unfold flat_items, data_names.
  rewrite <- (app_nil_l (map _ _)), <- foldl_data.
  eapply (for_list_fold _ (fun items => h ++ [tree items]) _
            (fun items names =>
               NoDup names /\ (forall x, x ∈ names -> x ∈ py_dir h T) /\
               forall x, x ∈ names ->
                 existsb (fun kv => val_eqb (VStr x) (fst kv)) items = false)).
  2:{ split; [apply py_dir_NoDup|]. split; [trivial|reflexivity]. }
  intros name names items (Hnd & Hdir & Habs). cbv beta.
  apply NoDup_cons in Hnd as [Hnew Hnd].
  pose proof (tree_instance items) as Hi.
  pose proof (grown_classes h _ Hi) as GC. pose proof (grown_objects h [tree items]) as GO.
  assert (Hname : name ∈ py_dir h T) by (apply Hdir, list_elem_of_here).
  destruct (py_dir_getattr h lt k name class_there Hname) as [t Ht].
  split.
  - rewrite bind_reads, (st_py_hasattr h _ GC GO obj name obj_ok).
    destruct (is_data h obj name) eqn:Hd; unfold is_data in Hd.
    + apply andb_true_iff in Hd as [Hd Hmeth]. apply andb_true_iff in Hd as [Hhas Hpre].
      rewrite Hhas. unfold py_hasattr in Hhas.
      destruct (py_getattr h obj name) as [v0|] eqn:Hv0; [|discriminate].
      cbn [default from_option id] in Hmeth.
      unfold getattr.
      rewrite (bind_readr_ok _ _ _ v0) by (now rewrite (st_py_getattr h _ GC GO obj name obj_ok), Hv0).
      rewrite (bind_readr_ok _ _ _ t) by (now rewrite (st_py_getattr h _ GC GO T name T_ok), Ht).
      rewrite Hpre, Hmeth. cbn [andb].
      rewrite bind_reads, (st_class_eq h _ GC), (st_isclass h _ GC).
      assert (Hfv : (if class_eq h v0 t && isclass h v0 then VNone else v0)
                    = flat_value h obj T name).
      { unfold flat_value. now rewrite Hv0, Ht. }
      rewrite Hfv.
      assert (Hpl : plain h reg t (flat_value h obj T name)).
      { pose proof (all_plain name Hname) as Hpl. rewrite Ht in Hpl. apply Hpl.
        unfold is_data, py_hasattr. rewrite Hv0. cbn [default from_option id]. now rewrite Hpre, Hmeth. }
      unfold check_type.
      rewrite (bind_readr_ok _ _ _ tt) by (exact (plain_check h _ Hi reg t _ Hpl)).
      assert (Hw : (h ++ [tree items]) !! w = Some (tree items)).
      { rewrite lookup_app_r by lia. now rewrite Nat.sub_diag. }
      rewrite (bind_readr_ok _ _ _ false).
      2:{ unfold py_contains, payload_of. rewrite Hw. cbn [hashable payload_of].
          f_equal. apply Habs, list_elem_of_here. }
      cbv iota. rewrite (bind_ok_eq (ret VNone) _ _ VNone _ eq_refl).
      rewrite (bind_ok_eq _ _ _ _ _ (plain_flatit h _ Hi reg t _ Hpl n)).
      unfold py_setitem, store. rewrite Hw. cbn [hashable payload_of].
      rewrite assoc_set_absent by (apply Habs, list_elem_of_here).
      do 2 f_equal. rewrite insert_app_r_alt by lia. now rewrite Nat.sub_diag.
    + destruct (py_hasattr h obj name) eqn:Hhas; [|reflexivity].
      unfold py_hasattr in Hhas.
      destruct (py_getattr h obj name) as [v0|] eqn:Hv0; [|discriminate].
      cbn [default from_option id andb] in Hd. unfold getattr.
      rewrite (bind_readr_ok _ _ _ v0) by (now rewrite (st_py_getattr h _ GC GO obj name obj_ok), Hv0).
      rewrite (bind_readr_ok _ _ _ t) by (now rewrite (st_py_getattr h _ GC GO T name T_ok), Ht).
      now rewrite Hd.
  - split; [assumption|]. split; [intros x Hx; apply Hdir; now apply list_elem_of_further|].
    intros x Hx.
    assert (Hx0 : existsb (fun kv => val_eqb (VStr x) (fst kv)) items = false)
      by (apply Habs; now apply list_elem_of_further).
    destruct (is_data h obj name); [|assumption].
    rewrite existsb_app, Hx0. cbn [existsb fst val_eqb orb].
    rewrite orb_false_r. apply bool_decide_eq_false_2. intros [= ->]. contradiction.
Qed.

Lemma data_names_elem name :
  name ∈ data_names h obj T <-> name ∈ py_dir h T /\ is_data h obj name = true.
Proof. unfold data_names. rewrite !list_elem_of_In. apply filter_In. Qed.

Local Abbreviation made := (fun a => HObj (CL lt) a (new_payload (mro h (CL lt)))).

Lemma plain_to_obj :
  SchemaConverter_to_obj reg (unflatit (S n) reg) T (VRef w) VNone
    (h ++ [tree (flat_items h obj T)])
  = Ok (VRef (S w),
        h ++ [tree (flat_items h obj T);
              made (foldl (fun a name => if is_data h obj name
                                         then <[name := flat_value h obj T name]> a else a)
                          ∅ (py_dir h T))]).
Proof.
  pose proof (tree_instance (flat_items h obj T)) as Hi.
  pose proof (grown_classes h _ Hi) as GC.
  assert (HT : as_class h T = Some (CL lt)) by (cbn [as_class]; now rewrite class_there).
  unfold SchemaConverter_to_obj. cbn [is_none]. unfold obj_target. cbn [is_none].
  assert (Hnew : new_instance T (h ++ [tree (flat_items h obj T)])
                 = Ok (VRef (S w), h ++ [tree (flat_items h obj T); made ∅])).
  { unfold new_instance. rewrite bind_reads.
    rewrite (st_type_class_class h _ GC T (CL lt) HT).
    rewrite instantiate_class by (rewrite (st_mro h _ GC); exact no_metaclass).
    rewrite (st_mro h _ GC), length_app, Nat.add_1_r, <- app_assoc. reflexivity. }
  rewrite (bind_ok_eq _ _ _ _ _ Hnew).
  assert (Hi2 : forall a, Forall is_instance [tree (flat_items h obj T); made a])
    by (intros a; now repeat constructor).
  rewrite bind_reads, (grown_py_dir h _ lt k (Hi2 ∅) class_there).
  erewrite bind_ok_eq; [reflexivity|].
  eapply (for_list_fold _ (fun a => h ++ [tree (flat_items h obj T); made a]) _
            (fun _ names => forall x, x ∈ names -> x ∈ py_dir h T)); [|trivial].
  intros name names a Hdir. split; [|intros x Hx; apply Hdir; now apply list_elem_of_further].
  assert (Hname : name ∈ py_dir h T) by (apply Hdir, list_elem_of_here).
  destruct (py_dir_getattr h lt k name class_there Hname) as [t Ht].
  pose proof (grown_classes h _ (Hi2 a)) as GC2.
  pose proof (grown_objects h [tree (flat_items h obj T); made a]) as GO2.
  assert (Hw : (h ++ [tree (flat_items h obj T); made a]) !! w
               = Some (tree (flat_items h obj T))).
  { rewrite lookup_app_r by lia. now rewrite Nat.sub_diag. }
  assert (Hsw : (h ++ [tree (flat_items h obj T); made a]) !! S w = Some (made a)).
  { rewrite lookup_app_r by lia. now replace (S w - w)%nat with 1%nat by lia. }
  unfold SchemaConverter_to_obj_attr, getattr.
  rewrite (bind_readr_ok _ _ _ t) by (now rewrite (st_py_getattr h _ GC2 GO2 T name T_ok), Ht).
  assert (Hpresent : py_contains (h ++ [tree (flat_items h obj T); made a]) (VRef w) (VStr name)
                     = Ok (is_data h obj name)).
  { unfold py_contains, payload_of. rewrite Hw. cbn [hashable payload_of]. f_equal.
    unfold flat_items. rewrite contains_flat.
    destruct (is_data h obj name) eqn:Hd.
    - apply bool_decide_eq_true_2. now apply data_names_elem.
    - apply bool_decide_eq_false_2. intros [_ Hd']%data_names_elem. congruence. }
  destruct (negb (String.prefix "__" name) && negb (ismethod t)) eqn:Hcond.
  - rewrite (bind_readr_ok _ _ _ _ Hpresent).
    destruct (is_data h obj name) eqn:Hd; [|reflexivity].
    assert (Hpl : plain h reg t (flat_value h obj T name)).
    { pose proof (all_plain name Hname Hd) as Hpl. now rewrite Ht in Hpl. }
    rewrite (bind_readr_ok _ _ _ (flat_value h obj T name)).
    2:{ unfold py_getitem, payload_of. rewrite Hw. cbn [hashable payload_of].
        unfold flat_items. rewrite assoc_flat; [reflexivity|now apply data_names_elem]. }
    rewrite bind_reads.
    rewrite (bind_ok_eq _ _ _ _ _ (plain_unflatit h _ (Hi2 a) reg t _ Hpl n _)).
    unfold check_type.
    rewrite (bind_readr_ok _ _ _ tt) by (exact (plain_check h _ (Hi2 a) reg t _ Hpl)).
    unfold py_setattr, store. rewrite Hsw.
    do 2 f_equal. rewrite insert_app_r_alt by lia.
    now replace (S w - w)%nat with 1%nat by lia.
  - destruct (is_data h obj name) eqn:Hd; [|reflexivity].
    pose proof (all_plain name Hname Hd) as Hpl. rewrite Ht in Hpl.
    apply plain_no_method in Hpl. cbn [default from_option id] in Hpl.
    unfold is_data in Hd. apply andb_true_iff in Hd as [Hd _].
    apply andb_true_iff in Hd as [_ Hpre]. now rewrite Hpre, Hpl in Hcond.
Qed.

(** A record whose attributes are plain, that is whose declared types are
    None or classes without converter, and whose values pass the check:
    [Schema.flatit] returns a new dict that maps every data attribute to its
    value (to None where the instance still holds the declared type), and
    [unflatit] of that dict with the class builds a new instance that holds
    these values.  Nothing else changes in the store. *)
Theorem plain_record_roundtrip :
  Schema_flatit (2 + n) reg obj h = Ok (VRef w, h ++ [tree (flat_items h obj T)]) /\
  exists attrs',
    unflatit (2 + n) reg (VRef w) T VNone (h ++ [tree (flat_items h obj T)])
    = Ok (VRef (S w), h ++ [tree (flat_items h obj T); made attrs']) /\
    forall name, name ∈ py_dir h T -> is_data h obj name = true ->
      attrs' !! name = Some (flat_value h obj T name).
Proof.
  assert (HT : type_class h T = CL lt).
  { unfold type_class. cbn [as_class]. now rewrite class_there. }
  split.
  - unfold Schema_flatit. change (2 + n)%nat with (S (S n)). cbn [flatit].
    rewrite bind_reads. cbn [is_none class_of]. rewrite obj_there. cbn [cref_val].
    unfold cm_to_flat.
    rewrite (bind_readr_ok _ _ _ (Some en)) by (now rewrite HT).
    rewrite (bind_readr_ok _ _ _ ISchema flat_method). cbn [to_flat_impl].
    apply plain_to_flat.
  - eexists. split.
    + pose proof (tree_instance (flat_items h obj T)) as Hi.
      pose proof (grown_classes h _ Hi) as GC.
      pose proof (grown_objects h [tree (flat_items h obj T)]) as GO.
      change (2 + n)%nat with (S (S n)). cbn [unflatit]. unfold cm_to_obj.
      rewrite (bind_readr_ok _ _ _ (Some en)).
      2:{ rewrite (st_type_class_class h _ GC T (CL lt))
            by (cbn [as_class]; now rewrite class_there).
          now rewrite (st_resolve h _ GC). }
      rewrite (bind_readr_ok _ _ _ ISchema).
      2:{ unfold conv_method.
          rewrite (st_py_getattr h _ GC GO _ _ (conv_method_val_ok _ _ _ _ _ obj_method)).
          exact obj_method. }
      cbn [to_obj_impl]. apply plain_to_obj.
    + intros name Hname Hd.
      apply (foldl_data_lookup (is_data h obj) (flat_value h obj T)). right. now split.
Qed.

End PlainRecord.

(** [Point(x=3, y=4)] of the specification's first scenario, with the
    default registry. *)
Lemma plain_record_roundtrip_witness :
  let tree := HObj (CB BDict) ∅ (PDict [(VStr "x", VInt 3); (VStr "y", VInt 4)]) in
  Schema_flatit 10 default_registry (VRef 13%nat) store_point
    = Ok (VRef 14%nat, store_point ++ [tree]) /\
  exists attrs',
    unflatit 10 default_registry (VRef 14%nat) (VRef 12%nat) VNone (store_point ++ [tree])
    = Ok (VRef 15%nat, store_point ++ [tree; HObj (CL 12%nat) attrs' PObject]) /\
    attrs' !! "x" = Some (VInt 3) /\ attrs' !! "y" = Some (VInt 4).
Proof.
  cbv zeta.
  assert (Hplain : forall name,
            name ∈ py_dir store_point (VRef 12%nat) ->
            is_data store_point (VRef 13%nat) name = true ->
            plain store_point default_registry
              (default VNone (py_getattr store_point (VRef 12%nat) name))
              (flat_value store_point (VRef 13%nat) (VRef 12%nat) name)).
  { intros name Hin. vm_compute in Hin.
    repeat (apply elem_of_cons in Hin as [->|Hin]);
      [..|now apply elem_of_nil in Hin]; intros Hd;
      try (vm_compute in Hd; discriminate);
      (split; [exact I|]); exists (CB BInt); repeat split; vm_compute; reflexivity. }
  assert (Hmeta : CB BType ∉ mro store_point (CL 12%nat)).
  { intros Hin. vm_compute in Hin.
    repeat (apply elem_of_cons in Hin as [Hin|Hin]; [discriminate|]).
    now apply elem_of_nil in Hin. }
  destruct (plain_record_roundtrip default_registry 8 store_point 13 12 _ _ _
              (mkentry (VRef L_Schema) (VRef L_SchemaConverter) false)
              eq_refl eq_refl eq_refl eq_refl eq_refl Hmeta Hplain)
    as (Hflat & attrs' & Hobj & Hattrs).
  split; [exact Hflat|]. exists attrs'. split; [exact Hobj|].
  split; apply Hattrs; vm_compute; try reflexivity.
  - apply list_elem_of_further, list_elem_of_further, list_elem_of_here.
  - apply list_elem_of_further, list_elem_of_further, list_elem_of_further, list_elem_of_here.
Defined.

(** ** What unflattening may write *)

(** [unflatit(val, obj_type, obj)] writes inside every closed region of the
    store that holds its arguments: the objects outside the region are as
    before, the result lies in the region and the region stays closed. *)
Theorem unflatit_footprint (U : loc -> bool) (reg : registry) (n : nat)
    (val obj_type obj r : value) (h h' : heap) :
  good U h -> val_in U val -> val_in U obj_type -> val_in U obj ->
  unflatit n reg val obj_type obj h = Ok (r, h') ->
  val_in U r /\ good U h' /\
  (List.length h <= List.length h')%nat /\
  forall l, U l = false -> h' !! l = h !! l.
Proof.
  intros Hg Hv Ht Ho H.
  destruct (safe_unflatit U reg n val obj_type obj Hv Ht Ho h r h' Hg H)
    as (Hg' & [Hlen Hext] & Hr).
  split; [assumption|]. split; [assumption|]. now split.
Qed.

(** In [store_merge], merging [{'b': 5}] into the instance at 17 leaves the
    instance at 14 and the tree at 15 as they are. *)
Lemma unflatit_footprint_witness :
  exists h',
    unflatit 10 default_registry (VRef 16%nat) (VRef 13%nat) (VRef 17%nat) store_merge
      = Ok (VRef 17%nat, h') /\
    h' !! 14%nat = store_merge !! 14%nat /\ h' !! 15%nat = store_merge !! 15%nat.
Proof.
  destruct (unflatit 10 default_registry (VRef 16%nat) (VRef 13%nat) (VRef 17%nat) store_merge)
    as [[r h']|] eqn:Hrun; [|vm_compute in Hrun; discriminate].
  destruct (unflatit_footprint region_merge default_registry 10
              (VRef 16%nat) (VRef 13%nat) (VRef 17%nat) r store_merge h'
              region_merge_good eq_refl eq_refl eq_refl Hrun) as (_ & _ & _ & Hout).
  assert (Hr : r = VRef 17%nat) by (vm_compute in Hrun; now injection Hrun as <- _).
  subst r. exists h'. split; [reflexivity|]. split; apply Hout; reflexivity.
Defined.

(** ** Typed lists of plain elements *)

Lemma st_conv_method h h' conv name m :
  (forall x, cinfo h' x = cinfo h x) ->
  (forall l, (l < List.length h)%nat -> h' !! l = h !! l) ->
  val_ok h conv -> conv_method h' conv name m = conv_method h conv name m.
Proof. intros A B Hc. unfold conv_method. now rewrite (st_py_getattr h h' A B). Qed.

(** The check against a declared type that is a class gives in the grown
    store what it gave before. *)
Lemma grown_check_class h new reg t v c :
  Forall is_instance new ->
  as_class h t = Some c -> val_ok h v ->
  cm_check_type h reg t v = Ok tt -> cm_check_type (h ++ new) reg t v = Ok tt.
Proof.
  intros Hnew Ht Hv. pose proof (grown_classes h new Hnew) as GC.
  pose proof (grown_objects h new) as GO.
  assert (Htc : type_class h t = c) by (unfold type_class; now rewrite Ht).
  unfold cm_check_type.
  rewrite (truthy_class h t c Ht), (grown_truthy_class h new Hnew t c Ht).
  rewrite (st_type_class_class h _ GC t c Ht), Htc, (st_resolve h _ GC).
  destruct (resolve h reg c) as [[e|]|]; cbn [rbind]; [| |discriminate].
  - destruct (conv_method h (e_conv e) "check_type" MCheck) as [i|] eqn:Hc; [|discriminate].
    rewrite (st_conv_method h _ _ _ _ GC GO (conv_method_val_ok _ _ _ _ _ Hc)), Hc.
    cbn [rbind].
    destruct i; cbn [check_type_impl]; trivial;
      unfold SchemaConverter_check_type, TypedListConverter_check_type,
             TypedDictConverter_check_type, container_check_type;
      rewrite (st_type_class_class h _ GC t c Ht), Htc, (st_class_of h _ GO v Hv),
              !(st_issubclass h _ GC), ?(st_class_eq h _ GC); trivial.
  - rewrite (as_class_cref_val h t c Ht).
    now rewrite (st_check_type h _ GC GO t v c Hv Ht).
Qed.

(** A loop over a list of the store that the loop does not change. *)
Lemma for_each_fold {S} (body : value -> M unit) (st : S -> heap) (f : S -> value -> S)
    (v : value) (items : list value) (P : value -> Prop) :
  (forall s i, py_iter_at (st s) v i = Ok (items !! i)) ->
  (forall x s, P x -> body x (st s) = Ok (tt, st (f s x))) ->
  Forall P items ->
  forall fuel i s, (List.length items - i < fuel)%nat ->
    for_each fuel v body i (st s) = Ok (tt, st (foldl f s (drop i items))).
Proof.
  intros Hiter Hbody HP. induction fuel as [|fuel IH]; intros i s Hfuel; [lia|].
  cbn [for_each]. rewrite (bind_readr_ok _ _ _ _ (Hiter s i)).
  destruct (items !! i) as [x|] eqn:Hx.
  - rewrite (drop_S _ _ _ Hx). cbn [foldl].
    rewrite Forall_forall in HP.
    rewrite (bind_ok_eq _ _ _ _ _ (Hbody x s (HP x (list_elem_of_lookup_2 _ _ _ Hx)))).
    apply IH. apply lookup_lt_Some in Hx. lia.
  - apply lookup_ge_None_1 in Hx. now rewrite drop_ge by lia.
Qed.

Lemma foldl_snoc {A} (xs : list A) : forall s, foldl (fun s x => s ++ [x]) s xs = s ++ xs.
Proof.
  induction xs as [|x xs IH]; intros s; cbn [foldl]; [now rewrite app_nil_r|].
  now rewrite IH, <- app_assoc.
Qed.

Section PlainList.

Variable reg : registry.
Variable n : nat.
Variables (h : heap) (lo ll : loc) (kl : pyclass).
Variables (c : cref) (a : gmap string value) (items : list value).
Variable E : value.
Variable en : entry.

Hypothesis type_there : h !! ll = Some (HClass kl).
Hypothesis element_type : py_getattr h (VRef ll) "ftype" = Some E.
Hypothesis list_there : h !! lo = Some (HObj c a (PList items)).
Hypothesis resolved : resolve h reg (CL ll) = Ok (Some en).
Hypothesis flat_method : conv_method h (e_conv en) "to_flat" MFlat = Ok ITypedList.
Hypothesis obj_method : conv_method h (e_conv en) "to_obj" MObj = Ok ITypedList.
Hypothesis list_checked : cm_check_type h reg (VRef ll) (VRef lo) = Ok tt.
Hypothesis elements_plain : Forall (plain h reg E) items.
Hypothesis no_metaclass : CB BType ∉ mro h (CL ll).
Hypothesis is_list_type : CB BList ∈ mro h (CL ll).
Hypothesis enough_fuel : (List.length items <= S n)%nat.

Local Abbreviation obj := (VRef lo).
Local Abbreviation L := (VRef ll).
Local Abbreviation w := (List.length h).
Local Abbreviation flat := (fun s => HObj (CB BList) ∅ (PList s)).
Local Abbreviation made := (fun s => HObj (CL ll) ∅ (PList s)).

Lemma list_obj_ok : val_ok h obj.
Proof. cbn [val_ok]. now apply lookup_lt_Some in list_there. Qed.

Lemma list_type_ok : val_ok h L.
Proof. cbn [val_ok]. now apply lookup_lt_Some in type_there. Qed.

Lemma list_type_class : as_class h L = Some (CL ll).
Proof. cbn [as_class]. now rewrite type_there. Qed.

Lemma grown_sub_type new idx :
  Forall is_instance new -> list_sub_type (h ++ new) L idx = Some E.
Proof.
  intros Hnew. unfold list_sub_type.
  now rewrite (st_py_getattr h _ (grown_classes h new Hnew) (grown_objects h new)
                 L "ftype" list_type_ok), element_type.
Qed.

Lemma plain_list_to_flat :
  TypedListConverter_to_flat reg (S (S n)) (flatit (S n) reg) L obj VNone h
  = Ok (VRef w, h ++ [flat items]).
Proof.
  unfold TypedListConverter_to_flat. cbn [is_none flat_target instantiate].
  rewrite (bind_ok_eq _ _ h (VRef w) (h ++ [flat []]) eq_refl).
  assert (Hi : forall s, Forall is_instance [flat s]) by (intros s; now repeat constructor).
  unfold check_type at 1.
  rewrite (bind_readr_ok _ _ _ tt)
    by (exact (grown_check_class h _ reg L obj _ (Hi []) list_type_class list_obj_ok
                 list_checked)).
  erewrite bind_ok_eq; [reflexivity|].
  match goal with |- for_each _ _ ?body _ _ = _ =>
    pose proof (fun H1 H2 =>
      for_each_fold body (fun s => h ++ [flat s]) (fun s x => s ++ [x]) obj items
        (plain h reg E) H1 H2 elements_plain (S (S n)) 0%nat []) as HF
  end.
  rewrite drop_0, foldl_snoc in HF. apply HF; [| |cbn; lia]; clear HF.
  - intros s i. unfold py_iter_at, payload_of.
    now rewrite (lookup_app_l_Some _ _ _ _ list_there).
  - intros x s Hx.
    assert (Hw : (h ++ [flat s]) !! w = Some (flat s)).
    { rewrite lookup_app_r by lia. now rewrite Nat.sub_diag. }
    rewrite (bind_readr_ok _ _ _ E) by (now rewrite (grown_sub_type _ 0 (Hi s))).
    unfold check_type.
    rewrite (bind_readr_ok _ _ _ tt) by (exact (plain_check h _ (Hi s) reg E x Hx)).
    rewrite (bind_readr_ok _ _ _ tt)
      by (unfold append_lookup, payload_of; now rewrite Hw).
    rewrite (bind_readr_ok _ _ _ E) by (now rewrite (grown_sub_type _ 0 (Hi s))).
    rewrite (bind_ok_eq _ _ _ _ _ (plain_flatit h _ (Hi s) reg E x Hx n)).
    unfold append_call, store. rewrite Hw.
    do 2 f_equal. rewrite insert_app_r_alt by lia. now rewrite Nat.sub_diag.
Qed.

Lemma plain_list_to_obj :
  TypedListConverter_to_obj reg (S (S n)) (unflatit (S n) reg) L (VRef w) VNone
    (h ++ [flat items])
  = Ok (VRef (S w), h ++ [flat items; made items]).
Proof.
  assert (Hi : Forall is_instance [flat items]) by now repeat constructor.
  pose proof (grown_classes h _ Hi) as GC.
  assert (Hi2 : forall s, Forall is_instance [flat items; made s])
    by (intros s; now repeat constructor).
  unfold TypedListConverter_to_obj. cbn [is_none]. unfold obj_target. cbn [is_none].
  assert (Hnew : new_instance L (h ++ [flat items])
                 = Ok (VRef (S w), h ++ [flat items; made []])).
  { unfold new_instance. rewrite bind_reads.
    rewrite (st_type_class_class h _ GC L (CL ll) list_type_class).
    rewrite instantiate_class by (rewrite (st_mro h _ GC); exact no_metaclass).
    rewrite (st_mro h _ GC), length_app, Nat.add_1_r, <- app_assoc.
    unfold new_payload. now rewrite (bool_decide_eq_true_2 _ is_list_type). }
  rewrite (bind_ok_eq _ _ _ _ _ Hnew).
  erewrite bind_ok_eq; [reflexivity|].
  match goal with |- for_each _ _ ?body _ _ = _ =>
    pose proof (fun H1 H2 =>
      for_each_fold body (fun s => h ++ [flat items; made s]) (fun s x => s ++ [x])
        (VRef w) items (plain h reg E) H1 H2 elements_plain (S (S n)) 0%nat []) as HF
  end.
  rewrite drop_0, foldl_snoc in HF. apply HF; [| |cbn; lia]; clear HF.
  - intros s i. unfold py_iter_at, payload_of.
    rewrite lookup_app_r by lia. now rewrite Nat.sub_diag.
  - intros x s Hx.
    assert (Hsw : (h ++ [flat items; made s]) !! S w = Some (made s)).
    { rewrite lookup_app_r by lia. now replace (S w - w)%nat with 1%nat by lia. }
    rewrite (bind_readr_ok _ _ _ E)
      by (unfold obj_sub_type; now rewrite (grown_sub_type _ 0 (Hi2 s))).
    rewrite (bind_ok_eq _ _ _ _ _ (plain_unflatit h _ (Hi2 s) reg E x Hx n VNone)).
    rewrite (bind_readr_ok _ _ _ E)
      by (unfold obj_sub_type; now rewrite (grown_sub_type _ 0 (Hi2 s))).
    unfold check_type.
    rewrite (bind_readr_ok _ _ _ tt) by (exact (plain_check h _ (Hi2 s) reg E x Hx)).
    rewrite (bind_readr_ok _ _ _ tt)
      by (unfold append_lookup, payload_of; now rewrite Hsw).
    unfold append_call, store. rewrite Hsw.
    do 2 f_equal. rewrite insert_app_r_alt by lia.
    now replace (S w - w)%nat with 1%nat by lia.
Qed.

(** A list flattened as a typed list whose element type is plain: [flatit]
    returns a new list of the same items, and [unflatit] of that list
    returns a new instance of the typed list type that holds the same
    items.  Nothing else changes in the store. *)
Theorem plain_list_roundtrip :
  flatit (2 + n) reg obj L VNone h = Ok (VRef w, h ++ [flat items]) /\
  unflatit (2 + n) reg (VRef w) L VNone (h ++ [flat items])
  = Ok (VRef (S w), h ++ [flat items; made items]).
Proof.
  assert (HT : type_class h L = CL ll).
  { unfold type_class. now rewrite list_type_class. }
  change (2 + n)%nat with (S (S n)). split.
  - cbn [flatit]. rewrite bind_reads. cbn [is_none]. unfold cm_to_flat.
    rewrite (bind_readr_ok _ _ _ (Some en)) by (now rewrite HT).
    rewrite (bind_readr_ok _ _ _ ITypedList flat_method). cbn [to_flat_impl].
    apply plain_list_to_flat.
  - assert (Hi : Forall is_instance [flat items]) by now repeat constructor.
    pose proof (grown_classes h _ Hi) as GC.
    pose proof (grown_objects h [flat items]) as GO.
    cbn [unflatit]. unfold cm_to_obj.
    rewrite (bind_readr_ok _ _ _ (Some en)).
    2:{ rewrite (st_type_class_class h _ GC L (CL ll) list_type_class).
        now rewrite (st_resolve h _ GC). }
    rewrite (bind_readr_ok _ _ _ ITypedList).
    2:{ rewrite (st_conv_method h _ _ _ _ GC GO (conv_method_val_ok _ _ _ _ _ obj_method)).
        exact obj_method. }
    cbn [to_obj_impl]. apply plain_list_to_obj.
Qed.

End PlainList.

(** [TypedList.set_type(int)] and the list [[1, 2]], with the default
    registry. *)
Lemma plain_list_roundtrip_witness :
  let h := store_typed_list (VCls BInt) [VInt 1; VInt 2] in
  let flat := HObj (CB BList) ∅ (PList [VInt 1; VInt 2]) in
  flatit 3 default_registry (VRef 13%nat) (VRef 12%nat) VNone h
    = Ok (VRef 14%nat, h ++ [flat]) /\
  unflatit 3 default_registry (VRef 14%nat) (VRef 12%nat) VNone (h ++ [flat])
    = Ok (VRef 15%nat, h ++ [flat; HObj (CL 12%nat) ∅ (PList [VInt 1; VInt 2])]).
Proof.
  cbv zeta.
  assert (Hplain : Forall (plain (store_typed_list (VCls BInt) [VInt 1; VInt 2])
                             default_registry (VCls BInt)) [VInt 1; VInt 2]).
  { repeat constructor; exists (CB BInt); repeat split; vm_compute; reflexivity. }
  assert (Hmeta : CB BType ∉ mro (store_typed_list (VCls BInt) [VInt 1; VInt 2]) (CL 12%nat)).
  { intros Hin. vm_compute in Hin.
    repeat (apply elem_of_cons in Hin as [Hin|Hin]; [discriminate|]).
    now apply elem_of_nil in Hin. }
  assert (Hlist : CB BList ∈ mro (store_typed_list (VCls BInt) [VInt 1; VInt 2]) (CL 12%nat)).
  { vm_compute. apply list_elem_of_further, list_elem_of_further, list_elem_of_here. }
  exact (plain_list_roundtrip default_registry 1
           (store_typed_list (VCls BInt) [VInt 1; VInt 2]) 13 12 _ _ _ _ (VCls BInt)
           (mkentry (VRef L_TypedList) (VRef L_TypedListConverter) true)
           eq_refl eq_refl eq_refl eq_refl eq_refl eq_refl eq_refl Hplain Hmeta Hlist
           ltac:(cbn; lia)).
Defined.

(** ** Typed dicts of plain values *)

Lemma distinct_by_cons_inv {A} (key : A -> value) x xs :
  distinct_by key (x :: xs) = true ->
  distinct_by key xs = true /\ forall y, y ∈ xs -> val_eqb (key y) (key x) = false.
Proof.
  cbn [distinct_by]. intros H. apply andb_true_iff in H as [H1 H2]. split; [assumption|].
  intros y Hy. rewrite val_eqb_sym.
  destruct (val_eqb (key x) (key y)) eqn:Exy; [|reflexivity].
  apply negb_true_iff in H1.
  assert (existsb (fun y => val_eqb (key x) (key y)) xs = true); [|congruence].
  apply existsb_exists. exists y. split; [now apply list_elem_of_In|assumption].
Qed.

Section PlainDict.

Variable reg : registry.
Variable n : nat.
Variables (h : heap) (lo ll : loc) (kl : pyclass).
Variables (c : cref) (a : gmap string value) (items : list (value * value)).
Variable E : value.
Variable en : entry.

Hypothesis type_there : h !! ll = Some (HClass kl).
Hypothesis element_type : py_getattr h (VRef ll) "ftype" = Some E.
Hypothesis dict_there : h !! lo = Some (HObj c a (PDict items)).
Hypothesis resolved : resolve h reg (CL ll) = Ok (Some en).
Hypothesis flat_method : conv_method h (e_conv en) "to_flat" MFlat = Ok ITypedDict.
Hypothesis obj_method : conv_method h (e_conv en) "to_obj" MObj = Ok ITypedDict.
Hypothesis dict_checked : cm_check_type h reg (VRef ll) (VRef lo) = Ok tt.
Hypothesis string_keys : Forall (fun kv => exists name, fst kv = VStr name) items.
Hypothesis different_keys : distinct_by fst items = true.
Hypothesis values_plain : Forall (fun kv => plain h reg E (snd kv)) items.
Hypothesis no_metaclass : CB BType ∉ mro h (CL ll).
Hypothesis no_list_type : CB BList ∉ mro h (CL ll).
Hypothesis is_dict_type : CB BDict ∈ mro h (CL ll).

Local Abbreviation obj := (VRef lo).
Local Abbreviation D := (VRef ll).
Local Abbreviation w := (List.length h).
Local Abbreviation flat := (fun s => HObj (CB BDict) ∅ (PDict s)).
Local Abbreviation made := (fun s => HObj (CL ll) ∅ (PDict s)).

(** What is left of the loop: the pairs to come have string keys, plain
    values and keys that differ from each other and from those set. *)
Local Abbreviation todo := (fun (s xs : list (value * value)) =>
  Forall (fun kv => exists name, fst kv = VStr name) xs /\
  Forall (fun kv => plain h reg E (snd kv)) xs /\
  distinct_by fst xs = true /\
  forall kv, kv ∈ xs -> existsb (fun kv' => val_eqb (fst kv) (fst kv')) s = false).

Lemma todo_all : todo [] items.
Proof. repeat split; trivial. Qed.

Lemma todo_next x xs s : todo s (x :: xs) -> todo (s ++ [x]) xs.
Proof.
  intros (Hk & Hp & Hd & Hs).
  apply Forall_cons in Hk as [_ Hk]. apply Forall_cons in Hp as [_ Hp].
  apply distinct_by_cons_inv in Hd as [Hd Hx].
  repeat split; trivial. intros kv Hkv.
  rewrite existsb_app, (Hs kv (list_elem_of_further _ _ _ Hkv)).
  cbn [existsb orb]. now rewrite (Hx kv Hkv).
Qed.

Lemma dict_obj_ok : val_ok h obj.
Proof. cbn [val_ok]. now apply lookup_lt_Some in dict_there. Qed.

Lemma dict_type_ok : val_ok h D.
Proof. cbn [val_ok]. now apply lookup_lt_Some in type_there. Qed.

Lemma dict_type_class : as_class h D = Some (CL ll).
Proof. cbn [as_class]. now rewrite type_there. Qed.

Lemma grown_value_type new k :
  Forall is_instance new -> dict_sub_type (h ++ new) D k = Ok (Some E).
Proof.
  intros Hnew. unfold dict_sub_type.
  now rewrite (st_py_getattr h _ (grown_classes h new Hnew) (grown_objects h new)
                 D "ftype" dict_type_ok), element_type.
Qed.

Lemma plain_dict_to_flat :
  TypedDictConverter_to_flat reg (flatit (S n) reg) D obj VNone h
  = Ok (VRef w, h ++ [flat items]).
Proof.
  unfold TypedDictConverter_to_flat. cbn [is_none flat_target instantiate].
  rewrite (bind_ok_eq _ _ h (VRef w) (h ++ [flat []]) eq_refl).
  assert (Hi : forall s, Forall is_instance [flat s]) by (intros s; now repeat constructor).
  unfold check_type at 1.
  rewrite (bind_readr_ok _ _ _ tt)
    by (exact (grown_check_class h _ reg D obj _ (Hi []) dict_type_class dict_obj_ok
                 dict_checked)).
  rewrite (bind_readr_ok _ _ _ items)
    by (unfold py_items, payload_of; now rewrite (lookup_app_l_Some _ _ _ _ dict_there)).
  erewrite bind_ok_eq; [reflexivity|].
  match goal with |- for_list _ ?body _ = _ =>
    pose proof (fun H =>
      for_list_fold body (fun s => h ++ [flat s]) (fun s x => s ++ [x]) todo H
        items [] todo_all) as HF
  end.
  rewrite foldl_snoc in HF. apply HF; clear HF.
  intros [k v] xs s Htodo. split; [|now apply todo_next].
  destruct Htodo as (Hk & Hp & _ & Hs).
  apply Forall_cons in Hk as [[name Hname] _]. apply Forall_cons in Hp as [Hv _].
  cbn [fst snd] in Hname, Hv. subst k.
  specialize (Hs _ (list_elem_of_here _ _)). cbn [fst] in Hs.
  assert (Hw : (h ++ [flat s]) !! w = Some (flat s)).
  { rewrite lookup_app_r by lia. now rewrite Nat.sub_diag. }
  rewrite (bind_readr_ok _ _ _ E) by (now rewrite (grown_value_type _ _ (Hi s))).
  unfold check_type.
  rewrite (bind_readr_ok _ _ _ tt) by (exact (plain_check h _ (Hi s) reg E v Hv)).
  rewrite (bind_readr_ok _ _ _ false)
    by (unfold py_contains; cbn [payload_of]; rewrite Hw; cbn [hashable payload_of]; now rewrite Hs).
  cbv iota. rewrite (bind_ok_eq (ret VNone) _ _ VNone _ eq_refl).
  rewrite (bind_readr_ok _ _ _ E) by (now rewrite (grown_value_type _ _ (Hi s))).
  rewrite (bind_ok_eq _ _ _ _ _ (plain_flatit h _ (Hi s) reg E v Hv n)).
  unfold py_setitem, store. rewrite Hw. cbn [hashable payload_of].
  rewrite (assoc_set_absent _ _ _ Hs).
  do 2 f_equal. rewrite insert_app_r_alt by lia. now rewrite Nat.sub_diag.
Qed.

Lemma plain_dict_to_obj :
  TypedDictConverter_to_obj reg (unflatit (S n) reg) D (VRef w) VNone (h ++ [flat items])
  = Ok (VRef (S w), h ++ [flat items; made items]).
Proof.
  assert (Hi : Forall is_instance [flat items]) by now repeat constructor.
  pose proof (grown_classes h _ Hi) as GC.
  assert (Hi2 : forall s, Forall is_instance [flat items; made s])
    by (intros s; now repeat constructor).
  unfold TypedDictConverter_to_obj. cbn [is_none]. unfold obj_target. cbn [is_none].
  assert (Hnew : new_instance D (h ++ [flat items])
                 = Ok (VRef (S w), h ++ [flat items; made []])).
  { unfold new_instance. rewrite bind_reads.
    rewrite (st_type_class_class h _ GC D (CL ll) dict_type_class).
    rewrite instantiate_class by (rewrite (st_mro h _ GC); exact no_metaclass).
    rewrite (st_mro h _ GC), length_app, Nat.add_1_r, <- app_assoc.
    unfold new_payload.
    now rewrite (bool_decide_eq_false_2 _ no_list_type),
                (bool_decide_eq_true_2 _ is_dict_type). }
  rewrite (bind_ok_eq _ _ _ _ _ Hnew).
  rewrite (bind_readr_ok _ _ _ items).
  2:{ unfold py_items, payload_of. rewrite lookup_app_r by lia.
      now rewrite Nat.sub_diag. }
  erewrite bind_ok_eq; [reflexivity|].
  match goal with |- for_list _ ?body _ = _ =>
    pose proof (fun H =>
      for_list_fold body (fun s => h ++ [flat items; made s]) (fun s x => s ++ [x])
        todo H items [] todo_all) as HF
  end.
  rewrite foldl_snoc in HF. apply HF; clear HF.
  intros [k v] xs s Htodo. split; [|now apply todo_next].
  destruct Htodo as (Hk & Hp & _ & Hs).
  apply Forall_cons in Hk as [[name Hname] _]. apply Forall_cons in Hp as [Hv _].
  cbn [fst snd] in Hname, Hv. subst k.
  specialize (Hs _ (list_elem_of_here _ _)). cbn [fst] in Hs.
  assert (Hsw : (h ++ [flat items; made s]) !! S w = Some (made s)).
  { rewrite lookup_app_r by lia. now replace (S w - w)%nat with 1%nat by lia. }
  rewrite (bind_readr_ok (fun h0 => py_hasattr_val h0 (VRef (S w)) (VStr name)) _ _ _ eq_refl).
  unfold py_hasattr, getattr.
  match goal with |- bind ?m _ ?hh = _ =>
    assert (Hsub : exists sub, m hh = Ok (sub, hh))
  end.
  { match goal with |- context [py_getattr ?hh ?o name] =>
      destruct (py_getattr hh o name) as [v0|] eqn:G
    end.
    - exists v0. cbv iota. unfold readr, lift. now rewrite G.
    - now exists VNone. }
  destruct Hsub as [sub Hsub]. rewrite (bind_ok_eq _ _ _ _ _ Hsub).
  rewrite (bind_readr_ok _ _ _ E)
    by (unfold obj_sub_type; now rewrite (grown_value_type _ _ (Hi2 s))).
  rewrite (bind_ok_eq _ _ _ _ _ (plain_unflatit h _ (Hi2 s) reg E v Hv n sub)).
  rewrite (bind_readr_ok _ _ _ E)
    by (unfold obj_sub_type; now rewrite (grown_value_type _ _ (Hi2 s))).
  unfold check_type.
  rewrite (bind_readr_ok _ _ _ tt) by (exact (plain_check h _ (Hi2 s) reg E v Hv)).
  unfold py_setitem, store. rewrite Hsw. cbn [hashable payload_of].
  rewrite (assoc_set_absent _ _ _ Hs).
  do 2 f_equal. rewrite insert_app_r_alt by lia.
  now replace (S w - w)%nat with 1%nat by lia.
Qed.

(** A dict with string keys flattened as a typed dict whose value type is
    plain: [flatit] returns a new dict of the same items, in the same order,
    and [unflatit] of that dict returns a new instance of the typed dict
    type that holds the same items.  Nothing else changes in the store. *)
Theorem plain_dict_roundtrip :
  flatit (2 + n) reg obj D VNone h = Ok (VRef w, h ++ [flat items]) /\
  unflatit (2 + n) reg (VRef w) D VNone (h ++ [flat items])
  = Ok (VRef (S w), h ++ [flat items; made items]).
Proof.
  assert (HT : type_class h D = CL ll).
  { unfold type_class. now rewrite dict_type_class. }
  change (2 + n)%nat with (S (S n)). split.
  - cbn [flatit]. rewrite bind_reads. cbn [is_none]. unfold cm_to_flat.
    rewrite (bind_readr_ok _ _ _ (Some en)) by (now rewrite HT).
    rewrite (bind_readr_ok _ _ _ ITypedDict flat_method). cbn [to_flat_impl].
    apply plain_dict_to_flat.
  - assert (Hi : Forall is_instance [flat items]) by now repeat constructor.
    pose proof (grown_classes h _ Hi) as GC.
    pose proof (grown_objects h [flat items]) as GO.
    cbn [unflatit]. unfold cm_to_obj.
    rewrite (bind_readr_ok _ _ _ (Some en)).
    2:{ rewrite (st_type_class_class h _ GC D (CL ll) dict_type_class).
        now rewrite (st_resolve h _ GC). }
    rewrite (bind_readr_ok _ _ _ ITypedDict).
    2:{ rewrite (st_conv_method h _ _ _ _ GC GO (conv_method_val_ok _ _ _ _ _ obj_method)).
        exact obj_method. }
    cbn [to_obj_impl]. apply plain_dict_to_obj.
Qed.

End PlainDict.

(** [TypedDict.set_type(int)] and the dict [{'a': 1, 'b': 2}], with the
    default registry. *)
Lemma plain_dict_roundtrip_witness :
  let items := [(VStr "a", VInt 1); (VStr "b", VInt 2)] in
  let h := store_typed_dict (VCls BInt) items in
  let flat := HObj (CB BDict) ∅ (PDict items) in
  flatit 2 default_registry (VRef 13%nat) (VRef 12%nat) VNone h
    = Ok (VRef 14%nat, h ++ [flat]) /\
  unflatit 2 default_registry (VRef 14%nat) (VRef 12%nat) VNone (h ++ [flat])
    = Ok (VRef 15%nat, h ++ [flat; HObj (CL 12%nat) ∅ (PDict items)]).
Proof.
  cbv zeta.
  set (items := [(VStr "a", VInt 1); (VStr "b", VInt 2)]).
  assert (Hkeys : Forall (fun kv : value * value => exists name, fst kv = VStr name) items).
  { repeat constructor; eexists; reflexivity. }
  assert (Hplain : Forall (fun kv : value * value =>
                     plain (store_typed_dict (VCls BInt) items) default_registry
                       (VCls BInt) (snd kv)) items).
  { repeat constructor; exists (CB BInt); repeat split; vm_compute; reflexivity. }
  assert (Hmeta : CB BType ∉ mro (store_typed_dict (VCls BInt) items) (CL 12%nat)).
  { intros Hin. vm_compute in Hin.
    repeat (apply elem_of_cons in Hin as [Hin|Hin]; [discriminate|]).
    now apply elem_of_nil in Hin. }
  assert (Hnolist : CB BList ∉ mro (store_typed_dict (VCls BInt) items) (CL 12%nat)).
  { intros Hin. vm_compute in Hin.
    repeat (apply elem_of_cons in Hin as [Hin|Hin]; [discriminate|]).
    now apply elem_of_nil in Hin. }
  assert (Hdict : CB BDict ∈ mro (store_typed_dict (VCls BInt) items) (CL 12%nat)).
  { vm_compute. apply list_elem_of_further, list_elem_of_further, list_elem_of_here. }
  exact (plain_dict_roundtrip default_registry 0
           (store_typed_dict (VCls BInt) items) 13 12 _ _ _ _ (VCls BInt)
           (mkentry (VRef L_TypedDict) (VRef L_TypedDictConverter) true)
           eq_refl eq_refl eq_refl eq_refl eq_refl eq_refl eq_refl
           Hkeys eq_refl Hplain Hmeta Hnolist Hdict).
Defined.

(** * Containers whose declared type names no element type *)

(** ** Flattening makes no class *)

Lemma same_shape_refl h : same_shape h h.
Proof. split; trivial. Qed.

Lemma same_shape_trans h1 h2 h3 : same_shape h1 h2 -> same_shape h2 h3 -> same_shape h1 h3.
Proof.
  intros [C1 L1] [C2 L2]. split; [intros c; now rewrite C2|auto].
Qed.

Lemma keeps_ret {A} (a : A) : keeps (ret a).
Proof. intros h a' h' [= _ <-]. apply same_shape_refl. Qed.

Lemma keeps_raise {A} e : keeps (@raise A e).
Proof. intros h a h' H. discriminate. Qed.

Lemma keeps_lift {A} (r : res A) : keeps (lift r).
Proof. intros h a h' H. unfold lift in H. destruct r; [|discriminate].
  injection H as _ <-. apply same_shape_refl. Qed.

Lemma keeps_reads {A} (f : heap -> A) : keeps (reads f).
Proof. intros h a h' [= _ <-]. apply same_shape_refl. Qed.

Lemma keeps_readr {A} (f : heap -> res A) : keeps (readr f).
Proof. intros h a h' H. unfold readr in H. now apply keeps_lift in H. Qed.

Lemma keeps_bind {A B} (m : M A) (f : A -> M B) :
  keeps m -> (forall a, keeps (f a)) -> keeps (bind m f).
Proof.
  intros Hm Hf h b h' H. apply bind_ok in H as (a & h1 & H1 & H2).
  eapply same_shape_trans; [exact (Hm _ _ _ H1)|exact (Hf _ _ _ _ H2)].
Qed.

Lemma keeps_if {A} (b : bool) (m1 m2 : M A) :
  keeps m1 -> keeps m2 -> keeps (if b then m1 else m2).
Proof. now destruct b. Qed.

Lemma keeps_for_list {A} (body : A -> M unit) xs :
  (forall x, keeps (body x)) -> keeps (for_list xs body).
Proof.
  intros Hb. induction xs as [|x xs IH]; [apply keeps_ret|].
  rewrite for_list_cons. apply keeps_bind; [apply Hb|intros _; exact IH].
Qed.

Lemma keeps_for_each fuel v (body : value -> M unit) :
  (forall x, keeps (body x)) -> forall i, keeps (for_each fuel v body i).
Proof.
  intros Hb. induction fuel as [|fuel IH]; intros i; [apply keeps_raise|].
  cbn [for_each]. apply keeps_bind; [apply keeps_readr|].
  intros [x|]; [|apply keeps_ret].
  apply keeps_bind; [apply Hb|intros _; apply IH].
Qed.

(** A new instance is no class. *)
Lemma keeps_alloc c a p : keeps (alloc (HObj c a p)).
Proof.
  intros h l h' [= _ <-]. split.
  - intros [b|l']; [reflexivity|]. cbn [cinfo].
    destruct (decide (l' < List.length h)%nat) as [Hl|Hl].
    + now rewrite lookup_app_l.
    + rewrite lookup_app_r by lia. rewrite (lookup_ge_None_2 h l') by lia.
      now destruct (l' - List.length h)%nat as [|k].
  - intros l' Hl. unfold is_list in *.
    destruct (h !! l') as [o|] eqn:Ho; [|discriminate].
    now rewrite (lookup_app_l_Some _ _ _ _ Ho).
Qed.

(** An instance that is replaced by an instance of the same kind. *)
Lemma keeps_store l c a p c' a' p' h :
  h !! l = Some (HObj c a p) ->
  (match p with PList _ => match p' with PList _ => True | _ => False end | _ => True end) ->
  same_shape h (<[l := HObj c' a' p']> h).
Proof.
  intros Hl Hp. split.
  - intros [b|l']; [reflexivity|]. cbn [cinfo].
    destruct (decide (l' = l)) as [->|Hne].
    + rewrite list_lookup_insert_eq by (now apply lookup_lt_Some in Hl). now rewrite Hl.
    + now rewrite list_lookup_insert_ne by congruence.
  - intros l' Hl'. unfold is_list in *.
    destruct (decide (l' = l)) as [->|Hne].
    + rewrite list_lookup_insert_eq by (now apply lookup_lt_Some in Hl).
      rewrite Hl in Hl'. destruct p; try discriminate. now destruct p'.
    + now rewrite list_lookup_insert_ne by congruence.
Qed.

Lemma keeps_instantiate_builtin b : keeps (instantiate (CB b)).
Proof.
  destruct b; cbn [instantiate];
    try apply keeps_raise; try apply keeps_ret;
    (apply keeps_bind; [apply keeps_alloc|intros; apply keeps_ret]).
Qed.

Lemma keeps_setitem w k v : keeps (py_setitem w k v).
Proof.
  intros h [] h' H. unfold py_setitem, store in H.
  destruct w as [| | | |l| | | | | | |]; try discriminate.
  destruct (h !! l) as [[c a [|items|items]|kc]|] eqn:Hl; try discriminate.
  - destruct (index_of k); [|discriminate].
    match type of H with (if ?b then _ else _) = _ => destruct b; [|discriminate] end.
    injection H as <-. now apply (keeps_store _ _ _ _ _ _ _ _ Hl).
  - destruct (hashable h k); [|discriminate]. injection H as <-.
    now apply (keeps_store _ _ _ _ _ _ _ _ Hl).
Qed.

Lemma keeps_append w v : keeps (append_call w v).
Proof.
  intros h [] h' H. unfold append_call, store in H.
  destruct w as [| | | |l| | | | | | |]; try discriminate.
  destruct (h !! l) as [[c a [|items|items]|kc]|] eqn:Hl; try discriminate.
  injection H as <-. now apply (keeps_store _ _ _ _ _ _ _ _ Hl).
Qed.

Lemma keeps_check_type reg t v : keeps (check_type reg t v).
Proof. apply keeps_readr. Qed.

Lemma keeps_getattr obj name : keeps (getattr obj name).
Proof. apply keeps_readr. Qed.

Section KeepsConverters.

Variable reg : registry.
Variable fuel : nat.
Variable rec : value -> value -> value -> M value.
Hypothesis keeps_rec : forall a b c, keeps (rec a b c).

Lemma keeps_flat_target b val : keeps (flat_target b val).
Proof.
  unfold flat_target. apply keeps_if; [apply keeps_instantiate_builtin|apply keeps_ret].
Qed.

Lemma keeps_Schema_to_flat t obj val : keeps (SchemaConverter_to_flat reg rec t obj val).
Proof.
  unfold SchemaConverter_to_flat. apply keeps_if; [apply keeps_ret|].
  apply keeps_bind; [apply keeps_flat_target|intros flat_dict].
  apply keeps_bind; [apply keeps_reads|intros names].
  apply keeps_bind; [|intros; apply keeps_ret].
  apply keeps_for_list. intros name.
  apply keeps_bind; [apply keeps_reads|intros has].
  apply keeps_if; [|apply keeps_ret].
  apply keeps_bind; [apply keeps_getattr|intros attr_value].
  apply keeps_bind; [apply keeps_getattr|intros attr_type].
  apply keeps_if; [|apply keeps_ret].
  apply keeps_bind; [apply keeps_reads|intros v].
  apply keeps_bind; [apply keeps_check_type|intros _].
  apply keeps_bind; [apply keeps_readr|intros present].
  apply keeps_bind; [apply keeps_if; [apply keeps_readr|apply keeps_ret]|intros sub_val].
  apply keeps_bind; [apply keeps_rec|intros fv]. apply keeps_setitem.
Qed.

Lemma keeps_TypedList_to_flat t obj val :
  keeps (TypedListConverter_to_flat reg fuel rec t obj val).
Proof.
  unfold TypedListConverter_to_flat. apply keeps_if; [apply keeps_ret|].
  apply keeps_bind; [apply keeps_flat_target|intros flat_list].
  apply keeps_bind; [apply keeps_check_type|intros _].
  apply keeps_bind; [|intros; apply keeps_ret].
  apply keeps_for_each. intros item.
  apply keeps_bind; [apply keeps_readr|intros sub_type].
  apply keeps_bind; [apply keeps_check_type|intros _].
  apply keeps_bind; [apply keeps_readr|intros _].
  apply keeps_bind; [apply keeps_readr|intros sub_type'].
  apply keeps_bind; [apply keeps_rec|intros fv]. apply keeps_append.
Qed.

Lemma keeps_TypedDict_to_flat t obj val :
  keeps (TypedDictConverter_to_flat reg rec t obj val).
Proof.
  unfold TypedDictConverter_to_flat. apply keeps_if; [apply keeps_ret|].
  apply keeps_bind; [apply keeps_flat_target|intros flat_dict].
  apply keeps_bind; [apply keeps_check_type|intros _].
  apply keeps_bind; [apply keeps_readr|intros items].
  apply keeps_bind; [|intros; apply keeps_ret].
  apply keeps_for_list. intros [k v].
  apply keeps_bind; [apply keeps_readr|intros sub_type].
  apply keeps_bind; [apply keeps_check_type|intros _].
  apply keeps_bind; [apply keeps_readr|intros present].
  apply keeps_bind; [apply keeps_if; [apply keeps_readr|apply keeps_ret]|intros sub_val].
  apply keeps_bind; [apply keeps_readr|intros sub_type'].
  apply keeps_bind; [apply keeps_rec|intros fv]. apply keeps_setitem.
Qed.

Lemma keeps_to_flat_impl i t obj val : keeps (to_flat_impl reg fuel rec i t obj val).
Proof.
  destruct i; cbn [to_flat_impl];
    auto using keeps_raise, keeps_lift, keeps_Schema_to_flat,
               keeps_TypedList_to_flat, keeps_TypedDict_to_flat.
Qed.

Lemma keeps_cm_to_flat t obj val : keeps (cm_to_flat reg fuel rec t obj val).
Proof.
  unfold cm_to_flat. apply keeps_bind; [apply keeps_readr|intros [e|]]; [|apply keeps_ret].
  apply keeps_bind; [apply keeps_readr|intros i]. apply keeps_to_flat_impl.
Qed.

End KeepsConverters.

Lemma keeps_flatit reg n : forall obj t val, keeps (flatit n reg obj t val).
Proof.
  induction n as [|n IH]; intros obj t val; [apply keeps_raise|].
  cbn [flatit]. apply keeps_bind; [apply keeps_reads|intros t'].
  now apply keeps_cm_to_flat.
Qed.

(** ** What a class tells does not depend on the instances of the store *)

Section ClassReads.

Variables h h' : heap.
Hypothesis same_classes : forall x, cinfo h' x = cinfo h x.
Variables (T : value) (c : cref).
Hypothesis is_class : as_class h T = Some c.

Lemma class_there_too l k : h !! l = Some (HClass k) -> h' !! l = Some (HClass k).
Proof.
  intros Hl. pose proof (same_classes (CL l)) as E. cbn [cinfo] in E. rewrite Hl in E.
  destruct (h' !! l) as [[]|]; try discriminate. now injection E as ->.
Qed.

Lemma class_of_class : class_of h' T = class_of h T.
Proof.
  destruct T; try discriminate is_class; [reflexivity|].
  cbn [as_class] in is_class. cbn [class_of].
  destruct (h !! l) as [[]|] eqn:Hl; try discriminate.
  now rewrite (class_there_too _ _ Hl).
Qed.

Lemma py_getattr_class name : py_getattr h' T name = py_getattr h T name.
Proof.
  pose proof class_of_class as Hc.
  destruct T; try discriminate is_class.
  - cbn [py_getattr]. now rewrite !(class_lookup_ext h h' _ _ same_classes).
  - cbn [as_class] in is_class. unfold py_getattr. rewrite Hc.
    destruct (h !! l) as [[]|] eqn:Hl; try discriminate.
    rewrite (class_there_too _ _ Hl).
    now rewrite !(class_lookup_ext h h' _ _ same_classes).
Qed.

Lemma is_builtin_instance_class b :
  is_builtin_instance h' T b = is_builtin_instance h T b.
Proof.
  unfold is_builtin_instance. rewrite class_of_class.
  now rewrite (st_mro h h' same_classes).
Qed.

Hypothesis no_tag : untagged h T.

Lemma untagged_list_sub_type idx : flat_sub_type (Ok (list_sub_type h' T idx)) = Ok VNone.
Proof.
  destruct no_tag as (_ & Hl & _ & Hf). unfold list_sub_type.
  rewrite py_getattr_class, is_builtin_instance_class, Hl.
  now destruct Hf as [-> | ->].
Qed.

Lemma untagged_dict_sub_type k : flat_sub_type (dict_sub_type h' T k) = Ok VNone.
Proof.
  destruct no_tag as (_ & _ & Hd & Hf). unfold dict_sub_type.
  rewrite py_getattr_class, is_builtin_instance_class, Hd.
  now destruct Hf as [-> | ->].
Qed.

End ClassReads.

(** ** Loops whose bodies agree on the stores they meet *)

Lemma bind_congr {A B} (m : M A) (k k' : A -> M B) h :
  (forall a h1, m h = Ok (a, h1) -> k a h1 = k' a h1) -> bind m k h = bind m k' h.
Proof. intros H. unfold bind. destruct (m h) as [[a h1]|e]; [now apply H|reflexivity]. Qed.

Lemma for_each_ext (Inv : heap -> Prop) (body body' : value -> M unit) v :
  (forall x hx, Inv hx ->
     body x hx = body' x hx /\ forall h2, body' x hx = Ok (tt, h2) -> Inv h2) ->
  forall fuel i hx, Inv hx -> for_each fuel v body i hx = for_each fuel v body' i hx.
Proof.
  intros Hb. induction fuel as [|fuel IH]; intros i hx Hinv; [reflexivity|].
  cbn [for_each]. unfold bind, readr, lift.
  destruct (py_iter_at hx v i) as [[x|]|e]; [|reflexivity|reflexivity].
  destruct (Hb x hx Hinv) as [E K]. rewrite E.
  destruct (body' x hx) as [[[] h2]|e]; [|reflexivity]. now apply IH, K.
Qed.

Lemma for_list_ext {A} (Inv : heap -> Prop) (body body' : A -> M unit) :
  (forall x hx, Inv hx ->
     body x hx = body' x hx /\ forall h2, body' x hx = Ok (tt, h2) -> Inv h2) ->
  forall xs hx, Inv hx -> for_list xs body hx = for_list xs body' hx.
Proof.
  intros Hb. induction xs as [|x xs IH]; intros hx Hinv; [reflexivity|].
  rewrite !for_list_cons. unfold bind.
  destruct (Hb x hx Hinv) as [E K]. rewrite E.
  destruct (body' x hx) as [[[] h2]|e]; [|reflexivity]. now apply IH, K.
Qed.

(** ** Flattening under a declared type without element type *)

Lemma check_without_type h reg v : cm_check_type h reg VNone v = Ok tt.
Proof. reflexivity. Qed.

Section UntaggedFlat.

Variable reg : registry.
Variable m : nat.
Variables (h : heap) (T obj : value) (en : entry).
Hypothesis no_tag : untagged h T.
Hypothesis some_obj : is_none obj = false.
Hypothesis resolved : resolve h reg (type_class h T) = Ok (Some en).

Lemma untagged_not_None : is_none T = false.
Proof. destruct no_tag as ((c & Hc) & _). now destruct T. Qed.

Lemma untagged_in hx idx :
  same_shape h hx -> flat_sub_type (Ok (list_sub_type hx T idx)) = Ok VNone.
Proof.
  intros [Hc _]. destruct no_tag as ((c & HT) & _).
  exact (untagged_list_sub_type h hx Hc T c HT no_tag idx).
Qed.

Lemma untagged_key_in hx k :
  same_shape h hx -> flat_sub_type (dict_sub_type hx T k) = Ok VNone.
Proof.
  intros [Hc _]. destruct no_tag as ((c & HT) & _).
  exact (untagged_dict_sub_type h hx Hc T c HT no_tag k).
Qed.

(** The loop of [TypedListConverter.to_flat] on a store of the shape of
    [h] in which the new list, at [w], is a list. *)
Lemma untagged_list_loop (w : loc) fuel i hx :
  same_shape h hx -> is_list hx w = true ->
  for_each fuel obj (fun item =>
    sub_type <- readr (fun h => flat_sub_type (Ok (list_sub_type h T 0))) ;;
    check_type reg sub_type item ;;;
    readr (fun h => append_lookup h (VRef w)) ;;;
    sub_type <- readr (fun h => flat_sub_type (Ok (list_sub_type h T 0))) ;;
    flat_item <- flatit m reg item sub_type VNone ;;
    append_call (VRef w) flat_item) i hx
  = for_each fuel obj (fun item =>
      flat_item <- flatit m reg item VNone VNone ;;
      append_call (VRef w) flat_item) i hx.
Proof.
  intros Hs Hw.
  apply (for_each_ext (fun hx => same_shape h hx /\ is_list hx w = true)); [|now split].
  clear hx Hs Hw. intros x hx [Hs Hw]. split.
  - rewrite (bind_readr_ok _ _ _ VNone (untagged_in hx 0 Hs)).
    unfold check_type at 1.
    rewrite (bind_readr_ok _ _ _ tt (check_without_type hx reg x)).
    rewrite (bind_readr_ok _ _ _ tt).
    2:{ unfold append_lookup, payload_of. unfold is_list in Hw.
        destruct (hx !! w) as [[? ? []|]|]; try discriminate. reflexivity. }
    now rewrite (bind_readr_ok _ _ _ VNone (untagged_in hx 0 Hs)).
  - intros h2 H.
    assert (K : same_shape hx h2).
    { revert H. apply keeps_bind; [apply keeps_flatit|intros; apply keeps_append]. }
    split; [exact (same_shape_trans _ _ _ Hs K)|now apply (proj2 K)].
Qed.

Lemma untagged_dict_loop (w : loc) items hx :
  same_shape h hx ->
  for_list items (fun '(k, v) =>
    sub_type <- readr (fun h => flat_sub_type (dict_sub_type h T k)) ;;
    check_type reg sub_type v ;;;
    present <- readr (fun h => py_contains h (VRef w) k) ;;
    sub_val <- (if present : bool
                then readr (fun h => py_getitem h (VRef w) k)
                else ret VNone) ;;
    sub_type <- readr (fun h => flat_sub_type (dict_sub_type h T k)) ;;
    flat_v <- flatit m reg v sub_type sub_val ;;
    py_setitem (VRef w) k flat_v) hx
  = for_list items (fun '(k, v) =>
      present <- readr (fun h => py_contains h (VRef w) k) ;;
      sub_val <- (if present : bool
                  then readr (fun h => py_getitem h (VRef w) k)
                  else ret VNone) ;;
      flat_v <- flatit m reg v VNone sub_val ;;
      py_setitem (VRef w) k flat_v) hx.
Proof.
  intros Hs. apply (for_list_ext (same_shape h)); [|assumption].
  clear hx Hs. intros [k v] hx Hs. split.
  - rewrite (bind_readr_ok _ _ _ VNone (untagged_key_in hx k Hs)).
    unfold check_type at 1.
    rewrite (bind_readr_ok _ _ _ tt (check_without_type hx reg v)).
    unfold bind at 1 5. unfold readr at 1 4, lift at 1 2.
    destruct (py_contains hx (VRef w) k) as [present|e]; [|reflexivity].
    assert (Hsub : forall sub_val hy, hy = hx ->
              (sub_type <- readr (fun h => flat_sub_type (dict_sub_type h T k)) ;;
               flat_v <- flatit m reg v sub_type sub_val ;;
               py_setitem (VRef w) k flat_v) hy
              = (flat_v <- flatit m reg v VNone sub_val ;;
                 py_setitem (VRef w) k flat_v) hy).
    { intros sub_val hy ->.
      now rewrite (bind_readr_ok _ _ _ VNone (untagged_key_in hx k Hs)). }
    destruct present.
    + unfold bind at 1 4. unfold readr at 1 3, lift at 1 2.
      destruct (py_getitem hx (VRef w) k) as [sub_val|e]; [|reflexivity].
      now apply Hsub.
    + unfold bind at 1 4. unfold ret at 1 2. now apply Hsub.
  - intros h2 H. eapply same_shape_trans; [exact Hs|]. revert H.
    apply keeps_bind; [apply keeps_readr|intros present].
    apply keeps_bind; [apply keeps_if; [apply keeps_readr|apply keeps_ret]|intros sub_val].
    apply keeps_bind; [apply keeps_flatit|intros; apply keeps_setitem].
Qed.

Lemma untagged_flatit i :
  conv_method h (e_conv en) "to_flat" MFlat = Ok i ->
  flatit (S m) reg obj T VNone h = to_flat_impl reg (S m) (flatit m reg) i T obj VNone h.
Proof.
  intros Hconv. cbn [flatit]. rewrite bind_reads, untagged_not_None.
  unfold cm_to_flat. rewrite (bind_readr_ok _ _ _ _ resolved).
  now rewrite (bind_readr_ok _ _ _ _ Hconv).
Qed.

Lemma alloc_shape c a p : same_shape h (h ++ [HObj c a p]).
Proof. exact (keeps_alloc c a p h _ _ eq_refl). Qed.

Lemma untagged_list_flat :
  conv_method h (e_conv en) "to_flat" MFlat = Ok ITypedList ->
  flatit (S m) reg obj T VNone h = flat_untyped_list reg m T obj h.
Proof.
  intros Hconv. rewrite (untagged_flatit _ Hconv). cbn [to_flat_impl].
  unfold TypedListConverter_to_flat, flat_untyped_list. rewrite some_obj.
  cbn [flat_target is_none instantiate].
  rewrite !(bind_ok_eq _ _ h (VRef (List.length h))
              (h ++ [HObj (CB BList) ∅ (PList [])]) eq_refl).
  apply bind_congr. intros [] h1 Hck.
  assert (h1 = h ++ [HObj (CB BList) ∅ (PList [])]) as ->.
  { unfold check_type, readr, lift in Hck.
    destruct (cm_check_type _ reg T obj); [now injection Hck|discriminate]. }
  unfold bind at 1.
  rewrite untagged_list_loop; [reflexivity|apply alloc_shape|].
  unfold is_list. rewrite lookup_app_r by lia. now rewrite Nat.sub_diag.
Qed.

Lemma untagged_dict_flat :
  conv_method h (e_conv en) "to_flat" MFlat = Ok ITypedDict ->
  flatit (S m) reg obj T VNone h = flat_untyped_dict reg m T obj h.
Proof.
  intros Hconv. rewrite (untagged_flatit _ Hconv). cbn [to_flat_impl].
  unfold TypedDictConverter_to_flat, flat_untyped_dict. rewrite some_obj.
  cbn [flat_target is_none instantiate].
  rewrite !(bind_ok_eq _ _ h (VRef (List.length h))
              (h ++ [HObj (CB BDict) ∅ (PDict [])]) eq_refl).
  apply bind_congr. intros [] h1 Hck.
  assert (h1 = h ++ [HObj (CB BDict) ∅ (PDict [])]) as ->.
  { unfold check_type, readr, lift in Hck.
    destruct (cm_check_type _ reg T obj); [now injection Hck|discriminate]. }
  apply bind_congr. intros items h1 Hitems.
  assert (h1 = h ++ [HObj (CB BDict) ∅ (PDict [])]) as ->.
  { unfold readr, lift in Hitems.
    destruct (py_items _ obj); [now injection Hitems|discriminate]. }
  unfold bind at 1.
  rewrite untagged_dict_loop; [reflexivity|apply alloc_shape].
Qed.

End UntaggedFlat.

(** ** Unflattening under a declared type without element type *)

Lemma keeps_instantiate c : keeps (instantiate c).
Proof.
  destruct c as [b|l]; [apply keeps_instantiate_builtin|]. cbn [instantiate].
  apply keeps_bind; [apply keeps_reads|intros cs].
  repeat (apply keeps_if; [try apply keeps_raise|]);
    try (apply keeps_bind; [apply keeps_alloc|intros; apply keeps_ret]).
Qed.

Lemma keeps_obj_target t obj : keeps (obj_target t obj).
Proof.
  unfold obj_target. apply keeps_if; [|apply keeps_ret].
  unfold new_instance. apply keeps_bind; [apply keeps_reads|intros c].
  apply keeps_instantiate.
Qed.

Lemma payload_of_grows h new v p :
  payload_of h v = Some p -> payload_of (h ++ new) v = Some p.
Proof.
  destruct v; try discriminate. cbn [payload_of].
  destruct (h !! l) as [x|] eqn:Hl; [|discriminate].
  now rewrite (lookup_app_l_Some _ _ _ _ Hl).
Qed.

Lemma py_iter_at_grows h new v i x :
  py_iter_at h v i = Ok (Some x) -> py_iter_at (h ++ new) v i = Ok (Some x).
Proof.
  unfold py_iter_at. destruct v; try discriminate; trivial.
  destruct (payload_of h (VRef l)) as [p|] eqn:Hp; [|discriminate].
  now rewrite (payload_of_grows _ new _ _ Hp).
Qed.

Lemma py_items_grows h new v items :
  py_items h v = Ok items -> py_items (h ++ new) v = Ok items.
Proof.
  unfold py_items.
  destruct (payload_of h v) as [p|] eqn:Hp.
  - rewrite (payload_of_grows _ new _ _ Hp).
    destruct p; trivial; destruct (derives_from h v BDict); discriminate.
  - destruct (derives_from h v BDict); discriminate.
Qed.

(** With the declared type None a tree is returned as it is, when no
    converter is registered for [NoneType]. *)
Lemma unflatit_without_type reg k h v sub :
  resolve h reg (CB BNoneType) = Ok None ->
  unflatit (S k) reg v VNone sub h = Ok (v, h).
Proof.
  intros Hr. cbn [unflatit]. unfold cm_to_obj.
  now rewrite (bind_readr_ok _ _ _ None Hr).
Qed.

Section UntaggedObj.

Variable reg : registry.
Variable m : nat.
Variables (h : heap) (T : value) (en : entry).
Hypothesis no_tag : untagged h T.
Hypothesis resolved : resolve h reg (type_class h T) = Ok (Some en).

Lemma untagged_unflatit i val obj :
  conv_method h (e_conv en) "to_obj" MObj = Ok i ->
  unflatit (S m) reg val T obj h = to_obj_impl reg (S m) (unflatit m reg) i T val obj h.
Proof.
  intros Hconv. cbn [unflatit]. unfold cm_to_obj.
  rewrite (bind_readr_ok _ _ _ _ resolved).
  now rewrite (bind_readr_ok _ _ _ _ Hconv).
Qed.

(** *** No attribute [ftype]: the first entry raises *)

Hypothesis no_ftype : py_getattr h T "ftype" = None.

Lemma no_list_sub_type hx idx : same_shape h hx -> list_sub_type hx T idx = None.
Proof.
  intros [Hc _]. destruct no_tag as ((c & HT) & Hl & _). unfold list_sub_type.
  now rewrite (py_getattr_class h hx Hc T c HT), no_ftype,
              (is_builtin_instance_class h hx Hc T c HT), Hl.
Qed.

Lemma no_dict_sub_type hx k : same_shape h hx -> dict_sub_type hx T k = Ok None.
Proof.
  intros [Hc _]. destruct no_tag as ((c & HT) & _ & Hd & _). unfold dict_sub_type.
  now rewrite (py_getattr_class h hx Hc T c HT), no_ftype,
              (is_builtin_instance_class h hx Hc T c HT), Hd.
Qed.

Lemma untagged_list_raises val obj x :
  conv_method h (e_conv en) "to_obj" MObj = Ok ITypedList ->
  is_none val = false ->
  py_iter_at h val 0 = Ok (Some x) ->
  exists e,
    unflatit (S m) reg val T obj h = Raise e /\
    (forall o h1, obj_target T obj h = Ok (o, h1) -> e = unresolvable x).
Proof.
  intros Hconv Hval Hx. rewrite (untagged_unflatit _ _ _ Hconv). cbn [to_obj_impl].
  unfold TypedListConverter_to_obj. rewrite Hval. unfold bind at 1.
  destruct (obj_target T obj h) as [[o h1]|e0] eqn:Ho.
  2:{ exists e0. split; [reflexivity|discriminate]. }
  exists (unresolvable x). split; [|trivial].
  pose proof (keeps_obj_target _ _ _ _ _ Ho) as Hs.
  destruct (obj_target_grows _ _ _ _ _ Ho) as [new ->].
  unfold bind at 1. cbn [for_each].
  rewrite (bind_readr_ok _ _ _ _ (py_iter_at_grows _ new _ _ _ Hx)).
  unfold bind at 1. unfold bind at 1. unfold readr at 1.
  rewrite (no_list_sub_type _ 0 Hs). now destruct x.
Qed.

Lemma untagged_dict_raises val obj k v rest :
  conv_method h (e_conv en) "to_obj" MObj = Ok ITypedDict ->
  is_none val = false ->
  py_items h val = Ok ((k, v) :: rest) ->
  exists e,
    unflatit (S m) reg val T obj h = Raise e /\
    (forall o h1 s, obj_target T obj h = Ok (o, h1) -> k = VStr s -> e = unresolvable v).
Proof.
  intros Hconv Hval Hx. rewrite (untagged_unflatit _ _ _ Hconv). cbn [to_obj_impl].
  unfold TypedDictConverter_to_obj. rewrite Hval. unfold bind at 1.
  destruct (obj_target T obj h) as [[o h1]|e0] eqn:Ho.
  2:{ exists e0. split; [reflexivity|discriminate]. }
  pose proof (keeps_obj_target _ _ _ _ _ Ho) as Hs.
  destruct (obj_target_grows _ _ _ _ _ Ho) as [new ->].
  rewrite (bind_readr_ok _ _ _ _ (py_items_grows _ new _ _ Hx)).
  unfold bind at 1. rewrite for_list_cons. unfold bind at 1. unfold bind at 1.
  destruct k as [| | |name| | | | | | | |];
    try (eexists; split; [reflexivity|discriminate]).
  unfold readr at 1. cbn [py_hasattr_val]. unfold lift at 1.
  unfold py_hasattr. unfold bind at 1.
  destruct (py_getattr (h ++ new) o name) as [a|] eqn:Ha.
  - unfold getattr at 1, readr at 1. rewrite Ha. cbn [lift].
    unfold bind at 1. unfold readr at 1.
    rewrite (no_dict_sub_type _ _ Hs). exists (unresolvable v).
    split; [destruct v; reflexivity|trivial].
  - unfold ret at 1. unfold bind at 1. unfold readr at 1.
    rewrite (no_dict_sub_type _ _ Hs). exists (unresolvable v).
    split; [destruct v; reflexivity|trivial].
Qed.

End UntaggedObj.

(** *** [ftype] is None: the entries pass through *)

Section BareList.

Variable reg : registry.
Variable m : nat.
Variables (h : heap) (ll lv : loc) (kl : pyclass).
Variables (cv : cref) (av : gmap string value) (items : list value).
Variable en : entry.

Hypothesis type_there : h !! ll = Some (HClass kl).
Hypothesis bare : py_getattr h (VRef ll) "ftype" = Some VNone.
Hypothesis tree_there : h !! lv = Some (HObj cv av (PList items)).
Hypothesis resolved : resolve h reg (CL ll) = Ok (Some en).
Hypothesis obj_method : conv_method h (e_conv en) "to_obj" MObj = Ok ITypedList.
Hypothesis none_unconverted : resolve h reg (CB BNoneType) = Ok None.
Hypothesis no_metaclass : CB BType ∉ mro h (CL ll).
Hypothesis is_list_type : CB BList ∈ mro h (CL ll).
Hypothesis enough_fuel : (List.length items <= m)%nat.

Local Abbreviation T := (VRef ll).
Local Abbreviation w := (List.length h).
Local Abbreviation made := (fun s => HObj (CL ll) ∅ (PList s)).

Lemma bare_list_class : as_class h T = Some (CL ll).
Proof. cbn [as_class]. now rewrite type_there. Qed.

Lemma bare_list_sub_type s idx : list_sub_type (h ++ [made s]) T idx = Some VNone.
Proof.
  assert (Hi : Forall is_instance [made s]) by now repeat constructor.
  unfold list_sub_type.
  now rewrite (py_getattr_class h _ (grown_classes h _ Hi) T _ bare_list_class), bare.
Qed.

Lemma bare_list_to_obj :
  unflatit (S m) reg (VRef lv) T VNone h = Ok (VRef w, h ++ [made items]).
Proof.
  assert (HT : type_class h T = CL ll).
  { unfold type_class. now rewrite bare_list_class. }
  cbn [unflatit]. unfold cm_to_obj.
  rewrite (bind_readr_ok _ _ _ (Some en)) by (now rewrite HT).
  rewrite (bind_readr_ok _ _ _ ITypedList obj_method). cbn [to_obj_impl].
  unfold TypedListConverter_to_obj. cbn [is_none]. unfold obj_target. cbn [is_none].
  assert (Hnew : new_instance T h = Ok (VRef w, h ++ [made []])).
  { unfold new_instance. rewrite bind_reads, HT.
    rewrite instantiate_class by exact no_metaclass.
    unfold new_payload. now rewrite (bool_decide_eq_true_2 _ is_list_type). }
  rewrite (bind_ok_eq _ _ _ _ _ Hnew).
  erewrite bind_ok_eq; [reflexivity|].
  match goal with |- for_each _ _ ?body _ _ = _ =>
    pose proof (fun H1 H2 H3 =>
      for_each_fold body (fun s => h ++ [made s]) (fun s x => s ++ [x])
        (VRef lv) items (fun _ => (0 < m)%nat) H1 H2 H3 (S m) 0%nat []) as HF
  end.
  rewrite drop_0, foldl_snoc in HF. apply HF; [| | |lia]; clear HF.
  - intros s i. unfold py_iter_at, payload_of.
    now rewrite (lookup_app_l_Some _ _ _ _ tree_there).
  - intros x s Hm. destruct m as [|m']; [lia|].
    assert (Hi : Forall is_instance [made s]) by now repeat constructor.
    assert (Hw : (h ++ [made s]) !! w = Some (made s)).
    { rewrite lookup_app_r by lia. now rewrite Nat.sub_diag. }
    assert (Hr : resolve (h ++ [made s]) reg (CB BNoneType) = Ok None)
      by (now rewrite (st_resolve h _ (grown_classes h _ Hi))).
    rewrite (bind_readr_ok _ _ _ VNone)
      by (unfold obj_sub_type; now rewrite bare_list_sub_type).
    rewrite (bind_ok_eq _ _ _ _ _ (unflatit_without_type reg m' _ x VNone Hr)).
    rewrite (bind_readr_ok _ _ _ VNone)
      by (unfold obj_sub_type; now rewrite bare_list_sub_type).
    unfold check_type.
    rewrite (bind_readr_ok _ _ _ tt (check_without_type (h ++ [made s]) reg x)).
    rewrite (bind_readr_ok _ _ _ tt)
      by (unfold append_lookup, payload_of; now rewrite Hw).
    unfold append_call, store. rewrite Hw.
    do 2 f_equal. rewrite insert_app_r_alt by lia. now rewrite Nat.sub_diag.
  - apply Forall_forall. intros x Hx. destruct items; [now apply elem_of_nil in Hx|].
    cbn [List.length] in enough_fuel. lia.
Qed.

End BareList.

Section BareDict.

Variable reg : registry.
Variable m : nat.
Variables (h : heap) (ll lv : loc) (kl : pyclass).
Variables (cv : cref) (av : gmap string value) (items : list (value * value)).
Variable en : entry.

Hypothesis type_there : h !! ll = Some (HClass kl).
Hypothesis bare : py_getattr h (VRef ll) "ftype" = Some VNone.
Hypothesis tree_there : h !! lv = Some (HObj cv av (PDict items)).
Hypothesis resolved : resolve h reg (CL ll) = Ok (Some en).
Hypothesis obj_method : conv_method h (e_conv en) "to_obj" MObj = Ok ITypedDict.
Hypothesis none_unconverted : resolve h reg (CB BNoneType) = Ok None.
Hypothesis string_keys : Forall (fun kv => exists name, fst kv = VStr name) items.
Hypothesis different_keys : distinct_by fst items = true.
Hypothesis no_metaclass : CB BType ∉ mro h (CL ll).
Hypothesis no_list_type : CB BList ∉ mro h (CL ll).
Hypothesis is_dict_type : CB BDict ∈ mro h (CL ll).
Hypothesis enough_fuel : (items = [] \/ 0 < m)%nat.

Local Abbreviation T := (VRef ll).
Local Abbreviation w := (List.length h).
Local Abbreviation made := (fun s => HObj (CL ll) ∅ (PDict s)).

(** What is left of the loop: the pairs to come have string keys that
    differ from each other and from those set. *)
Local Abbreviation to_come := (fun (s xs : list (value * value)) =>
  (xs = [] \/ 0 < m)%nat /\
  Forall (fun kv => exists name, fst kv = VStr name) xs /\
  distinct_by fst xs = true /\
  forall kv, kv ∈ xs -> existsb (fun kv' => val_eqb (fst kv) (fst kv')) s = false).

Lemma to_come_all : to_come [] items.
Proof. repeat split; trivial. Qed.

Lemma to_come_next x xs s : to_come s (x :: xs) -> to_come (s ++ [x]) xs.
Proof.
  intros (Hm & Hk & Hd & Hs).
  apply Forall_cons in Hk as [_ Hk].
  apply distinct_by_cons_inv in Hd as [Hd Hx].
  split; [destruct Hm as [?|?]; [discriminate|now right]|].
  repeat split; trivial. intros kv Hkv.
  rewrite existsb_app, (Hs kv (list_elem_of_further _ _ _ Hkv)).
  cbn [existsb orb]. now rewrite (Hx kv Hkv).
Qed.

Lemma bare_dict_class : as_class h T = Some (CL ll).
Proof. cbn [as_class]. now rewrite type_there. Qed.

Lemma bare_dict_sub_type s k : dict_sub_type (h ++ [made s]) T k = Ok (Some VNone).
Proof.
  assert (Hi : Forall is_instance [made s]) by now repeat constructor.
  unfold dict_sub_type.
  now rewrite (py_getattr_class h _ (grown_classes h _ Hi) T _ bare_dict_class), bare.
Qed.

Lemma bare_dict_to_obj :
  unflatit (S m) reg (VRef lv) T VNone h = Ok (VRef w, h ++ [made items]).
Proof.
  assert (HT : type_class h T = CL ll).
  { unfold type_class. now rewrite bare_dict_class. }
  cbn [unflatit]. unfold cm_to_obj.
  rewrite (bind_readr_ok _ _ _ (Some en)) by (now rewrite HT).
  rewrite (bind_readr_ok _ _ _ ITypedDict obj_method). cbn [to_obj_impl].
  unfold TypedDictConverter_to_obj. cbn [is_none]. unfold obj_target. cbn [is_none].
  assert (Hnew : new_instance T h = Ok (VRef w, h ++ [made []])).
  { unfold new_instance. rewrite bind_reads, HT.
    rewrite instantiate_class by exact no_metaclass.
    unfold new_payload.
    now rewrite (bool_decide_eq_false_2 _ no_list_type),
                (bool_decide_eq_true_2 _ is_dict_type). }
  rewrite (bind_ok_eq _ _ _ _ _ Hnew).
  rewrite (bind_readr_ok _ _ _ items)
    by (unfold py_items, payload_of; now rewrite (lookup_app_l_Some _ _ _ _ tree_there)).
  erewrite bind_ok_eq; [reflexivity|].
  match goal with |- for_list _ ?body _ = _ =>
    pose proof (fun H =>
      for_list_fold body (fun s => h ++ [made s]) (fun s x => s ++ [x])
        to_come H items [] to_come_all) as HF
  end.
  rewrite foldl_snoc in HF. apply HF; clear HF.
  intros [k v] xs s Htodo. split; [|now apply to_come_next].
  destruct Htodo as (Hm & Hk & _ & Hs).
  destruct Hm as [Hm|Hm]; [discriminate|]. destruct m as [|m']; [lia|].
  apply Forall_cons in Hk as [[name Hname] _]. cbn [fst] in Hname. subst k.
  specialize (Hs _ (list_elem_of_here _ _)). cbn [fst] in Hs.
  assert (Hi : Forall is_instance [made s]) by now repeat constructor.
  assert (Hw : (h ++ [made s]) !! w = Some (made s)).
  { rewrite lookup_app_r by lia. now rewrite Nat.sub_diag. }
  assert (Hr : resolve (h ++ [made s]) reg (CB BNoneType) = Ok None)
    by (now rewrite (st_resolve h _ (grown_classes h _ Hi))).
  rewrite (bind_readr_ok (fun h0 => py_hasattr_val h0 (VRef w) (VStr name)) _ _ _ eq_refl).
  unfold py_hasattr, getattr.
  match goal with |- bind ?mm _ ?hh = _ =>
    assert (Hsub : exists sub, mm hh = Ok (sub, hh))
  end.
  { match goal with |- context [py_getattr ?hh ?o name] =>
      destruct (py_getattr hh o name) as [v0|] eqn:G
    end.
    - exists v0. cbv iota. unfold readr, lift. now rewrite G.
    - now exists VNone. }
  destruct Hsub as [sub Hsub]. rewrite (bind_ok_eq _ _ _ _ _ Hsub).
  rewrite (bind_readr_ok _ _ _ VNone)
    by (unfold obj_sub_type; now rewrite bare_dict_sub_type).
  rewrite (bind_ok_eq _ _ _ _ _ (unflatit_without_type reg m' _ v sub Hr)).
  rewrite (bind_readr_ok _ _ _ VNone)
    by (unfold obj_sub_type; now rewrite bare_dict_sub_type).
  unfold check_type.
  rewrite (bind_readr_ok _ _ _ tt (check_without_type (h ++ [made s]) reg v)).
  unfold py_setitem, store. rewrite Hw. cbn [hashable payload_of].
  rewrite (assoc_set_absent _ _ _ Hs).
  do 2 f_equal. rewrite insert_app_r_alt by lia. now rewrite Nat.sub_diag.
Qed.

End BareDict.

(** C5, as amended.  Let the declared type [T] be a class that names no
    element type: it has no attribute [ftype], as [list] and [dict], or its
    [ftype] is None, as [TypedList] and [TypedDict] themselves.
    - Where the registry gives the list converter for [T], flattening a
      list makes a new list, checks the list against [T] and flattens every
      item in turn with the declared type None; where it gives the dict
      converter, the same holds of the values of a dict.
    - [flatit] with the declared type None flattens the element as its own
      class declares, and returns it unchanged, the store untouched, when
      no converter resolves for that class.
    - When [T] has no attribute [ftype], unflattening a tree that is not
      None and has a first entry raises before any element is converted;
      once the object to fill is there, the exception is the plain
      [Exception] when the first entry of a sequence, resp. the first key
      and value of a mapping, are strings.
    - When [ftype] is None and no converter is registered for [NoneType],
      unflattening a list, or a dict with string keys, passes every entry
      on as it is, into a new instance of [T]. *)
Theorem untagged_container :
  (forall reg m h T obj en,
     untagged h T -> is_none obj = false ->
     resolve h reg (type_class h T) = Ok (Some en) ->
     conv_method h (e_conv en) "to_flat" MFlat = Ok ITypedList ->
     flatit (S m) reg obj T VNone h = flat_untyped_list reg m T obj h) /\
  (forall reg m h T obj en,
     untagged h T -> is_none obj = false ->
     resolve h reg (type_class h T) = Ok (Some en) ->
     conv_method h (e_conv en) "to_flat" MFlat = Ok ITypedDict ->
     flatit (S m) reg obj T VNone h = flat_untyped_dict reg m T obj h) /\
  (forall reg n item val h,
     flatit (S n) reg item VNone val h
     = cm_to_flat reg (S n) (flatit n reg) (cref_val (class_of h item)) item val h /\
     (resolve h reg (type_class h (cref_val (class_of h item))) = Ok None ->
      flatit (S n) reg item VNone val h = Ok (item, h))) /\
  (forall reg m h T en val obj x,
     untagged h T -> py_getattr h T "ftype" = None ->
     resolve h reg (type_class h T) = Ok (Some en) ->
     conv_method h (e_conv en) "to_obj" MObj = Ok ITypedList ->
     is_none val = false ->
     py_iter_at h val 0 = Ok (Some x) ->
     exists e,
       unflatit (S m) reg val T obj h = Raise e /\
       (forall o h1, obj_target T obj h = Ok (o, h1) -> e = unresolvable x)) /\
  (forall reg m h T en val obj k v rest,
     untagged h T -> py_getattr h T "ftype" = None ->
     resolve h reg (type_class h T) = Ok (Some en) ->
     conv_method h (e_conv en) "to_obj" MObj = Ok ITypedDict ->
     is_none val = false ->
     py_items h val = Ok ((k, v) :: rest) ->
     exists e,
       unflatit (S m) reg val T obj h = Raise e /\
       (forall o h1 s, obj_target T obj h = Ok (o, h1) -> k = VStr s ->
                       e = unresolvable v)) /\
  (forall reg m h ll lv kl cv av items en,
     h !! ll = Some (HClass kl) ->
     py_getattr h (VRef ll) "ftype" = Some VNone ->
     h !! lv = Some (HObj cv av (PList items)) ->
     resolve h reg (CL ll) = Ok (Some en) ->
     conv_method h (e_conv en) "to_obj" MObj = Ok ITypedList ->
     resolve h reg (CB BNoneType) = Ok None ->
     CB BType ∉ mro h (CL ll) -> CB BList ∈ mro h (CL ll) ->
     (List.length items <= m)%nat ->
     unflatit (S m) reg (VRef lv) (VRef ll) VNone h
     = Ok (VRef (List.length h), h ++ [HObj (CL ll) ∅ (PList items)])) /\
  (forall reg m h ll lv kl cv av items en,
     h !! ll = Some (HClass kl) ->
     py_getattr h (VRef ll) "ftype" = Some VNone ->
     h !! lv = Some (HObj cv av (PDict items)) ->
     resolve h reg (CL ll) = Ok (Some en) ->
     conv_method h (e_conv en) "to_obj" MObj = Ok ITypedDict ->
     resolve h reg (CB BNoneType) = Ok None ->
     Forall (fun kv => exists name, fst kv = VStr name) items ->
     distinct_by fst items = true ->
     CB BType ∉ mro h (CL ll) -> CB BList ∉ mro h (CL ll) -> CB BDict ∈ mro h (CL ll) ->
     (items = [] \/ 0 < m)%nat ->
     unflatit (S m) reg (VRef lv) (VRef ll) VNone h
     = Ok (VRef (List.length h), h ++ [HObj (CL ll) ∅ (PDict items)])).
Proof.
  split; [|split; [|split; [|split; [|split; [|split]]]]].
  - intros. eapply untagged_list_flat; eassumption.
  - intros. eapply untagged_dict_flat; eassumption.
  - intros reg n item val h.
    assert (E : flatit (S n) reg item VNone val h
                = cm_to_flat reg (S n) (flatit n reg) (cref_val (class_of h item)) item val h)
      by reflexivity.
    split; [exact E|]. intros Hr. rewrite E.
    exact (cm_to_flat_resolved _ _ _ _ _ _ _ None Hr).
  - intros. eapply untagged_list_raises; eassumption.
  - intros. eapply untagged_dict_raises; eassumption.
  - intros. eapply bare_list_to_obj; eassumption.
  - intros. eapply bare_dict_to_obj; eassumption.
Qed.

(** C5 fails as stated, in both halves.  With the declared type [list],
    flattening renders a [date] element as text instead of passing it
    through; and with the declared type [TypedList], whose [ftype] is None,
    unflattening [['x', 1]] raises nothing and passes both entries on. *)
Lemma untyped_element_is_converted :
  flatit 10 default_registry (VRef 12%nat) (VCls BList) VNone
         (store_list [VDate (mkdate 2024 3 5)])
    = Ok (VRef 13%nat,
          store_list [VDate (mkdate 2024 3 5)]
          ++ [HObj (CB BList) ∅ (PList [VStr "2024-03-05"])]) /\
  VStr "2024-03-05" <> VDate (mkdate 2024 3 5) /\
  py_getattr (store_list [VStr "x"; VInt 1]) (VRef L_TypedList) "ftype" = Some VNone /\
  unflatit 10 default_registry (VRef 12%nat) (VRef L_TypedList) VNone
           (store_list [VStr "x"; VInt 1])
    = Ok (VRef 13%nat,
          store_list [VStr "x"; VInt 1]
          ++ [HObj (CL L_TypedList) ∅ (PList [VStr "x"; VInt 1])]).
Proof.
  split; [vm_compute; reflexivity|]. split; [discriminate|].
  split; vm_compute; reflexivity.
Qed.

(** The four declared types without element type, with the default
    registry: under [list] a date is rendered and an integer passed
    through, and [['x']] is not unflattened; under [TypedDict] the values of
    a dict are flattened alike; under [dict] the tree [{'k': 'x'}] is not
    unflattened; under [TypedList] and [TypedDict] the entries pass. *)
Lemma untagged_container_witness :
  let date := VDate (mkdate 2024 3 5) in
  let h1 := store_list [date; VInt 7] in
  let h2 := store_dict [(VStr "d", date); (VStr "n", VInt 7)] in
  let h3 := store_list [VStr "x"; VInt 1] in
  let h4 := store_dict [(VStr "k", VStr "x")] in
  flatit 5 default_registry (VRef 12%nat) (VCls BList) VNone h1
    = Ok (VRef 13%nat, h1 ++ [HObj (CB BList) ∅ (PList [VStr "2024-03-05"; VInt 7])]) /\
  flatit 5 default_registry (VRef 12%nat) (VRef L_TypedDict) VNone h2
    = Ok (VRef 13%nat,
          h2 ++ [HObj (CB BDict) ∅
                   (PDict [(VStr "d", VStr "2024-03-05"); (VStr "n", VInt 7)])]) /\
  flatit 5 default_registry (VInt 7) VNone VNone h1 = Ok (VInt 7, h1) /\
  unflatit 5 default_registry (VRef 12%nat) (VCls BList) VNone h3 = Raise PlainException /\
  unflatit 5 default_registry (VRef 12%nat) (VCls BDict) VNone h4 = Raise PlainException /\
  unflatit 5 default_registry (VRef 12%nat) (VRef L_TypedList) VNone h3
    = Ok (VRef 13%nat, h3 ++ [HObj (CL L_TypedList) ∅ (PList [VStr "x"; VInt 1])]) /\
  unflatit 5 default_registry (VRef 12%nat) (VRef L_TypedDict) VNone h4
    = Ok (VRef 13%nat, h4 ++ [HObj (CL L_TypedDict) ∅ (PDict [(VStr "k", VStr "x")])]).
Proof.
  intros date h1 h2 h3 h4.
  destruct untagged_container as (FL & FD & EL & UL & UD & BL & BD).
  split; [|split; [|split; [|split; [|split; [|split]]]]].
  - rewrite (FL default_registry 4%nat h1 (VCls BList) (VRef 12%nat)
               (mkentry (VCls BList) (VRef L_TypedListConverter) true)).
    + vm_compute. reflexivity.
    + split; [now exists (CB BList)|]. repeat split. now left.
    + reflexivity.
    + reflexivity.
    + reflexivity.
  - rewrite (FD default_registry 4%nat h2 (VRef L_TypedDict) (VRef 12%nat)
               (mkentry (VRef L_TypedDict) (VRef L_TypedDictConverter) true)).
    + vm_compute. reflexivity.
    + split; [now exists (CL L_TypedDict)|]. repeat split. now right.
    + reflexivity.
    + reflexivity.
    + reflexivity.
  - apply (proj2 (EL default_registry 4%nat (VInt 7) VNone h1)). reflexivity.
  - destruct (UL default_registry 4%nat h3 (VCls BList)
                (mkentry (VCls BList) (VRef L_TypedListConverter) true)
                (VRef 12%nat) VNone (VStr "x")) as (e & -> & He).
    + split; [now exists (CB BList)|]. repeat split. now left.
    + reflexivity.
    + reflexivity.
    + reflexivity.
    + reflexivity.
    + reflexivity.
    + f_equal. exact (He _ _ eq_refl).
  - destruct (UD default_registry 4%nat h4 (VCls BDict)
                (mkentry (VCls BDict) (VRef L_TypedDictConverter) true)
                (VRef 12%nat) VNone (VStr "k") (VStr "x") []) as (e & -> & He).
    + split; [now exists (CB BDict)|]. repeat split. now left.
    + reflexivity.
    + reflexivity.
    + reflexivity.
    + reflexivity.
    + reflexivity.
    + f_equal. exact (He _ _ "k" eq_refl eq_refl).
  - apply (BL default_registry 4%nat h3 L_TypedList 12%nat
             (mkclass "TypedList" module_name true true
                [CL L_BaseFlattyType; CB BList; CB BObject] ∅)
             (CB BList) ∅ [VStr "x"; VInt 1]
             (mkentry (VRef L_TypedList) (VRef L_TypedListConverter) true));
      try reflexivity.
    + apply (bool_decide_eq_false_1 _). reflexivity.
    + apply (bool_decide_eq_true_1 _). reflexivity.
    + cbn. lia.
  - apply (BD default_registry 4%nat h4 L_TypedDict 12%nat
             (mkclass "TypedDict" module_name true true
                [CL L_BaseFlattyType; CB BDict; CB BObject] ∅)
             (CB BDict) ∅ [(VStr "k", VStr "x")]
             (mkentry (VRef L_TypedDict) (VRef L_TypedDictConverter) true));
      try reflexivity.
    + repeat constructor. now exists "k".
    + apply (bool_decide_eq_false_1 _). reflexivity.
    + apply (bool_decide_eq_false_1 _). reflexivity.
    + apply (bool_decide_eq_true_1 _). reflexivity.
    + right. lia.
Defined.
